(** * BedrockSimulator: the cost engine and the parameter sweep

    A shallow embedding of [simulator-engine.ts] and of the
    [paramSensitivityData] / [results] computations of
    [workload-simulator.tsx].

    Numbers.  A TypeScript [number] is modelled as an exact rational
    ([Q], compared with [==]); rounding of IEEE doubles is not modelled.
    Integer-valued numbers the code obtains from [Math.round],
    [Math.ceil], [length] or a loop counter are kept in [Z] and injected
    back into [Q] where the code mixes them with other numbers.  The one
    place where the code produces [Infinity] on purpose (the break-even
    threshold and the tie gap of a point with fewer than two strategies)
    is modelled by [xnum]. *)

From Stdlib Require Import QArith Qround Lqa Lia ZArith List Sorting.Sorted Permutation.
From stdpp Require Import list strings gmap.

Local Open Scope Q_scope.

(* ------------------------------------------------------------------ *)
(** ** Numbers *)

(** [Math.round]: nearest integer, halves towards plus infinity. *)
Definition Math_round (x : Q) : Z := Qfloor (x + (1 # 2)).

(** [Math.ceil]. *)
Definition Math_ceil (x : Q) : Z := Qceiling x.

(** [Math.max] and [Math.min] on two numbers. *)
Definition Math_max (a b : Q) : Q := if Qle_bool a b then b else a.
Definition Math_min (a b : Q) : Q := if Qle_bool a b then a else b.

(** [a < b] on numbers, as a boolean. *)
Definition Qlt_bool (a b : Q) : bool := negb (Qle_bool b a).

(** [o ?? d]. *)
Definition nullish (o : option Q) (d : Q) : Q :=
  match o with Some v => v | None => d end.

(** A number that may be [Infinity]. *)
Inductive xnum : Type :=
| Fin (q : Q)
| Infinity.

(** [a >= b] for a finite [a] and a possibly infinite [b]. *)
Definition ge_xnum (a : Q) (b : xnum) : bool :=
  match b with
  | Fin q => Qle_bool q a
  | Infinity => false
  end.

(** [a < b] for a possibly infinite [a] and a finite [b]. *)
Definition xnum_lt (a : xnum) (b : Q) : bool :=
  match a with
  | Fin q => Qlt_bool q b
  | Infinity => false
  end.

(* ------------------------------------------------------------------ *)
(** ** Types *)

Inductive CacheTTL : Type := TTL_5min | TTL_1hour.

Inductive DisplayMode : Type := strategy_comparison | caching_insights.

(** [keyof TemplatePreset]. *)
Inductive SensitivityParamKey : Type :=
| K_students | K_reqsPerStudent | K_sysTokens | K_ctxTokens
| K_subTokens | K_instTokens | K_outputTokens.

Record TemplatePreset : Type := {
  students : Q;
  reqsPerStudent : Q;
  sysTokens : Q;
  ctxTokens : Q;
  subTokens : Q;
  instTokens : Q;
  outputTokens : Q;
}.

(** [pricing-data.ts]: prices per 1000 tokens, [null] as [None]. *)
Record ModelPricing : Type := {
  input_1k : Q;
  output_1k : Q;
  cache_write_1k : option Q;
  cache_write_1hour_1k : option Q;
  cache_read_1k : option Q;
  batch_input_1k : option Q;
  batch_output_1k : option Q;
}.

Record BedrockModel : Type := {
  pricing : ModelPricing;
}.

Record CostBreakdown : Type := {
  cacheWrite : Q;
  cacheRead : Q;
  freshInput : Q;
  output : Q;
  guardrails : Q;
  total : Q;
}.

(** [interface SumStrategyBreakdown extends CostBreakdown]: the inherited
    fields are kept in [breakdown]. *)
Record SumStrategyBreakdown : Type := {
  breakdown : CostBreakdown;
  summarizationCalls : Q;
}.

Record SummarizationSim : Type := {
  historyPerTurn : list Q;
  summarizationTurns : list Z;
  totalHistoryTokensSent : Q;
  avgHistoryPerTurn : Q;
  numSummarizations : Z;
  turnsPerCycle : Z;
}.

Record SummarizationCostResult : Type := {
  mainCallCost : Q;
  summarizationCallCost : Q;
  totalCost : Q;
  r_numSummarizations : Z;
  r_avgHistoryPerTurn : Q;
  vsWindowSavings : Q;
  vsWindowSavingsPct : Q;
  r_turnsPerCycle : Z;
  breakEvenK : xnum;
  summaryCachingViable : bool;
  summaryCachingSavings : Q;
}.

(* ------------------------------------------------------------------ *)
(** ** Constants *)

Definition CHARS_PER_TOKEN : Q := 4.
Definition GUARDRAILS_COST_PER_1K_UNITS : Q := 15 # 100.

(* ------------------------------------------------------------------ *)
(** ** Cost calculation functions *)

Definition getCacheWritePrice (model : BedrockModel) (cacheTTL : CacheTTL) : Q :=
  let p := pricing model in
  match cacheTTL, cache_write_1hour_1k p with
  | TTL_1hour, Some w => w
  | _, _ => nullish (cache_write_1k p) 0
  end.

Definition computeStrategyA (model : BedrockModel)
    (students reqsPerStudent sysTokens ctxTokens subTokens instTokens
       outputTokens tierMultiplier : Q)
    (cacheTTL : CacheTTL) : CostBreakdown :=
  let p := pricing model in
  let pInput := input_1k p * tierMultiplier in
  let pOutput := output_1k p * tierMultiplier in
  let pWrite := getCacheWritePrice model cacheTTL * tierMultiplier in
  let pRead := nullish (cache_read_1k p) 0 * tierMultiplier in
  let totalRequests := students * reqsPerStudent in
  let cachedTokens := sysTokens + ctxTokens in
  let freshTokens := subTokens + instTokens in
  let cacheWrite := (cachedTokens / 1000) * pWrite in
  let cacheRead := (totalRequests - 1) * (cachedTokens / 1000) * pRead in
  let freshInput := totalRequests * (freshTokens / 1000) * pInput in
  let output := totalRequests * (outputTokens / 1000) * pOutput in
  {| cacheWrite := cacheWrite;
     cacheRead := cacheRead;
     freshInput := freshInput;
     output := output;
     guardrails := 0;
     total := cacheWrite + cacheRead + freshInput + output |}.

Definition computeStrategyB (model : BedrockModel)
    (students reqsPerStudent sysTokens ctxTokens subTokens instTokens
       outputTokens tierMultiplier : Q)
    (submissionCacheable : bool) (cacheTTL : CacheTTL) : CostBreakdown :=
  let p := pricing model in
  let pInput := input_1k p * tierMultiplier in
  let pOutput := output_1k p * tierMultiplier in
  let pWrite := getCacheWritePrice model cacheTTL * tierMultiplier in
  let pRead := nullish (cache_read_1k p) 0 * tierMultiplier in
  let totalRequests := students * reqsPerStudent in
  let sharedTokens := sysTokens + ctxTokens in
  let fullCachedTokens := sharedTokens + subTokens in
  let cacheWrite :=
    if submissionCacheable
    then students * (fullCachedTokens / 1000) * pWrite
    else (sharedTokens / 1000) * pWrite
         + totalRequests * (subTokens / 1000) * pWrite in
  let cacheRead :=
    if submissionCacheable
    then students * (reqsPerStudent - 1) * (fullCachedTokens / 1000) * pRead
    else (totalRequests - 1) * (sharedTokens / 1000) * pRead in
  let freshInput := totalRequests * (instTokens / 1000) * pInput in
  let output := totalRequests * (outputTokens / 1000) * pOutput in
  {| cacheWrite := cacheWrite;
     cacheRead := cacheRead;
     freshInput := freshInput;
     output := output;
     guardrails := 0;
     total := cacheWrite + cacheRead + freshInput + output |}.

Definition computeNoCaching (model : BedrockModel)
    (students reqsPerStudent sysTokens ctxTokens subTokens instTokens
       outputTokens tierMultiplier : Q) : CostBreakdown :=
  let p := pricing model in
  let pInput := input_1k p * tierMultiplier in
  let pOutput := output_1k p * tierMultiplier in
  let totalRequests := students * reqsPerStudent in
  let allInputTokens := sysTokens + ctxTokens + subTokens + instTokens in
  let freshInput := totalRequests * (allInputTokens / 1000) * pInput in
  let output := totalRequests * (outputTokens / 1000) * pOutput in
  {| cacheWrite := 0;
     cacheRead := 0;
     freshInput := freshInput;
     output := output;
     guardrails := 0;
     total := freshInput + output |}.

Definition computeBatch (model : BedrockModel)
    (students reqsPerStudent sysTokens ctxTokens subTokens instTokens
       outputTokens tierMultiplier : Q) : CostBreakdown :=
  let p := pricing model in
  let pInput := nullish (batch_input_1k p) (input_1k p) * tierMultiplier in
  let pOutput := nullish (batch_output_1k p) (output_1k p) * tierMultiplier in
  let totalRequests := students * reqsPerStudent in
  let allInputTokens := sysTokens + ctxTokens + subTokens + instTokens in
  let freshInput := totalRequests * (allInputTokens / 1000) * pInput in
  let output := totalRequests * (outputTokens / 1000) * pOutput in
  {| cacheWrite := 0;
     cacheRead := 0;
     freshInput := freshInput;
     output := output;
     guardrails := 0;
     total := freshInput + output |}.

(* ------------------------------------------------------------------ *)
(** ** Graduated chat history model *)

Definition computeTokensPerExchange (outputTokens : Q) : Z :=
  Math_round (outputTokens * (125 # 100)).

Definition computeAvgHistoryTokens (historyCap reqsPerStudent outputTokens : Q) : Q :=
  if Qle_bool reqsPerStudent 0 || Qle_bool historyCap 0 then 0
  else
    let tpe := computeTokensPerExchange outputTokens in
    if (tpe <=? 0)%Z then historyCap
    else
      let rampCount :=
        Math_min (inject_Z (Math_ceil (historyCap / inject_Z tpe))) reqsPerStudent in
      let rampSum := inject_Z tpe * rampCount * (rampCount - 1) / 2 in
      let cappedCount := Math_max 0 (reqsPerStudent - rampCount) in
      let cappedSum := historyCap * cappedCount in
      (rampSum + cappedSum) / reqsPerStudent.

Definition computeHistoryAtTurn (turn historyCap outputTokens : Q) : Q :=
  if Qle_bool turn 1 then 0
  else
    let tpe := computeTokensPerExchange outputTokens in
    Math_min ((turn - 1) * inject_Z tpe) historyCap.

Definition getEffectiveInstTokens (instTokens reqsPerStudent outputTokens : Q)
    (conversational : bool) : Q :=
  if negb conversational then instTokens
  else computeAvgHistoryTokens instTokens reqsPerStudent outputTokens.

(** ** Progressive submission model *)

Definition getEffectiveSubTokens (subTokens reqsPerStudent : Q)
    (progressiveSubmission : bool) : Q :=
  if negb progressiveSubmission || Qle_bool reqsPerStudent 1 then subTokens
  else subTokens / 2.

(* ------------------------------------------------------------------ *)
(** ** Summarization simulation *)

(** [for (let t = 1; t <= reqsPerStudent; t++) body]: the counter takes
    the values [1 .. floor reqsPerStudent] (see [turn_in_range]), so the
    body runs [turnCount reqsPerStudent] times. *)
Definition turnCount (reqsPerStudent : Q) : nat := Z.to_nat (Qfloor reqsPerStudent).

Fixpoint forTurns {St : Type} (n : nat) (t : Z) (body : Z -> St -> St) (s : St) : St :=
  match n with
  | O => s
  | S n' => forTurns n' (t + 1)%Z body (body t s)
  end.

(** The loop variables of [simulateSummarization]. *)
Record SimState : Type := {
  sim_history : Q;
  sim_total : Q;
  sim_historyPerTurn : list Q;
  sim_summarizationTurns : list Z;
}.

Definition simBody (reqsPerStudent historyCap : Q) (tpe : Z) (summarySize : Q)
    (t : Z) (s : SimState) : SimState :=
  let historyPerTurn' := sim_historyPerTurn s ++ [sim_history s] in
  let total' := sim_total s + sim_history s in
  let history' := sim_history s + inject_Z tpe in
  if Qle_bool historyCap history' && Qlt_bool (inject_Z t) reqsPerStudent
  then {| sim_history := summarySize;
          sim_total := total';
          sim_historyPerTurn := historyPerTurn';
          sim_summarizationTurns := sim_summarizationTurns s ++ [t] |}
  else {| sim_history := history';
          sim_total := total';
          sim_historyPerTurn := historyPerTurn';
          sim_summarizationTurns := sim_summarizationTurns s |}.

Definition simulateSummarization (reqsPerStudent historyCap outputTokens summarySize : Q)
    : SummarizationSim :=
  let tpe := computeTokensPerExchange outputTokens in
  if (tpe <=? 0)%Z || Qle_bool reqsPerStudent 0 || Qle_bool historyCap 0
  then {| historyPerTurn := [];
          summarizationTurns := [];
          totalHistoryTokensSent := 0;
          avgHistoryPerTurn := 0;
          numSummarizations := 0;
          turnsPerCycle := 0 |}
  else
    let s := forTurns (turnCount reqsPerStudent) 1
               (simBody reqsPerStudent historyCap tpe summarySize)
               {| sim_history := 0; sim_total := 0;
                  sim_historyPerTurn := []; sim_summarizationTurns := [] |} in
    let turnsPerCycle :=
      if (0 <? tpe)%Z then Math_ceil ((historyCap - summarySize) / inject_Z tpe)
      else 0%Z in
    {| historyPerTurn := sim_historyPerTurn s;
       summarizationTurns := sim_summarizationTurns s;
       totalHistoryTokensSent := sim_total s;
       avgHistoryPerTurn :=
         if Qlt_bool 0 reqsPerStudent then sim_total s / reqsPerStudent else 0;
       numSummarizations := Z.of_nat (length (sim_summarizationTurns s));
       turnsPerCycle := turnsPerCycle |}.

Definition computeSummarizationCost (model : BedrockModel)
    (students reqsPerStudent sysTokens ctxTokens subTokens instTokens
       outputTokens summarySize tierMultiplier : Q)
    (cacheTTL : CacheTTL) (windowCostTotal : Q) : SummarizationCostResult :=
  let p := pricing model in
  let pInput := input_1k p * tierMultiplier in
  let pOutput := output_1k p * tierMultiplier in
  let pRead := nullish (cache_read_1k p) 0 * tierMultiplier in
  let pWrite := getCacheWritePrice model cacheTTL * tierMultiplier in
  let sim := simulateSummarization reqsPerStudent instTokens outputTokens summarySize in
  let cachedPrefix := sysTokens + ctxTokens in
  let totalReqs := students * reqsPerStudent in
  let cacheWrite := (cachedPrefix / 1000) * pWrite in
  let cacheRead := (totalReqs - 1) * (cachedPrefix / 1000) * pRead in
  let freshInput := students * (totalHistoryTokensSent sim / 1000) * pInput
                    + totalReqs * (subTokens / 1000) * pInput in
  let output := totalReqs * (outputTokens / 1000) * pOutput in
  let mainCallCost := cacheWrite + cacheRead + freshInput + output in
  let perSumInput := (sysTokens + instTokens) / 1000 * pInput in
  let perSumOutput := (summarySize / 1000) * pOutput in
  let summarizationCallCost :=
    students * inject_Z (numSummarizations sim) * (perSumInput + perSumOutput) in
  let totalCost := mainCallCost + summarizationCallCost in
  let vsWindowSavings := windowCostTotal - totalCost in
  let vsWindowSavingsPct :=
    if Qlt_bool 0 windowCostTotal then (vsWindowSavings / windowCostTotal) * 100 else 0 in
  let denominator := summarySize * (pInput - pRead) in
  let breakEvenK :=
    if Qlt_bool 0 denominator
    then Fin ((cachedPrefix + summarySize) * (pWrite - pRead) / denominator)
    else Infinity in
  let summaryCachingViable := ge_xnum (inject_Z (turnsPerCycle sim)) breakEvenK in
  let summaryCachingSavings :=
    if (0 <? numSummarizations sim)%Z && (0 <? turnsPerCycle sim)%Z
    then
      let K := inject_Z (turnsPerCycle sim) in
      let perCycleFresh :=
        K * (cachedPrefix / 1000) * pRead + K * (summarySize / 1000) * pInput in
      let perCycleCached :=
        ((cachedPrefix + summarySize) / 1000) * pWrite
        + (K - 1) * ((cachedPrefix + summarySize) / 1000) * pRead in
      students * inject_Z (numSummarizations sim) * (perCycleFresh - perCycleCached)
    else 0 in
  {| mainCallCost := mainCallCost;
     summarizationCallCost := summarizationCallCost;
     totalCost := totalCost;
     r_numSummarizations := numSummarizations sim;
     r_avgHistoryPerTurn := avgHistoryPerTurn sim;
     vsWindowSavings := vsWindowSavings;
     vsWindowSavingsPct := vsWindowSavingsPct;
     r_turnsPerCycle := turnsPerCycle sim;
     breakEvenK := breakEvenK;
     summaryCachingViable := summaryCachingViable;
     summaryCachingSavings := summaryCachingSavings |}.

(* ------------------------------------------------------------------ *)
(** ** Summarization strategy compute functions *)

Definition computeSumNoCaching (model : BedrockModel)
    (students reqsPerStudent sysTokens ctxTokens subTokens instTokens
       outputTokens summarySize tierMultiplier : Q) : SumStrategyBreakdown :=
  let p := pricing model in
  let pInput := input_1k p * tierMultiplier in
  let pOutput := output_1k p * tierMultiplier in
  let sim := simulateSummarization reqsPerStudent instTokens outputTokens summarySize in
  let totalReqs := students * reqsPerStudent in
  let fixedPerReq := sysTokens + ctxTokens + subTokens in
  let freshInput := totalReqs * (fixedPerReq / 1000) * pInput
                    + students * (totalHistoryTokensSent sim / 1000) * pInput in
  let output := totalReqs * (outputTokens / 1000) * pOutput in
  let perSumInput := (sysTokens + instTokens) / 1000 * pInput in
  let perSumOutput := (summarySize / 1000) * pOutput in
  let summarizationCalls :=
    students * inject_Z (numSummarizations sim) * (perSumInput + perSumOutput) in
  {| breakdown :=
       {| cacheWrite := 0;
          cacheRead := 0;
          freshInput := freshInput;
          output := output;
          guardrails := 0;
          total := freshInput + output + summarizationCalls |};
     summarizationCalls := summarizationCalls |}.

Definition computeSumCacheAssessment (model : BedrockModel)
    (students reqsPerStudent sysTokens ctxTokens subTokens instTokens
       outputTokens summarySize tierMultiplier : Q)
    (cacheTTL : CacheTTL) : SumStrategyBreakdown :=
  let p := pricing model in
  let pInput := input_1k p * tierMultiplier in
  let pOutput := output_1k p * tierMultiplier in
  let pWrite := getCacheWritePrice model cacheTTL * tierMultiplier in
  let pRead := nullish (cache_read_1k p) 0 * tierMultiplier in
  let sim := simulateSummarization reqsPerStudent instTokens outputTokens summarySize in
  let cachedPrefix := sysTokens + ctxTokens in
  let totalReqs := students * reqsPerStudent in
  let cacheWrite := (cachedPrefix / 1000) * pWrite in
  let cacheRead := (totalReqs - 1) * (cachedPrefix / 1000) * pRead in
  let freshInput := students * (totalHistoryTokensSent sim / 1000) * pInput
                    + totalReqs * (subTokens / 1000) * pInput in
  let output := totalReqs * (outputTokens / 1000) * pOutput in
  let perSumInput := (sysTokens + instTokens) / 1000 * pInput in
  let perSumOutput := (summarySize / 1000) * pOutput in
  let summarizationCalls :=
    students * inject_Z (numSummarizations sim) * (perSumInput + perSumOutput) in
  {| breakdown :=
       {| cacheWrite := cacheWrite;
          cacheRead := cacheRead;
          freshInput := freshInput;
          output := output;
          guardrails := 0;
          total := cacheWrite + cacheRead + freshInput + output + summarizationCalls |};
     summarizationCalls := summarizationCalls |}.

(** The loop variables of the second pass of [computeSumCacheSummary]. *)
Record PassState : Type := {
  perStudentCacheWrite : Q;
  perStudentCacheRead : Q;
  perStudentFreshInput : Q;
  hasSummary : bool;
}.

(** [sumTurns.has(x)] for the [Set] built from [sim.summarizationTurns]. *)
Definition Set_has (sumTurns : list Z) (x : Z) : bool :=
  existsb (Z.eqb x) sumTurns.

Definition passBody (sim : SummarizationSim)
    (assessmentPrefix fullPrefix subTokens summarySize pInput pWrite pRead : Q)
    (t : Z) (s : PassState) : PassState :=
  let history := nullish (historyPerTurn sim !! Z.to_nat (t - 1)) 0 in
  let sumTurns := summarizationTurns sim in
  let hasSummary' :=
    if (1 <? t)%Z && Set_has sumTurns (t - 1) then true else hasSummary s in
  let prefix := if hasSummary' then fullPrefix else assessmentPrefix in
  let isWrite := (t =? 1)%Z || (hasSummary' && Set_has sumTurns (t - 1)) in
  let freshHistory :=
    if hasSummary' then Math_max 0 (history - summarySize) else history in
  {| perStudentCacheWrite :=
       if isWrite then perStudentCacheWrite s + (prefix / 1000) * pWrite
       else perStudentCacheWrite s;
     perStudentCacheRead :=
       if isWrite then perStudentCacheRead s
       else perStudentCacheRead s + (prefix / 1000) * pRead;
     perStudentFreshInput :=
       perStudentFreshInput s + ((subTokens + freshHistory) / 1000) * pInput;
     hasSummary := hasSummary' |}.

Definition computeSumCacheSummary (model : BedrockModel)
    (students reqsPerStudent sysTokens ctxTokens subTokens instTokens
       outputTokens summarySize tierMultiplier : Q)
    (cacheTTL : CacheTTL) : SumStrategyBreakdown :=
  let p := pricing model in
  let pInput := input_1k p * tierMultiplier in
  let pOutput := output_1k p * tierMultiplier in
  let pWrite := getCacheWritePrice model cacheTTL * tierMultiplier in
  let pRead := nullish (cache_read_1k p) 0 * tierMultiplier in
  let sim := simulateSummarization reqsPerStudent instTokens outputTokens summarySize in
  let assessmentPrefix := sysTokens + ctxTokens in
  let fullPrefix := assessmentPrefix + summarySize in
  let totalReqs := students * reqsPerStudent in
  let s := forTurns (turnCount reqsPerStudent) 1
             (passBody sim assessmentPrefix fullPrefix subTokens summarySize
                pInput pWrite pRead)
             {| perStudentCacheWrite := 0; perStudentCacheRead := 0;
                perStudentFreshInput := 0; hasSummary := false |} in
  let sharedPrefixWriteCorrection :=
    if Qlt_bool 1 students then (students - 1) * (assessmentPrefix / 1000) * pWrite
    else 0 in
  let sharedPrefixReadCorrection :=
    if Qlt_bool 1 students then (students - 1) * (assessmentPrefix / 1000) * pRead
    else 0 in
  let cacheWrite := students * perStudentCacheWrite s - sharedPrefixWriteCorrection in
  let cacheRead := students * perStudentCacheRead s + sharedPrefixReadCorrection in
  let freshInput := students * perStudentFreshInput s in
  let output := totalReqs * (outputTokens / 1000) * pOutput in
  let perSumInput := (sysTokens + instTokens) / 1000 * pInput in
  let perSumOutput := (summarySize / 1000) * pOutput in
  let summarizationCalls :=
    students * inject_Z (numSummarizations sim) * (perSumInput + perSumOutput) in
  {| breakdown :=
       {| cacheWrite := cacheWrite;
          cacheRead := cacheRead;
          freshInput := freshInput;
          output := output;
          guardrails := 0;
          total := cacheWrite + cacheRead + freshInput + output + summarizationCalls |};
     summarizationCalls := summarizationCalls |}.

Definition computeGuardrailsCost
    (totalRequests studentInputTokensPerRequest outputTokensPerRequest : Q) : Q :=
  let evaluatedChars :=
    (studentInputTokensPerRequest + outputTokensPerRequest) * CHARS_PER_TOKEN in
  let textUnits := evaluatedChars / 1000 in
  totalRequests * (textUnits / 1000) * GUARDRAILS_COST_PER_1K_UNITS.

(* ------------------------------------------------------------------ *)
(** ** The parameter sweep of [workload-simulator.tsx] *)

Definition SENSITIVITY_SAMPLE_POINTS (k : SensitivityParamKey) : list Q :=
  match k with
  | K_students => [5; 10; 15; 20; 30; 50; 75; 100; 150; 200]
  | K_reqsPerStudent => [1; 5; 10; 20; 50; 75; 100; 150; 200]
  | K_sysTokens => [100; 500; 1000; 2000; 5000; 10000]
  | K_ctxTokens => [500; 1000; 2000; 5000; 10000; 25000; 50000; 100000]
  | K_subTokens => [100; 500; 1000; 2000; 5000; 10000; 20000]
  | K_instTokens => [50; 200; 500; 1000; 2000; 5000; 10000]
  | K_outputTokens => [100; 500; 1000; 2000; 5000; 10000]
  end.

Definition STRATEGY_TIEBREAK : gmap string Z :=
  list_to_map
    [ ("Per-Assignment Cache", 0%Z); ("Chat Sum. — Cache in Prefix", 0%Z);
      ("Per-Submission Cache", 1%Z); ("Chat Sum. — Cache Prefix", 1%Z);
      ("Batch Inference", 2%Z);
      ("No Caching", 3%Z); ("Chat Sum. — No Cache", 3%Z) ].

(** [CHART_COLORS], the entries the sweep uses. *)
Definition CHART_COLORS_noCaching : string := "#f97316".
Definition CHART_COLORS_cachePrefix : string := "#3b82f6".
Definition CHART_COLORS_cacheSubmission : string := "#10b981".
Definition CHART_COLORS_batch : string := "#a855f7".

Definition colorMap : gmap string string :=
  list_to_map
    [ ("No Caching", CHART_COLORS_noCaching);
      ("Per-Assignment Cache", CHART_COLORS_cachePrefix);
      ("Per-Submission Cache", CHART_COLORS_cacheSubmission);
      ("Batch Inference", CHART_COLORS_batch);
      ("Chat Sum. — No Cache", CHART_COLORS_noCaching);
      ("Chat Sum. — Cache Prefix", CHART_COLORS_cachePrefix);
      ("Chat Sum. — Cache in Prefix", CHART_COLORS_batch) ].

(** [Array.prototype.sort(cmp)]: the sort is stable, so for a comparator
    that is a consistent ordering the result is the one of this stable
    insertion sort.  [cmp a b <= 0] keeps [a] before [b]. *)
Fixpoint insertBy {A : Type} (cmp : A -> A -> Q) (x : A) (l : list A) : list A :=
  match l with
  | [] => [x]
  | y :: l' => if Qle_bool (cmp x y) 0 then x :: l else y :: insertBy cmp x l'
  end.

Definition Array_sort {A : Type} (cmp : A -> A -> Q) (l : list A) : list A :=
  foldr (insertBy cmp) [] l.

(** [(a, b) => a - b]. *)
Definition numCompare (a b : Q) : Q := a - b.

(** [(a, b) => a[1] - b[1] || (STRATEGY_TIEBREAK[a[0]] ?? 99) - (STRATEGY_TIEBREAK[b[0]] ?? 99)]. *)
Definition costCompare (a b : string * Q) : Q :=
  let d := a.2 - b.2 in
  if Qeq_bool d 0
  then inject_Z (default 99%Z (STRATEGY_TIEBREAK !! a.1)
                 - default 99%Z (STRATEGY_TIEBREAK !! b.1))
  else d.

(** One element of [rawData].  The cost keys of the JavaScript object
    ("No Caching", "Per-Assignment Cache", ...) are the keys of [costs];
    the [label] string is display text and is left out. *)
Record Point : Type := {
  value : Q;
  isCurrent : bool;
  costs : gmap string Q;
  winner : string;
  winnerColor : string;
}.

(** [rawData[k].winner = w; rawData[k].winnerColor = c]. *)
Definition setWinner (w c : string) (p : Point) : Point :=
  {| value := value p; isCurrent := isCurrent p; costs := costs p;
     winner := w; winnerColor := c |}.

(** The state and derived values the [useMemo] of [paramSensitivityData]
    depends on; [current] holds the seven live workload parameters. *)
Record SimulatorState : Type := {
  supportsCaching : bool;
  sensitivityParam : SensitivityParamKey;
  selectedModel : BedrockModel;
  current : TemplatePreset;
  tierMultiplier : Q;
  effectiveCacheTTL : CacheTTL;
  guardrailsEnabled : bool;
  submissionCacheable : bool;
  batchIncluded : bool;
  isConversational : bool;
  isProgressiveSubmission : bool;
  displayMode : DisplayMode;
  summarizationEnabled : bool;
  summarySize : Q;
}.

(** [{ students, ..., outputTokens }[sensitivityParam]]. *)
Definition getParam (k : SensitivityParamKey) (a : TemplatePreset) : Q :=
  match k with
  | K_students => students a
  | K_reqsPerStudent => reqsPerStudent a
  | K_sysTokens => sysTokens a
  | K_ctxTokens => ctxTokens a
  | K_subTokens => subTokens a
  | K_instTokens => instTokens a
  | K_outputTokens => outputTokens a
  end.

(** [{ students, ..., outputTokens, [sensitivityParam]: val }]. *)
Definition setParam (k : SensitivityParamKey) (val : Q) (a : TemplatePreset)
    : TemplatePreset :=
  {| students := match k with K_students => val | _ => students a end;
     reqsPerStudent := match k with K_reqsPerStudent => val | _ => reqsPerStudent a end;
     sysTokens := match k with K_sysTokens => val | _ => sysTokens a end;
     ctxTokens := match k with K_ctxTokens => val | _ => ctxTokens a end;
     subTokens := match k with K_subTokens => val | _ => subTokens a end;
     instTokens := match k with K_instTokens => val | _ => instTokens a end;
     outputTokens := match k with K_outputTokens => val | _ => outputTokens a end |}.

Definition is_strategy_comparison (d : DisplayMode) : bool :=
  match d with strategy_comparison => true | caching_insights => false end.

(** The first loop of the sample grid: 40 rounded equidistant points
    between the first and the last entry of [SENSITIVITY_SAMPLE_POINTS]. *)
Definition baseSamplePoints (k : SensitivityParamKey) : list Q :=
  let range := SENSITIVITY_SAMPLE_POINTS k in
  let min := hd 0 range in
  let max := List.last range 0 in
  let numPoints := 40%nat in
  let step := (max - min) / (inject_Z (Z.of_nat numPoints) - 1) in
  map (fun i : nat => inject_Z (Math_round (min + step * inject_Z (Z.of_nat i))))
      (seq 0 numPoints).

(** The sample grid: the base points, plus the current value if it is not
    one of them, kept sorted. *)
Definition samplePoints (c : SimulatorState) : list Q :=
  let samplePoints := baseSamplePoints (sensitivityParam c) in
  let currentValue := getParam (sensitivityParam c) (current c) in
  if negb (existsb (Qeq_bool currentValue) samplePoints)
  then Array_sort numCompare (samplePoints ++ [currentValue])
  else samplePoints.

(** The keys that are compared in the given mode. *)
Definition costKeys (isSumMode : bool) : list string :=
  if isSumMode
  then ["Chat Sum. — No Cache"; "Chat Sum. — Cache Prefix"; "Chat Sum. — Cache in Prefix"]
  else ["No Caching"; "Per-Assignment Cache"].

(** [keys.filter(k => point[k] != null).map(k => [k, point[k]])]. *)
Definition entriesOf (keys : list string) (point : gmap string Q) : list (string * Q) :=
  omap (fun k => (fun v => (k, v)) <$> point !! k) keys.

(** The end of the [map] callback: the cheapest strategy of a point whose
    cost fields are [point], with the fixed tie-break. *)
Definition finishPoint (val : Q) (cur : bool) (isSumMode : bool)
    (point : gmap string Q) : Point :=
  let costs0 := entriesOf (costKeys isSumMode) point in
  let costs1 := costs0 ++ entriesOf ["Per-Submission Cache"] point in
  let costs2 := costs1 ++ entriesOf ["Batch Inference"] point in
  let sorted := Array_sort costCompare costs2 in
  let w := match sorted with e :: _ => e.1 | [] => "" end in
  {| value := val;
     isCurrent := cur;
     costs := point;
     winner := w;
     winnerColor := default "#999" (colorMap !! w) |}.

(** The first lines of the callback of [samplePoints.map]: the workload
    with the swept parameter replaced, the effective token counts and the
    guardrails cost [gr] of the point. *)
Definition sweepArgs (c : SimulatorState) (val : Q) : TemplatePreset :=
  setParam (sensitivityParam c) val (current c).

Definition sweepEffInst (c : SimulatorState) (val : Q) : Q :=
  let args := sweepArgs c val in
  getEffectiveInstTokens (instTokens args) (reqsPerStudent args)
    (outputTokens args) (isConversational c).

Definition sweepEffSub (c : SimulatorState) (val : Q) : Q :=
  let args := sweepArgs c val in
  getEffectiveSubTokens (subTokens args) (reqsPerStudent args)
    (isProgressiveSubmission c).

Definition sweepGr (c : SimulatorState) (val : Q) : Q :=
  let args := sweepArgs c val in
  let adjustedTotalReqs := students args * reqsPerStudent args in
  if guardrailsEnabled c
  then computeGuardrailsCost adjustedTotalReqs (sweepEffSub c val) (outputTokens args)
  else 0.

(** The callback of [samplePoints.map]. *)
Definition sweepPoint (c : SimulatorState) (val : Q) : Point :=
  let currentValue := getParam (sensitivityParam c) (current c) in
  let args := sweepArgs c val in
  let model := selectedModel c in
  let effInst := sweepEffInst c val in
  let effSub := sweepEffSub c val in
  let gr := sweepGr c val in
  let noCaching := computeNoCaching model (students args) (reqsPerStudent args)
                     (sysTokens args) (ctxTokens args) effSub effInst
                     (outputTokens args) (tierMultiplier c) in
  let stratA := computeStrategyA model (students args) (reqsPerStudent args)
                  (sysTokens args) (ctxTokens args) effSub effInst
                  (outputTokens args) (tierMultiplier c) (effectiveCacheTTL c) in
  let isSumMode := summarizationEnabled c && isConversational c in
  let point1 : gmap string Q :=
    if isSumMode then
      let sumNone := computeSumNoCaching model (students args) (reqsPerStudent args)
                       (sysTokens args) (ctxTokens args) effSub (instTokens args)
                       (outputTokens args) (summarySize c) (tierMultiplier c) in
      let sumPrefix := computeSumCacheAssessment model (students args)
                         (reqsPerStudent args) (sysTokens args) (ctxTokens args)
                         effSub (instTokens args) (outputTokens args)
                         (summarySize c) (tierMultiplier c) (effectiveCacheTTL c) in
      let sumFull := computeSumCacheSummary model (students args)
                       (reqsPerStudent args) (sysTokens args) (ctxTokens args)
                       effSub (instTokens args) (outputTokens args)
                       (summarySize c) (tierMultiplier c) (effectiveCacheTTL c) in
      <["Chat Sum. — Cache in Prefix" := total (breakdown sumFull) + gr]>
        (<["Chat Sum. — Cache Prefix" := total (breakdown sumPrefix) + gr]>
           (<["Chat Sum. — No Cache" := total (breakdown sumNone) + gr]> ∅))
    else
      <["Per-Assignment Cache" := total stratA + gr]>
        (<["No Caching" := total noCaching + gr]> ∅) in
  let point2 : gmap string Q :=
    if is_strategy_comparison (displayMode c) then
      let stratB := computeStrategyB model (students args) (reqsPerStudent args)
                      (sysTokens args) (ctxTokens args) effSub effInst
                      (outputTokens args) (tierMultiplier c)
                      (submissionCacheable c) (effectiveCacheTTL c) in
      let point1' := <["Per-Submission Cache" := total stratB + gr]> point1 in
      if batchIncluded c then
        let batch := computeBatch model (students args) (reqsPerStudent args)
                       (sysTokens args) (ctxTokens args) effSub effInst
                       (outputTokens args) (tierMultiplier c) in
        <["Batch Inference" := total batch + gr]> point1'
      else point1'
    else point1 in
  finishPoint val (Qeq_bool val currentValue) isSumMode point2.

(** *** The stabilization pass *)

(** [[...stabKeys]] followed by the two optional keys the point has. *)
Definition allKeysOf (stabKeys : list string) (pt : Point) : list string :=
  stabKeys
  ++ (match costs pt !! "Per-Submission Cache" with
      | Some _ => ["Per-Submission Cache"] | None => [] end)
  ++ (match costs pt !! "Batch Inference" with
      | Some _ => ["Batch Inference"] | None => [] end).

(** [allKeys.filter(k => p[k] != null).map(k => p[k]).sort((a, b) => a - b)]. *)
Definition sortedCosts (allKeys : list string) (p : Point) : list Q :=
  Array_sort numCompare (omap (fun k => costs p !! k) allKeys).

(** [sorted.length >= 2 ? sorted[1] - sorted[0] : Infinity]. *)
Definition gapOf (sorted : list Q) : xnum :=
  match sorted with
  | a :: b :: _ => Fin (b - a)
  | _ => Infinity
  end.

Definition TIE_EPSILON : Q := 5 # 1000.

(** The test of the outer loop, [gap < 0.005]. *)
Definition nearTie (allKeys : list string) (p : Point) : bool :=
  xnum_lt (gapOf (sortedCosts allKeys p)) TIE_EPSILON.

(** The test that leaves the inner loop,
    [s2.length < 2 || s2[1] - s2[0] >= 0.005]. *)
Definition tieEnds (allKeys : list string) (p2 : Point) : bool :=
  match sortedCosts allKeys p2 with
  | a :: b :: _ => Qle_bool TIE_EPSILON (b - a)
  | _ => true
  end.

(** The inner [while (rj < rawData.length)]: [rest] is [rawData] from index
    [rj] on; the result is the value of [rj] when the loop is left. *)
Fixpoint scanTie (allKeys : list string) (rest : list Point) (rj : nat) : nat :=
  match rest with
  | [] => rj
  | p2 :: rest' => if tieEnds allKeys p2 then rj else scanTie allKeys rest' (S rj)
  end.

(** One round of [for (let k = ri; k < rj; k++)]: [resolved] is a reference
    to the element at index [res] of the array that is being updated, so
    its fields are read from the current array. *)
Definition assignWinner (res : nat) (rawData : list Point) (k : nat) : list Point :=
  match rawData !! res with
  | Some resolved =>
      alter (setWinner (winner resolved) (winnerColor resolved)) k rawData
  | None => rawData
  end.

(** The outer [while (ri < rawData.length)].  Every round increases [ri],
    so [length rawData - ri] rounds are enough ([stabLoop_fuel]). *)
Fixpoint stabLoop (fuel : nat) (stabKeys : list string) (ri : nat)
    (rawData : list Point) : list Point :=
  match fuel with
  | O => rawData
  | S fuel' =>
      match rawData !! ri with
      | None => rawData
      | Some pt =>
          let allKeys := allKeysOf stabKeys pt in
          if nearTie allKeys pt then
            let rj := scanTie allKeys (drop (S ri) rawData) (S ri) in
            let res := if (rj <? length rawData)%nat then rj
                       else (length rawData - 1)%nat in
            let rawData' := foldl (assignWinner res) rawData (seq ri (rj - ri)) in
            stabLoop fuel' stabKeys rj rawData'
          else stabLoop fuel' stabKeys (S ri) rawData
      end
  end.

Definition stabilize (stabKeys : list string) (rawData : list Point) : list Point :=
  stabLoop (length rawData) stabKeys 0 rawData.

Definition rawDataOf (c : SimulatorState) : list Point :=
  map (sweepPoint c) (samplePoints c).

Definition paramSensitivityData (c : SimulatorState) : list Point :=
  if negb (supportsCaching c) then []
  else
    let stabKeys := costKeys (summarizationEnabled c && isConversational c) in
    stabilize stabKeys (rawDataOf c).

(** *** The [results] computation *)

(** [b.guardrails = g; b.total += g]. *)
Definition withGuardrails (g : Q) (b : CostBreakdown) : CostBreakdown :=
  {| cacheWrite := cacheWrite b; cacheRead := cacheRead b;
     freshInput := freshInput b; output := output b;
     guardrails := g; total := total b + g |}.

Record Results : Type := {
  res_noCaching : CostBreakdown;
  res_strategyA : option CostBreakdown;
  res_strategyB : option CostBreakdown;
  res_batch : option CostBreakdown;
}.

(** [guardrailsCost] of [results]. *)
Definition resultsGuardrailsCost (c : SimulatorState) : Q :=
  let a := current c in
  let totalRequests := students a * reqsPerStudent a in
  let effectiveSubTokens := getEffectiveSubTokens (subTokens a) (reqsPerStudent a)
                              (isProgressiveSubmission c) in
  if guardrailsEnabled c
  then computeGuardrailsCost totalRequests effectiveSubTokens (outputTokens a)
  else 0.

Definition results (c : SimulatorState) : Results :=
  let a := current c in
  let model := selectedModel c in
  let effectiveInstTokens := getEffectiveInstTokens (instTokens a) (reqsPerStudent a)
                               (outputTokens a) (isConversational c) in
  let effectiveSubTokens := getEffectiveSubTokens (subTokens a) (reqsPerStudent a)
                              (isProgressiveSubmission c) in
  let guardrailsCost := resultsGuardrailsCost c in
  let noCaching :=
    withGuardrails guardrailsCost
      (computeNoCaching model (students a) (reqsPerStudent a) (sysTokens a)
         (ctxTokens a) effectiveSubTokens effectiveInstTokens (outputTokens a)
         (tierMultiplier c)) in
  let batch :=
    if batchIncluded c
    then Some (withGuardrails guardrailsCost
                 (computeBatch model (students a) (reqsPerStudent a) (sysTokens a)
                    (ctxTokens a) effectiveSubTokens effectiveInstTokens
                    (outputTokens a) (tierMultiplier c)))
    else None in
  if negb (supportsCaching c)
  then {| res_noCaching := noCaching; res_strategyA := None;
          res_strategyB := None; res_batch := batch |}
  else
    let strategyA :=
      withGuardrails guardrailsCost
        (computeStrategyA model (students a) (reqsPerStudent a) (sysTokens a)
           (ctxTokens a) effectiveSubTokens effectiveInstTokens (outputTokens a)
           (tierMultiplier c) (effectiveCacheTTL c)) in
    let strategyB :=
      withGuardrails guardrailsCost
        (computeStrategyB model (students a) (reqsPerStudent a) (sysTokens a)
           (ctxTokens a) effectiveSubTokens effectiveInstTokens (outputTokens a)
           (tierMultiplier c) (submissionCacheable c) (effectiveCacheTTL c)) in
    {| res_noCaching := noCaching; res_strategyA := Some strategyA;
       res_strategyB := Some strategyB; res_batch := batch |}.

(* ------------------------------------------------------------------ *)
(** ** Vocabulary of the statements *)

(** The sum of the five cost components of a breakdown. *)
Definition componentSum (b : CostBreakdown) : Q :=
  cacheWrite b + cacheRead b + freshInput b + output b + guardrails b.

(** A model with Anthropic-like prices (per 1000 tokens). *)
Definition sonnetLike : BedrockModel :=
  {| pricing :=
       {| input_1k := 3 # 1000;
          output_1k := 15 # 1000;
          cache_write_1k := Some (375 # 100000);
          cache_write_1hour_1k := Some (6 # 1000);
          cache_read_1k := Some (3 # 10000);
          batch_input_1k := None;
          batch_output_1k := None |} |}.

(** [b <= a] for a possibly infinite threshold [b]. *)
Definition xnum_le (b : xnum) (a : Q) : Prop :=
  match b with
  | Fin q => q <= a
  | Infinity => False
  end.

(** The breakdowns the sweep computes at one grid point. *)
Definition sweepBreakdowns (c : SimulatorState) (val : Q) : list CostBreakdown :=
  let args := sweepArgs c val in
  let model := selectedModel c in
  let effInst := sweepEffInst c val in
  let effSub := sweepEffSub c val in
  [ computeNoCaching model (students args) (reqsPerStudent args) (sysTokens args)
      (ctxTokens args) effSub effInst (outputTokens args) (tierMultiplier c);
    computeStrategyA model (students args) (reqsPerStudent args) (sysTokens args)
      (ctxTokens args) effSub effInst (outputTokens args) (tierMultiplier c)
      (effectiveCacheTTL c);
    computeStrategyB model (students args) (reqsPerStudent args) (sysTokens args)
      (ctxTokens args) effSub effInst (outputTokens args) (tierMultiplier c)
      (submissionCacheable c) (effectiveCacheTTL c);
    computeBatch model (students args) (reqsPerStudent args) (sysTokens args)
      (ctxTokens args) effSub effInst (outputTokens args) (tierMultiplier c);
    breakdown
      (computeSumNoCaching model (students args) (reqsPerStudent args)
         (sysTokens args) (ctxTokens args) effSub (instTokens args)
         (outputTokens args) (summarySize c) (tierMultiplier c));
    breakdown
      (computeSumCacheAssessment model (students args) (reqsPerStudent args)
         (sysTokens args) (ctxTokens args) effSub (instTokens args)
         (outputTokens args) (summarySize c) (tierMultiplier c)
         (effectiveCacheTTL c));
    breakdown
      (computeSumCacheSummary model (students args) (reqsPerStudent args)
         (sysTokens args) (ctxTokens args) effSub (instTokens args)
         (outputTokens args) (summarySize c) (tierMultiplier c)
         (effectiveCacheTTL c)) ].

(** A live workload with guardrails switched on. *)
Definition guardedState : SimulatorState :=
  {| supportsCaching := true;
     sensitivityParam := K_ctxTokens;
     selectedModel := sonnetLike;
     current := {| students := 30; reqsPerStudent := 5; sysTokens := 1000;
                   ctxTokens := 15000; subTokens := 2000; instTokens := 500;
                   outputTokens := 1000 |};
     tierMultiplier := 1;
     effectiveCacheTTL := TTL_5min;
     guardrailsEnabled := true;
     submissionCacheable := true;
     batchIncluded := false;
     isConversational := false;
     isProgressiveSubmission := false;
     displayMode := strategy_comparison;
     summarizationEnabled := false;
     summarySize := 500 |}.


(** A price that is present is not negative. *)
Definition optNonneg (o : option Q) : Prop :=
  forall v : Q, o = Some v -> 0 <= v.

(** Every price of the model is non-negative. *)
Definition validPrices (model : BedrockModel) : Prop :=
  let p := pricing model in
  0 <= input_1k p /\ 0 <= output_1k p
  /\ optNonneg (cache_write_1k p) /\ optNonneg (cache_write_1hour_1k p)
  /\ optNonneg (cache_read_1k p)
  /\ optNonneg (batch_input_1k p) /\ optNonneg (batch_output_1k p).

(** Every field of a breakdown is non-negative. *)
Definition nonnegBreakdown (b : CostBreakdown) : Prop :=
  0 <= cacheWrite b /\ 0 <= cacheRead b /\ 0 <= freshInput b
  /\ 0 <= output b /\ 0 <= guardrails b /\ 0 <= total b.

(** Cache amortization as the specification words it: beyond some number
    of requests ([students] and [turns] positive integers) Strategy A is
    strictly cheaper than No-Caching. *)
Definition eventuallyCheaper (model : BedrockModel)
    (sys ctx sub inst out tier : Q) (ttl : CacheTTL) : Prop :=
  exists threshold : Q,
    forall st rq : positive,
      threshold < inject_Z (Z.pos st) * inject_Z (Z.pos rq) ->
      total (computeStrategyA model (inject_Z (Z.pos st)) (inject_Z (Z.pos rq))
               sys ctx sub inst out tier ttl)
      < total (computeNoCaching model (inject_Z (Z.pos st)) (inject_Z (Z.pos rq))
                 sys ctx sub inst out tier).

(** *** Vocabulary of the stabilization pass *)

(** Whether the point has the cost key [k]. *)
Definition hasKey (k : string) (p : Point) : bool :=
  match costs p !! k with Some _ => true | None => false end.

(** The presence of the two optional cost keys of a point. *)
Definition optionalKeys (p : Point) : bool * bool :=
  (hasKey "Per-Submission Cache" p, hasKey "Batch Inference" p).

(** All points of a sweep carry the same optional cost keys. *)
Definition uniformKeys (rawData : list Point) : Prop :=
  forall p q : Point, p ∈ rawData -> q ∈ rawData -> optionalKeys p = optionalKeys q.

(** The gap between the two cheapest strategies of the point is below
    the epsilon. *)
Definition tiePoint (stabKeys : list string) (p : Point) : bool :=
  nearTie (allKeysOf stabKeys p) p.

Definition tieAt (stabKeys : list string) (rawData : list Point) (k : nat) : bool :=
  match rawData !! k with
  | Some p => tiePoint stabKeys p
  | None => false
  end.

(** The points [i .. j - 1] are near-ties and the run ends at [j]: either
    [j] is the first point after the run, or the run reaches the end of the
    grid. *)
Definition tieRun (stabKeys : list string) (rawData : list Point) (i j : nat) : Prop :=
  (i < j <= length rawData)%nat
  /\ (forall m : nat, (i <= m < j)%nat -> tieAt stabKeys rawData m = true)
  /\ ((j < length rawData)%nat -> tieAt stabKeys rawData j = false).

(** The index of the point that resolves a run ending at [j]. *)
Definition resolvedIndex (rawData : list Point) (j : nat) : nat :=
  if (j <? length rawData)%nat then j else (length rawData - 1)%nat.

(** Everything of a point but its winner. *)
Definition frame (p : Point) : Q * bool * gmap string Q :=
  (value p, isCurrent p, costs p).

(** The three grid points of the stabilization example, with the costs
    [a_i] of "No Caching" and [b_i] of "Per-Assignment Cache". *)
Definition twoCosts (val a b : Q) : Point :=
  finishPoint val false false
    (<["Per-Assignment Cache" := b]> (<["No Caching" := a]> ∅)).

Definition examplePoints : list Point :=
  [twoCosts 1 (10001 # 1000) (9999 # 1000); twoCosts 2 10 10; twoCosts 3 12 8].

Definition examplePointsSwapped : list Point :=
  [twoCosts 1 (9999 # 1000) (10001 # 1000); twoCosts 2 10 10; twoCosts 3 8 12].

(** The element at index [res] has winner [w] and color [c]. *)
Definition resolvedIs (w c : string) (res : nat) (d : list Point) : Prop :=
  exists r : Point, d !! res = Some r /\ winner r = w /\ winnerColor r = c.

(** What the pass has to achieve at index [k]: a point that is not a
    near-tie is left alone, and a point of a run of near-ties ending at [j]
    gets the winner and color of the point that resolves the run. *)
Definition settledAt (stabKeys : list string) (rawData out : list Point) (k : nat)
    : Prop :=
  (tieAt stabKeys rawData k = false -> out !! k = rawData !! k)
  /\ (forall j : nat,
         tieRun stabKeys rawData k j ->
         exists p r : Point,
           rawData !! k = Some p
           /\ rawData !! resolvedIndex rawData j = Some r
           /\ out !! k = Some (setWinner (winner r) (winnerColor r) p)).

(** A boolean test that neighbours increase strictly. *)
Fixpoint increasingB (l : list Q) : bool :=
  match l with
  | a :: (b :: _) as t => Qlt_bool a b && increasingB t
  | _ => true
  end.

(** A live workload on a model that does not support caching. *)
Definition uncachedState : SimulatorState :=
  {| supportsCaching := false;
     sensitivityParam := K_ctxTokens;
     selectedModel := sonnetLike;
     current := {| students := 30; reqsPerStudent := 5; sysTokens := 1000;
                   ctxTokens := 15000; subTokens := 2000; instTokens := 500;
                   outputTokens := 1000 |};
     tierMultiplier := 1;
     effectiveCacheTTL := TTL_5min;
     guardrailsEnabled := false;
     submissionCacheable := true;
     batchIncluded := false;
     isConversational := false;
     isProgressiveSubmission := false;
     displayMode := strategy_comparison;
     summarizationEnabled := false;
     summarySize := 500 |}.

(** The parameter values of a sweep contain the live value [cur]. *)
Definition containsValue (vals : list Q) (cur : Q) : Prop :=
  exists v : Q, In v vals /\ v == cur.

(* ================================================================== *)
(** * Further code of the engine and of the simulator component *)

(** [computeSubTokensAtTurn] of [simulator-engine.ts]. *)
Definition computeSubTokensAtTurn (turn reqsPerStudent subTokens : Q)
    (progressiveSubmission : bool) : Q :=
  if negb progressiveSubmission || Qle_bool reqsPerStudent 1 then subTokens
  else if Qle_bool turn 1 then 0
  else inject_Z (Math_round (((turn - 1) / (reqsPerStudent - 1)) * subTokens)).

(** The history sent over the turns [1 .. n] of the graduated model. *)
Fixpoint sumHistoryUpTo (n : nat) (historyCap outputTokens : Q) : Q :=
  match n with
  | O => 0
  | S k => sumHistoryUpTo k historyCap outputTokens
           + computeHistoryAtTurn (inject_Z (Z.of_nat (S k))) historyCap outputTokens
  end.

(** Two workloads, the first at most the second in every parameter, none
    negative. *)
Definition presetLe (a b : TemplatePreset) : Prop :=
  0 <= students a <= students b
  /\ 0 <= reqsPerStudent a <= reqsPerStudent b
  /\ 0 <= sysTokens a <= sysTokens b
  /\ 0 <= ctxTokens a <= ctxTokens b
  /\ 0 <= subTokens a <= subTokens b
  /\ 0 <= instTokens a <= instTokens b
  /\ 0 <= outputTokens a <= outputTokens b.

(** [computeNoCaching] on the parameters of a workload. *)
Definition noCachingOf (model : BedrockModel) (a : TemplatePreset) (tier : Q)
    : CostBreakdown :=
  computeNoCaching model (students a) (reqsPerStudent a) (sysTokens a)
    (ctxTokens a) (subTokens a) (instTokens a) (outputTokens a) tier.

(** The scenario workload of the specification. *)
Definition scenario : TemplatePreset :=
  {| students := 30; reqsPerStudent := 5; sysTokens := 1000; ctxTokens := 15000;
     subTokens := 2000; instTokens := 500; outputTokens := 1000 |}.

(** A model with batch prices at half the standard ones and no 1-hour
    cache price. *)
Definition novaLike : BedrockModel :=
  {| pricing :=
       {| input_1k := 8 # 10000;
          output_1k := 32 # 10000;
          cache_write_1k := Some (8 # 10000);
          cache_write_1hour_1k := None;
          cache_read_1k := Some (2 # 10000);
          batch_input_1k := Some (4 # 10000);
          batch_output_1k := Some (16 # 10000) |} |}.

(** The sum of a list of numbers. *)
Definition sumQ (l : list Q) : Q := foldr Qplus 0 l.

(** The history a turn leaves for the next one, when a further turn
    follows: the summary after a summarization, else one exchange more. *)
Definition nextHistory (historyCap : Q) (tpe : Z) (summarySize : Q) (h : Q) : Q :=
  if Qle_bool historyCap (h + inject_Z tpe) then summarySize else h + inject_Z tpe.

(** What the loop of [simulateSummarization] has established before turn
    [t]: one recorded history per past turn, each obtained from the one
    before by [nextHistory]; the recorded events are exactly the past
    turns, not the last one of the conversation, at which the history
    reached the cap; and [total] is the sum of the recorded histories. *)
Definition traceInv (reqs historyCap : Q) (tpe : Z) (summarySize : Q)
    (t : Z) (hpt : list Q) (events : list Z) (total : Q) : Prop :=
  length hpt = Z.to_nat (t - 1)
  /\ (forall (i : nat) (h h' : Q),
         hpt !! i = Some h -> hpt !! S i = Some h' ->
         h' = nextHistory historyCap tpe summarySize h)
  /\ (forall x : Z,
         x ∈ events
         <-> (1 <= x < t)%Z /\ inject_Z x < reqs
             /\ exists h : Q,
                  hpt !! Z.to_nat (x - 1) = Some h
                  /\ historyCap <= h + inject_Z tpe)
  /\ StronglySorted Z.lt events
  /\ total == sumQ hpt.

(** [STRATEGY_TIEBREAK[k] ?? 99]. *)
Definition tiebreakOf (k : string) : Z := default 99%Z (STRATEGY_TIEBREAK !! k).

(** The keys whose costs the [map] callback compares. *)
Definition comparedKeys (isSumMode : bool) : list string :=
  costKeys isSumMode ++ ["Per-Submission Cache"; "Batch Inference"].

(** *** The crossover labels and the zoomed slice of the sweep *)

(** [paramCrossoverLabels]: the loop
    [for (let i = 0; i < data.length - 1; i++)] over the indices, pushing
    [data[i + 1].value] where the winner changes. *)
Definition paramCrossoverLabels (data : list Point) : list Q :=
  foldl (fun crossovers i =>
           match data !! i, data !! S i with
           | Some p, Some q =>
               if negb (String.eqb (winner p) (winner q))
               then crossovers ++ [value q] else crossovers
           | _, _ => crossovers
           end)
        [] (seq 0 (length data - 1)).

(** The first loop of [visibleParamData]: the first index, counted from
    [i], whose value is at least [zMin]. *)
Fixpoint findStart (zMin : Q) (rest : list Point) (i : nat) : option nat :=
  match rest with
  | [] => None
  | p :: rest' =>
      if Qle_bool zMin (value p) then Some i else findStart zMin rest' (S i)
  end.

(** The second loop, [for (let i = n - 1; i >= 0; i--)]: the last index
    below [n] whose value is at most [zMax]. *)
Fixpoint findEnd (zMax : Q) (data : list Point) (n : nat) : option nat :=
  match n with
  | O => None
  | S i =>
      match data !! i with
      | Some p => if Qle_bool (value p) zMax then Some i else findEnd zMax data i
      | None => findEnd zMax data i
      end
  end.

Definition startIdx (zMin : Q) (data : list Point) : nat :=
  match findStart zMin data 0 with
  | Some i => Nat.max 0 (i - 1)
  | None => 0%nat
  end.

Definition endIdx (zMax : Q) (data : list Point) : nat :=
  match findEnd zMax data (length data) with
  | Some i => Nat.min (length data - 1) (i + 1)
  | None => (length data - 1)%nat
  end.

(** [Array.prototype.slice(a, b)] for [0 <= a] and [0 <= b]. *)
Definition Array_slice {A : Type} (a b : nat) (l : list A) : list A :=
  take (b - a) (drop a l).

Definition visibleParamData (paramChartZoomDomain : option (Q * Q))
    (data : list Point) : list Point :=
  match paramChartZoomDomain with
  | None => data
  | Some (zMin, zMax) =>
      if (length data <? 2)%nat then data
      else Array_slice (startIdx zMin data) (endIdx zMax data + 1) data
  end.

(** *** Words and tokens *)

Definition TOKENS_PER_WORD : Q := 4 / 3.
Definition WORDS_PER_TOKEN : Q := 3 / 4.

(** The word counts the form shows for the token counts of the state. *)
Definition aiResponseWords (outputTokens : Q) : Z :=
  Math_round (outputTokens * WORDS_PER_TOKEN).
Definition chatHistoryWords (instTokens : Q) : Z :=
  Math_round (instTokens * WORDS_PER_TOKEN).
Definition studentTextWordsOnly (subTokens : Q) : Z :=
  Math_round (subTokens * WORDS_PER_TOKEN).

(** The handlers of the word inputs: the value each passes to its setter
    ([setOutputTokens], [setInstTokens], [setSubTokens]). *)
Definition handleAiResponseWordsChange (words : Q) : Q :=
  Math_max 100 (inject_Z (Math_round (words * TOKENS_PER_WORD))).
Definition handleChatHistoryWordsChange (words : Q) : Q :=
  Math_max 50 (inject_Z (Math_round (words * TOKENS_PER_WORD))).
Definition handleStudentTextWordsOnlyChange (words : Q) : Q :=
  Math_max 5 (inject_Z (Math_round (words * TOKENS_PER_WORD))).

(** *** The headline winner *)

Inductive WinnerKey : Type := WK_noCaching | WK_A | WK_B | WK_batch.

Definition winnerLabels (k : WinnerKey) : string :=
  match k with
  | WK_noCaching => "No Caching"
  | WK_A => "Per-Assignment Cache"
  | WK_B => "Per-Submission Cache"
  | WK_batch => "Batch Inference"
  end.

Record WinnerSavings : Type := {
  amount : Q;
  percentage : Q;
  vsLabel : string;
}.

(** The [candidates] array before it is sorted. *)
Definition winnerCandidates (r : Results) : list (WinnerKey * Q) :=
  [(WK_noCaching, total (res_noCaching r))]
  ++ (match res_strategyA r with Some b => [(WK_A, total b)] | None => [] end)
  ++ (match res_strategyB r with Some b => [(WK_B, total b)] | None => [] end)
  ++ (match res_batch r with Some b => [(WK_batch, total b)] | None => [] end).

(** [(a, b) => a.total - b.total]. *)
Definition totalCompare (a b : WinnerKey * Q) : Q := a.2 - b.2.

(** The memo that yields [winner] and [winnerSavings]. *)
Definition winnerAndSavings (r : Results) : option WinnerKey * option WinnerSavings :=
  let candidates := winnerCandidates r in
  if (length candidates <=? 1)%nat then (None, None)
  else
    let sorted := Array_sort totalCompare candidates in
    match head sorted, last sorted with
    | Some best, Some worst =>
        let diff := worst.2 - best.2 in
        let pct := if Qlt_bool 0 worst.2 then diff / worst.2 * 100 else 0 in
        (Some best.1,
         Some {| amount := diff; percentage := pct; vsLabel := winnerLabels worst.1 |})
    | _, _ => (None, None)
    end.

(** *** The search for the optimal chat history size *)

(** [q < x] for a possibly infinite [x]. *)
Definition lt_xnum (q : Q) (x : xnum) : bool :=
  match x with
  | Fin b => Qlt_bool q b
  | Infinity => true
  end.

(** A number that may be [-Infinity]. *)
Inductive lnum : Type :=
| LFin (q : Q)
| NegInfinity.

Record OptimalChatHistory : Type := {
  optimalTokens : Q;
  optimalTotal : xnum;
  currentTotal : Q;
  savings : lnum;
  savingsPct : lnum;
}.

(** [computeSumCacheSummary(..., candidate, ...).total + guardrailsCost]. *)
Definition optimalCost (c : SimulatorState) (candidate : Q) : Q :=
  let a := current c in
  let effectiveSubTokens := getEffectiveSubTokens (subTokens a) (reqsPerStudent a)
                              (isProgressiveSubmission c) in
  total (breakdown
           (computeSumCacheSummary (selectedModel c) (students a) (reqsPerStudent a)
              (sysTokens a) (ctxTokens a) effectiveSubTokens candidate
              (outputTokens a) (summarySize c) (tierMultiplier c)
              (effectiveCacheTTL c)))
  + resultsGuardrailsCost c.

(** [for (let candidate = minCandidate; candidate <= 10000; candidate += 50)]
    with the state [(bestTokens, bestTotal)]; [fuel] bounds the number of
    rounds. *)
Fixpoint searchLoop (fuel : nat) (cost : Q -> Q) (candidate bestTokens : Q)
    (bestTotal : xnum) : Q * xnum :=
  match fuel with
  | O => (bestTokens, bestTotal)
  | S fuel' =>
      if Qle_bool candidate 10000 then
        let total := cost candidate in
        if lt_xnum total bestTotal
        then searchLoop fuel' cost (candidate + 50) candidate (Fin total)
        else searchLoop fuel' cost (candidate + 50) bestTokens bestTotal
      else (bestTokens, bestTotal)
  end.

(** More rounds than the loop can make from [minCandidate]. *)
Definition searchFuel (minCandidate : Q) : nat :=
  Z.to_nat (Qfloor ((10000 - minCandidate) / 50) + 2).

Definition optimalChatHistory (c : SimulatorState) : option OptimalChatHistory :=
  if negb (isConversational c) || negb (summarizationEnabled c)
     || negb (supportsCaching c)
  then None
  else
    let minCandidate := summarySize c + 100 in
    let best := searchLoop (searchFuel minCandidate) (optimalCost c) minCandidate
                  (instTokens (current c)) Infinity in
    let currentTotal := optimalCost c (instTokens (current c)) in
    let savings := match best.2 with
                   | Fin b => LFin (currentTotal - b)
                   | Infinity => NegInfinity
                   end in
    let savingsPct := if Qlt_bool 0 currentTotal
                      then match savings with
                           | LFin s => LFin (s / currentTotal * 100)
                           | NegInfinity => NegInfinity
                           end
                      else LFin 0 in
    Some {| optimalTokens := best.1; optimalTotal := best.2;
            currentTotal := currentTotal; savings := savings;
            savingsPct := savingsPct |}.

(** The candidate of round [k] of the search that starts at [minCandidate]. *)
Fixpoint candidateAt (minCandidate : Q) (k : nat) : Q :=
  match k with
  | O => minCandidate
  | S k' => candidateAt (minCandidate + 50) k'
  end.

(** A conversational workload with chat summarization: 30 students, 12
    turns, a history cap of 2000 tokens and summaries of 500. *)
Definition chatState : SimulatorState :=
  {| supportsCaching := true;
     sensitivityParam := K_instTokens;
     selectedModel := sonnetLike;
     current := {| students := 30; reqsPerStudent := 12; sysTokens := 1000;
                   ctxTokens := 1000; subTokens := 2000; instTokens := 2000;
                   outputTokens := 400 |};
     tierMultiplier := 1;
     effectiveCacheTTL := TTL_5min;
     guardrailsEnabled := true;
     submissionCacheable := false;
     batchIncluded := false;
     isConversational := true;
     isProgressiveSubmission := false;
     displayMode := caching_insights;
     summarizationEnabled := true;
     summarySize := 500 |}.

(** *** The three summarization variants of the headline *)

Record SumStrategies : Type := {
  sum_noCaching : SumStrategyBreakdown;
  sum_cacheAssessment : option SumStrategyBreakdown;
  sum_cacheSummary : option SumStrategyBreakdown;
}.

(** [r.guardrails = g; r.total += g] on a summarization breakdown. *)
Definition withGuardrailsSum (g : Q) (r : SumStrategyBreakdown) : SumStrategyBreakdown :=
  {| breakdown := withGuardrails g (breakdown r);
     summarizationCalls := summarizationCalls r |}.

Definition sumStrategies (c : SimulatorState) : option SumStrategies :=
  if negb (isConversational c) || negb (summarizationEnabled c) then None
  else
    let a := current c in
    let model := selectedModel c in
    let effectiveSubTokens := getEffectiveSubTokens (subTokens a) (reqsPerStudent a)
                                (isProgressiveSubmission c) in
    let guardrailsCost := resultsGuardrailsCost c in
    let noCaching :=
      withGuardrailsSum guardrailsCost
        (computeSumNoCaching model (students a) (reqsPerStudent a) (sysTokens a)
           (ctxTokens a) effectiveSubTokens (instTokens a) (outputTokens a)
           (summarySize c) (tierMultiplier c)) in
    let cacheAssessment :=
      if supportsCaching c
      then Some (withGuardrailsSum guardrailsCost
                   (computeSumCacheAssessment model (students a) (reqsPerStudent a)
                      (sysTokens a) (ctxTokens a) effectiveSubTokens (instTokens a)
                      (outputTokens a) (summarySize c) (tierMultiplier c)
                      (effectiveCacheTTL c)))
      else None in
    let cacheSummary :=
      if supportsCaching c
      then Some (withGuardrailsSum guardrailsCost
                   (computeSumCacheSummary model (students a) (reqsPerStudent a)
                      (sysTokens a) (ctxTokens a) effectiveSubTokens (instTokens a)
                      (outputTokens a) (summarySize c) (tierMultiplier c)
                      (effectiveCacheTTL c)))
      else None in
    Some {| sum_noCaching := noCaching;
            sum_cacheAssessment := cacheAssessment;
            sum_cacheSummary := cacheSummary |}.

(** *** The per-turn chart of conversational templates *)

(** A point of [perTurnData]; the keys a point may lack are options.
    ([label] is the decimal rendering of [turn] and is not kept.) *)
Record TurnPoint : Type := {
  pt_turn : Z;
  pt_withoutCaching : Q;
  pt_withCaching : option Q;
  pt_historyTokens : Q;
  pt_sumHistoryTokens : option Q;
  pt_sumNoCache : option Q;
  pt_sumCachePrefix : option Q;
  pt_sumCacheInPrefix : option Q;
}.

(** The callback of [Array.from] at index [i]; [hasSummaryCIP] is the flag
    the callback shares between its calls, returned with the point. *)
Definition perTurnPoint (c : SimulatorState) (sumSim : option SummarizationSim)
    (i : nat) (hasSummaryCIP : bool) : TurnPoint * bool :=
  let a := current c in
  let p := pricing (selectedModel c) in
  let pInput := input_1k p * tierMultiplier c in
  let pOutput := output_1k p * tierMultiplier c in
  let pRead := nullish (cache_read_1k p) 0 * tierMultiplier c in
  let pWrite := getCacheWritePrice (selectedModel c) (effectiveCacheTTL c)
                * tierMultiplier c in
  let cachedPrefix := sysTokens a + ctxTokens a in
  let turn := (Z.of_nat i + 1)%Z in
  let turnSub := computeSubTokensAtTurn (inject_Z turn) (reqsPerStudent a)
                   (subTokens a) (isProgressiveSubmission c) in
  let history := computeHistoryAtTurn (inject_Z turn) (instTokens a) (outputTokens a) in
  let freshTokens := turnSub + history in
  let allInput := cachedPrefix + freshTokens in
  let prefixPrice := if supportsCaching c && (turn =? 1)%Z then pWrite else pRead in
  let noCachingCost := (allInput / 1000) * pInput + (outputTokens a / 1000) * pOutput in
  let withCachingCost :=
    if supportsCaching c
    then (cachedPrefix / 1000) * prefixPrice + (freshTokens / 1000) * pInput
         + (outputTokens a / 1000) * pOutput
    else noCachingCost in
  let sumHistoryOf (sim : SummarizationSim) := nullish (historyPerTurn sim !! i) 0 in
  let hasSummaryCIP' :=
    match sumSim with
    | Some sim =>
        if supportsCaching c && ((1 <? turn)%Z && Set_has (summarizationTurns sim) (turn - 1))
        then true else hasSummaryCIP
    | None => hasSummaryCIP
    end in
  ({| pt_turn := turn;
      pt_withoutCaching := noCachingCost;
      pt_withCaching := if supportsCaching c then Some withCachingCost else None;
      pt_historyTokens := history;
      pt_sumHistoryTokens :=
        match sumSim with Some sim => Some (sumHistoryOf sim) | None => None end;
      pt_sumNoCache :=
        match sumSim with
        | Some sim =>
            let sumFresh := turnSub + sumHistoryOf sim in
            Some (((cachedPrefix + sumFresh) / 1000) * pInput
                  + (outputTokens a / 1000) * pOutput)
        | None => None
        end;
      pt_sumCachePrefix :=
        match sumSim with
        | Some sim =>
            if supportsCaching c then
              let sumFresh := turnSub + sumHistoryOf sim in
              let cachePrefixPrice := if (turn =? 1)%Z then pWrite else pRead in
              Some ((cachedPrefix / 1000) * cachePrefixPrice + (sumFresh / 1000) * pInput
                    + (outputTokens a / 1000) * pOutput)
            else None
        | None => None
        end;
      pt_sumCacheInPrefix :=
        match sumSim with
        | Some sim =>
            if supportsCaching c then
              let sumHistory := sumHistoryOf sim in
              let fullPrefix := cachedPrefix + summarySize c in
              let freshHistoryForCacheSummary :=
                if hasSummaryCIP' then Math_max 0 (sumHistory - summarySize c)
                else sumHistory in
              let cacheSumFresh := turnSub + freshHistoryForCacheSummary in
              let cacheSumPrefix := if hasSummaryCIP' then fullPrefix else cachedPrefix in
              let cacheSumPrefixPrice :=
                if (turn =? 1)%Z
                   || (hasSummaryCIP' && Set_has (summarizationTurns sim) (turn - 1))
                then pWrite else pRead in
              Some ((cacheSumPrefix / 1000) * cacheSumPrefixPrice
                    + (cacheSumFresh / 1000) * pInput
                    + (outputTokens a / 1000) * pOutput)
            else None
        | None => None
        end |},
   hasSummaryCIP').

(** [Array.from({ length: n }, callback)] for the indices [0 .. n - 1], with
    the points collected so far and the shared flag. *)
Definition perTurnLoop (c : SimulatorState) (sumSim : option SummarizationSim)
    (n : nat) : list TurnPoint * bool :=
  foldl (fun st i =>
           let r := perTurnPoint c sumSim i st.2 in
           (st.1 ++ [r.1], r.2))
        ([], false) (seq 0 n).

Definition perTurnData (c : SimulatorState) : list TurnPoint :=
  let a := current c in
  if negb (isConversational c) || Qlt_bool (reqsPerStudent a) 2 then []
  else
    let sumSim :=
      if summarizationEnabled c
      then Some (simulateSummarization (reqsPerStudent a) (instTokens a)
                   (outputTokens a) (summarySize c))
      else None in
    (perTurnLoop c sumSim (turnCount (reqsPerStudent a))).1.

(** *** The per-turn overlay of chat summarization *)

Record SumTurnPoint : Type := {
  sp_turn : Z;
  sp_cost : Q;
  sp_historyTokens : Q;
  sp_isSummarizationTurn : bool;
}.

(** [Array.prototype.includes] on numbers. *)
Definition Array_includes (l : list Z) (x : Z) : bool := existsb (Z.eqb x) l.

Definition summarizationPerTurnData (c : SimulatorState) : list SumTurnPoint :=
  let a := current c in
  if negb (isConversational c) || negb (summarizationEnabled c)
     || Qlt_bool (reqsPerStudent a) 2
  then []
  else
    let sim := simulateSummarization (reqsPerStudent a) (instTokens a)
                 (outputTokens a) (summarySize c) in
    let p := pricing (selectedModel c) in
    let pInput := input_1k p * tierMultiplier c in
    let pOutput := output_1k p * tierMultiplier c in
    let pRead := nullish (cache_read_1k p) 0 * tierMultiplier c in
    let cachedPrefix := sysTokens a + ctxTokens a in
    imap (fun i history =>
            let turnSub := computeSubTokensAtTurn (inject_Z (Z.of_nat i + 1))
                             (reqsPerStudent a) (subTokens a)
                             (isProgressiveSubmission c) in
            let freshTokens := turnSub + history in
            let withCachingCost :=
              if supportsCaching c
              then (cachedPrefix / 1000) * pRead + (freshTokens / 1000) * pInput
                   + (outputTokens a / 1000) * pOutput
              else ((cachedPrefix + freshTokens) / 1000) * pInput
                   + (outputTokens a / 1000) * pOutput in
            {| sp_turn := Z.of_nat i + 1;
               sp_cost := withCachingCost;
               sp_historyTokens := history;
               sp_isSummarizationTurn :=
                 Array_includes (summarizationTurns sim) (Z.of_nat i + 1) |})
         (historyPerTurn sim).
(* ================================================================== *)
(** * Properties *)

(** ** Arithmetic helpers *)

Lemma Qle_bool_true (a b : Q) : Qle_bool a b = true <-> a <= b.
Proof. apply Qle_bool_iff. Qed.

Lemma Qle_bool_false (a b : Q) : Qle_bool a b = false <-> b < a.
Proof.
  split; intros H.
  - apply Qnot_le_lt. intros Hle. apply Qle_bool_iff in Hle. congruence.
  - destruct (Qle_bool a b) eqn:E; [|reflexivity].
    apply Qle_bool_iff in E. exfalso. apply (Qlt_not_le _ _ H E).
Qed.

Lemma Qlt_bool_true (a b : Q) : Qlt_bool a b = true <-> a < b.
Proof.
  unfold Qlt_bool. rewrite negb_true_iff. apply Qle_bool_false.
Qed.

Lemma Qlt_bool_false (a b : Q) : Qlt_bool a b = false <-> b <= a.
Proof.
  unfold Qlt_bool. rewrite negb_false_iff. apply Qle_bool_iff.
Qed.

(* ------------------------------------------------------------------ *)
(** ** C1: total and the component sum *)

(** C1, as stated, fails for the summarization variants: with 30 students,
    12 turns, a history cap of 2000 and summaries of 500 tokens,
    [computeSumNoCaching] returns a total that is not the sum of its five
    components (it also contains [summarizationCalls]). *)
Lemma C1_total_not_component_sum :
  ~ (let b := breakdown (computeSumNoCaching sonnetLike 30 12 1000 1000 2000 2000
                           400 500 1) in
     total b == componentSum b).
Proof. vm_compute. discriminate. Qed.

(** C1 (amended): for the four flat strategies [total] is the sum of the
    five components; for the three summarization variants [total] is the
    sum of the five components plus [summarizationCalls]. *)
Theorem C1_total_is_component_sum :
  forall (model : BedrockModel)
         (students reqsPerStudent sysTokens ctxTokens subTokens instTokens
            outputTokens summarySize tier : Q)
         (submissionCacheable : bool) (cacheTTL : CacheTTL),
    (let b := computeNoCaching model students reqsPerStudent sysTokens ctxTokens
                subTokens instTokens outputTokens tier in
     total b == componentSum b)
    /\ (let b := computeStrategyA model students reqsPerStudent sysTokens ctxTokens
                   subTokens instTokens outputTokens tier cacheTTL in
        total b == componentSum b)
    /\ (let b := computeStrategyB model students reqsPerStudent sysTokens ctxTokens
                   subTokens instTokens outputTokens tier submissionCacheable
                   cacheTTL in
        total b == componentSum b)
    /\ (let b := computeBatch model students reqsPerStudent sysTokens ctxTokens
                   subTokens instTokens outputTokens tier in
        total b == componentSum b)
    /\ (let r := computeSumNoCaching model students reqsPerStudent sysTokens
                   ctxTokens subTokens instTokens outputTokens summarySize tier in
        total (breakdown r) == componentSum (breakdown r) + summarizationCalls r)
    /\ (let r := computeSumCacheAssessment model students reqsPerStudent sysTokens
                   ctxTokens subTokens instTokens outputTokens summarySize tier
                   cacheTTL in
        total (breakdown r) == componentSum (breakdown r) + summarizationCalls r)
    /\ (let r := computeSumCacheSummary model students reqsPerStudent sysTokens
                   ctxTokens subTokens instTokens outputTokens summarySize tier
                   cacheTTL in
        total (breakdown r) == componentSum (breakdown r) + summarizationCalls r).
Proof.
  intros. unfold componentSum.
  repeat split; cbv zeta;
    unfold computeNoCaching, computeStrategyA, computeStrategyB, computeBatch,
      computeSumNoCaching, computeSumCacheAssessment, computeSumCacheSummary;
    cbn [total cacheWrite cacheRead freshInput output guardrails breakdown
           summarizationCalls];
    ring.
Qed.

(* ------------------------------------------------------------------ *)
(** ** C9: the worked scenario *)

(** C9: 30 students, 5 turns, 1000 + 15000 cached tokens, 2000 + 500 fresh
    tokens, 1000 output tokens, input price 0.003, output price 0.015,
    cache write 1.25 x input, cache read 0.1 x input, tier multiplier 1:
    Strategy A's [cacheRead] is 149 x 16 x 0.0003 = 0.7152 and No-Caching's
    [freshInput] is 150 x 18.5 x 0.003 = 8.325, whatever the other prices
    and the cache TTL are. *)
Theorem C9_scenario_values :
  forall (write1h batchIn batchOut : option Q) (cacheTTL : CacheTTL),
    let inputPrice := 3 # 1000 in
    let model :=
      {| pricing :=
           {| input_1k := inputPrice;
              output_1k := 15 # 1000;
              cache_write_1k := Some ((125 # 100) * inputPrice);
              cache_write_1hour_1k := write1h;
              cache_read_1k := Some ((1 # 10) * inputPrice);
              batch_input_1k := batchIn;
              batch_output_1k := batchOut |} |} in
    let a := computeStrategyA model 30 5 1000 15000 2000 500 1000 1 cacheTTL in
    let n := computeNoCaching model 30 5 1000 15000 2000 500 1000 1 in
    cacheRead a == 149 * 16 * ((1 # 10) * (3 # 1000))
    /\ cacheRead a == 7152 # 10000
    /\ freshInput n == 150 * (185 # 10) * (3 # 1000)
    /\ freshInput n == 8325 # 1000.
Proof.
  intros. subst a n model inputPrice.
  unfold computeStrategyA, computeNoCaching.
  cbn [cacheRead freshInput pricing input_1k cache_read_1k nullish].
  repeat split; vm_compute; reflexivity.
Qed.

(* ------------------------------------------------------------------ *)
(** ** C4: the graduated history average *)

Lemma Math_min_cases (a b : Q) :
  (a <= b /\ Math_min a b = a) \/ (b < a /\ Math_min a b = b).
Proof.
  unfold Math_min. destruct (Qle_bool a b) eqn:E.
  - left. split; [now apply Qle_bool_true | reflexivity].
  - right. split; [now apply Qle_bool_false | reflexivity].
Qed.

Lemma Math_max_cases (a b : Q) :
  (a <= b /\ Math_max a b = b) \/ (b < a /\ Math_max a b = a).
Proof.
  unfold Math_max. destruct (Qle_bool a b) eqn:E.
  - left. split; [now apply Qle_bool_true | reflexivity].
  - right. split; [now apply Qle_bool_false | reflexivity].
Qed.

Lemma inject_Z_pos (z : Z) : (0 < z)%Z -> 0 < inject_Z z.
Proof. intros H. change 0 with (inject_Z 0). now rewrite <- Zlt_Qlt. Qed.

(** Past the two guards, the function is the ramp-and-cap formula. *)
Lemma computeAvgHistoryTokens_main (cap turns out : Q) :
  0 < cap -> 0 < turns -> (0 < computeTokensPerExchange out)%Z ->
  computeAvgHistoryTokens cap turns out =
    let tpe := computeTokensPerExchange out in
    let rampCount := Math_min (inject_Z (Math_ceil (cap / inject_Z tpe))) turns in
    (inject_Z tpe * rampCount * (rampCount - 1) / 2
     + cap * Math_max 0 (turns - rampCount)) / turns.
Proof.
  intros Hcap Hturns Htpe. unfold computeAvgHistoryTokens.
  apply Qle_bool_false in Hcap. apply Qle_bool_false in Hturns.
  rewrite Hcap, Hturns. cbn [orb].
  destruct (Z.leb_spec (computeTokensPerExchange out) 0); [lia | reflexivity].
Qed.

(** C4, as stated, fails when the exchange size rounds to 0: with
    [outputTokens = 0] a single turn under cap 100 averages to the cap. *)
Lemma C4_single_turn_returns_cap :
  ~ (computeAvgHistoryTokens 100 1 0 == 0).
Proof. vm_compute. discriminate. Qed.

(** C4 (amended): when [tokensPerExchange > 0], a single turn has average
    history 0 for every positive cap, and when the ramp never completes
    ([ceil(cap / tokensPerExchange) >= turns], [turns > 0]) the average is
    [tokensPerExchange * (turns - 1) / 2]; when [tokensPerExchange <= 0]
    the function returns the cap itself. *)
Theorem C4_avg_history :
  forall (cap turns out : Q),
    let tpe := computeTokensPerExchange out in
    ((0 < tpe)%Z -> 0 < cap -> computeAvgHistoryTokens cap 1 out == 0)
    /\ ((0 < tpe)%Z -> 0 < turns ->
        turns <= inject_Z (Math_ceil (cap / inject_Z tpe)) ->
        computeAvgHistoryTokens cap turns out == inject_Z tpe * (turns - 1) / 2)
    /\ ((tpe <= 0)%Z -> 0 < cap -> 0 < turns ->
        computeAvgHistoryTokens cap turns out = cap).
Proof.
  intros cap turns out tpe. split; [|split].
  - intros Htpe Hcap.
    rewrite computeAvgHistoryTokens_main by (auto; reflexivity).
    cbv zeta. fold tpe.
    assert (Hc : 1 <= inject_Z (Math_ceil (cap / inject_Z tpe))).
    { change 1 with (inject_Z 1). rewrite <- Zle_Qle.
      assert (0 < inject_Z (Math_ceil (cap / inject_Z tpe))) as H0.
      { eapply Qlt_le_trans; [|apply Qle_ceiling].
        apply Qlt_shift_div_l; [now apply inject_Z_pos|]. lra. }
      change 0 with (inject_Z 0) in H0. rewrite <- Zlt_Qlt in H0. lia. }
    destruct (Math_min_cases (inject_Z (Math_ceil (cap / inject_Z tpe))) 1)
      as [[Hle ->]|[_ ->]].
    + assert (Heq : inject_Z (Math_ceil (cap / inject_Z tpe)) == 1) by lra.
      destruct (Math_max_cases 0 (1 - inject_Z (Math_ceil (cap / inject_Z tpe))))
        as [[_ ->]|[_ ->]]; rewrite ?Heq; field.
    + destruct (Math_max_cases 0 (1 - 1)) as [[_ ->]|[_ ->]]; field.
  - intros Htpe Hturns Hramp.
    assert (Hcap : 0 < cap).
    { destruct (Qlt_le_dec 0 cap) as [|Hle]; [assumption|exfalso].
      assert (Hd : cap / inject_Z tpe <= 0).
      { apply Qle_shift_div_r; [now apply inject_Z_pos|]. lra. }
      assert (Hz : (Math_ceil (cap / inject_Z tpe) <= 0)%Z).
      { unfold Math_ceil. apply Qceiling_resp_le in Hd.
        change (Qceiling 0) with 0%Z in Hd. exact Hd. }
      rewrite Zle_Qle in Hz. change (inject_Z 0) with 0 in Hz. lra. }
    rewrite computeAvgHistoryTokens_main by auto.
    cbv zeta. fold tpe.
    destruct (Math_min_cases (inject_Z (Math_ceil (cap / inject_Z tpe))) turns)
      as [[Hle ->]|[_ ->]].
    + assert (Heq : inject_Z (Math_ceil (cap / inject_Z tpe)) == turns) by lra.
      destruct (Math_max_cases 0 (turns - inject_Z (Math_ceil (cap / inject_Z tpe))))
        as [[_ ->]|[_ ->]]; rewrite ?Heq; field; lra.
    + destruct (Math_max_cases 0 (turns - turns)) as [[_ ->]|[_ ->]]; field; lra.
  - intros Htpe Hcap Hturns. unfold computeAvgHistoryTokens.
    apply Qle_bool_false in Hcap. apply Qle_bool_false in Hturns.
    rewrite Hcap, Hturns. cbn [orb]. fold tpe.
    destruct (Z.leb_spec tpe 0); [reflexivity | lia].
Qed.

(** C4 at concrete inputs: cap 2000, 400 output tokens (500 per exchange);
    one turn, and three turns of a ramp that needs four. *)
Lemma C4_avg_history_witness :
  computeAvgHistoryTokens 2000 1 400 == 0
  /\ computeAvgHistoryTokens 2000 3 400 == inject_Z 500 * (3 - 1) / 2.
Proof.
  destruct (C4_avg_history 2000 3 400) as (H1 & H2 & _).
  split.
  - apply H1; [vm_compute; reflexivity | reflexivity].
  - apply H2; [vm_compute; reflexivity | reflexivity | vm_compute; discriminate].
Defined.

(* ------------------------------------------------------------------ *)
(** ** C3: the summary-caching break-even threshold *)

Lemma ge_xnum_true (a : Q) (b : xnum) : ge_xnum a b = true <-> xnum_le b a.
Proof.
  destruct b as [q|]; cbn.
  - apply Qle_bool_true.
  - split; [discriminate | tauto].
Qed.

(** C3: [breakEvenK] is [(cachedPrefix + summarySize) * (pWrite - pRead) /
    (summarySize * (pInput - pRead))] with [cachedPrefix = sysTokens + ctxTokens]
    when that denominator is positive and [Infinity] otherwise;
    [summaryCachingViable] holds exactly when [turnsPerCycle >= breakEvenK];
    and for prefix 3000, summary 500, [pWrite = 1.25 pInput],
    [pRead = 0.1 pInput] the threshold is 161/18 (between 8 and 10), so
    caching is viable at 12 turns per cycle and not at 6. *)
Theorem C3_break_even :
  forall (model : BedrockModel)
         (students reqsPerStudent sysTokens ctxTokens subTokens instTokens
            outputTokens summarySize tier : Q)
         (cacheTTL : CacheTTL) (windowCostTotal : Q),
    let r := computeSummarizationCost model students reqsPerStudent sysTokens
               ctxTokens subTokens instTokens outputTokens summarySize tier
               cacheTTL windowCostTotal in
    let pInput := input_1k (pricing model) * tier in
    let pRead := nullish (cache_read_1k (pricing model)) 0 * tier in
    let pWrite := getCacheWritePrice model cacheTTL * tier in
    let cachedPrefix := sysTokens + ctxTokens in
    let denominator := summarySize * (pInput - pRead) in
    (0 < denominator ->
     breakEvenK r = Fin ((cachedPrefix + summarySize) * (pWrite - pRead) / denominator))
    /\ (denominator <= 0 -> breakEvenK r = Infinity)
    /\ (summaryCachingViable r = true
        <-> xnum_le (breakEvenK r) (inject_Z (r_turnsPerCycle r)))
    /\ r_turnsPerCycle r
       = turnsPerCycle (simulateSummarization reqsPerStudent instTokens
                          outputTokens summarySize)
    /\ (cachedPrefix == 3000 -> summarySize == 500 -> 0 < pInput ->
        pWrite == (125 # 100) * pInput -> pRead == (1 # 10) * pInput ->
        exists k : Q,
          breakEvenK r = Fin k /\ k == 161 # 18 /\ 9 - 1 <= k /\ k <= 9 + 1
          /\ (r_turnsPerCycle r = 12%Z -> summaryCachingViable r = true)
          /\ (r_turnsPerCycle r = 6%Z -> summaryCachingViable r = false)).
Proof.
  intros model st rq sy cx sb ins out ss tier ttl win
         r pInput pRead pWrite cachedPrefix denominator.
  subst r.
  unfold computeSummarizationCost.
  cbn [breakEvenK summaryCachingViable r_turnsPerCycle].
  fold pInput pRead pWrite cachedPrefix denominator.
  split; [|split; [|split; [|split]]].
  - intros Hd. apply Qlt_bool_true in Hd. now rewrite Hd.
  - intros Hd. apply Qlt_bool_false in Hd. now rewrite Hd.
  - apply ge_xnum_true.
  - reflexivity.
  - intros Hp Hs Hin Hw Hr.
    assert (Hden : denominator == 450 * pInput).
    { unfold denominator. rewrite Hs, Hr. ring. }
    assert (Hd : 0 < denominator) by (rewrite Hden; lra).
    pose proof Hd as Hb. apply Qlt_bool_true in Hb. rewrite Hb.
    exists ((cachedPrefix + ss) * (pWrite - pRead) / denominator).
    assert (Hk : (cachedPrefix + ss) * (pWrite - pRead) / denominator == 161 # 18).
    { rewrite Hden, Hp, Hs, Hw, Hr. field. lra. }
    split; [reflexivity|]. split; [exact Hk|].
    split; [rewrite Hk; vm_compute; discriminate|].
    split; [rewrite Hk; vm_compute; discriminate|].
    split; intros ->; cbn [ge_xnum].
    + apply Qle_bool_true. rewrite Hk. vm_compute; discriminate.
    + apply Qle_bool_false. rewrite Hk. reflexivity.
Qed.

(** C3 at concrete inputs: prefix 1000 + 2000, summary 500, 5-minute
    prices; a history cap of 6500 gives 12 turns per cycle (viable), a cap
    of 3500 gives 6 (not viable). *)
Lemma C3_break_even_witness :
  summaryCachingViable
    (computeSummarizationCost sonnetLike 30 40 1000 2000 2000 6500 400 500 1
       TTL_5min 0) = true
  /\ summaryCachingViable
       (computeSummarizationCost sonnetLike 30 40 1000 2000 2000 3500 400 500 1
          TTL_5min 0) = false.
Proof.
  split.
  - destruct (C3_break_even sonnetLike 30 40 1000 2000 2000 6500 400 500 1
                TTL_5min 0) as (_ & _ & _ & _ & H).
    destruct H as (k & _ & _ & _ & _ & H12 & _);
      [reflexivity | reflexivity | reflexivity | reflexivity | reflexivity |].
    apply H12. vm_compute. reflexivity.
  - destruct (C3_break_even sonnetLike 30 40 1000 2000 2000 3500 400 500 1
                TTL_5min 0) as (_ & _ & _ & _ & H).
    destruct H as (k & _ & _ & _ & _ & _ & H6);
      [reflexivity | reflexivity | reflexivity | reflexivity | reflexivity |].
    apply H6. vm_compute. reflexivity.
Defined.

(* ------------------------------------------------------------------ *)
(** ** C10: where the guardrails cost goes *)

(** C10, as stated, fails for the [results] computation: with guardrails
    enabled the caller stores the guardrails cost in the [guardrails]
    component of the No-Caching breakdown. *)
Lemma C10_results_fold_guardrails :
  ~ (guardrails (res_noCaching (results guardedState)) == 0).
Proof. vm_compute. discriminate. Qed.

(** C10 (amended): every strategy compute function returns
    [guardrails = 0]; [computeGuardrailsCost n i o] is
    [n * (i + o) * 4 / 1000 / 1000 * 0.15]; every cost of a sweep point is
    the total of such a breakdown plus the guardrails cost of the point;
    and [results] stores the guardrails cost in the [guardrails] component
    of each breakdown it returns and adds it to that breakdown's total. *)
Theorem C10_guardrails_by_caller :
  (forall (model : BedrockModel)
          (students reqsPerStudent sysTokens ctxTokens subTokens instTokens
             outputTokens summarySize tier : Q)
          (submissionCacheable : bool) (cacheTTL : CacheTTL),
      guardrails (computeNoCaching model students reqsPerStudent sysTokens
                    ctxTokens subTokens instTokens outputTokens tier) = 0
      /\ guardrails (computeStrategyA model students reqsPerStudent sysTokens
                       ctxTokens subTokens instTokens outputTokens tier cacheTTL) = 0
      /\ guardrails (computeStrategyB model students reqsPerStudent sysTokens
                       ctxTokens subTokens instTokens outputTokens tier
                       submissionCacheable cacheTTL) = 0
      /\ guardrails (computeBatch model students reqsPerStudent sysTokens
                       ctxTokens subTokens instTokens outputTokens tier) = 0
      /\ guardrails (breakdown (computeSumNoCaching model students reqsPerStudent
                       sysTokens ctxTokens subTokens instTokens outputTokens
                       summarySize tier)) = 0
      /\ guardrails (breakdown (computeSumCacheAssessment model students
                       reqsPerStudent sysTokens ctxTokens subTokens instTokens
                       outputTokens summarySize tier cacheTTL)) = 0
      /\ guardrails (breakdown (computeSumCacheSummary model students
                       reqsPerStudent sysTokens ctxTokens subTokens instTokens
                       outputTokens summarySize tier cacheTTL)) = 0)
  /\ (forall totalRequests inputTokens outTokens : Q,
         computeGuardrailsCost totalRequests inputTokens outTokens
         == totalRequests * (inputTokens + outTokens) * 4 / 1000 / 1000 * (15 # 100))
  /\ (forall (c : SimulatorState) (val : Q) (k : string) (v : Q),
         costs (sweepPoint c val) !! k = Some v ->
         exists b : CostBreakdown,
           In b (sweepBreakdowns c val)
           /\ guardrails b = 0
           /\ v = total b + sweepGr c val)
  /\ (forall (c : SimulatorState) (b : CostBreakdown),
         b = res_noCaching (results c)
         \/ Some b = res_strategyA (results c)
         \/ Some b = res_strategyB (results c)
         \/ Some b = res_batch (results c) ->
         guardrails b = resultsGuardrailsCost c
         /\ exists b0 : CostBreakdown,
              guardrails b0 = 0 /\ total b = total b0 + resultsGuardrailsCost c).
Proof.
  split; [|split; [|split]].
  - intros. repeat split; reflexivity.
  - intros. unfold computeGuardrailsCost, CHARS_PER_TOKEN,
      GUARDRAILS_COST_PER_1K_UNITS. field.
  - intros c val k v. unfold sweepPoint, finishPoint, sweepBreakdowns.
    cbn [costs].
    destruct (summarizationEnabled c && isConversational c);
      destruct (is_strategy_comparison (displayMode c));
      try destruct (batchIncluded c);
      intros H;
      repeat (apply lookup_insert_Some in H;
              destruct H as [[_ <-]|[_ H]];
              [eexists; split; [|split; [|reflexivity]];
               [cbn [In]; tauto | reflexivity] |]);
      rewrite lookup_empty in H; discriminate.
  - intros c b Hb. unfold results in Hb.
    destruct (supportsCaching c); destruct (batchIncluded c);
      cbn [negb res_noCaching res_strategyA res_strategyB res_batch] in Hb;
      destruct Hb as [->|[Hb|[Hb|Hb]]];
      try discriminate; try (injection Hb as ->);
      (split; [reflexivity | eexists; split; [|reflexivity]; reflexivity]).
Qed.

(** C10 at a concrete workload: the sweep point at 15000 context tokens
    stores Strategy A's total plus the guardrails cost, and [results]
    returns a No-Caching breakdown whose [guardrails] is that cost. *)
Lemma C10_guardrails_by_caller_witness :
  (exists b : CostBreakdown,
      In b (sweepBreakdowns guardedState 15000)
      /\ guardrails b = 0
      /\ total (computeStrategyA sonnetLike 30 5 1000 15000 2000 500 1000 1 TTL_5min)
         + sweepGr guardedState 15000
         = total b + sweepGr guardedState 15000)
  /\ guardrails (res_noCaching (results guardedState))
     = resultsGuardrailsCost guardedState.
Proof.
  destruct C10_guardrails_by_caller as (_ & _ & Hsweep & Hres).
  split.
  - apply (Hsweep guardedState 15000 "Per-Assignment Cache"). reflexivity.
  - apply (Hres guardedState). left. reflexivity.
Defined.

(* ------------------------------------------------------------------ *)
(** ** C5: invariants of the summarization trace *)

(** The counter of [for (t = 1; t <= reqsPerStudent; t++)] passes the test
    exactly for the integers up to [floor reqsPerStudent]. *)
Lemma turn_in_range (t : Z) (reqs : Q) :
  inject_Z t <= reqs <-> (t <= Qfloor reqs)%Z.
Proof.
  split; intros H.
  - assert (Hlt : inject_Z t < inject_Z (Qfloor reqs + 1)).
    { eapply Qle_lt_trans; [exact H | apply Qlt_floor]. }
    rewrite <- Zlt_Qlt in Hlt. lia.
  - eapply Qle_trans; [|apply Qfloor_le]. now rewrite <- Zle_Qle.
Qed.

Lemma turnCount_pos (reqs : Q) : 1 <= reqs -> (1 <= Qfloor reqs)%Z.
Proof. intros H. apply turn_in_range. exact H. Qed.

Lemma forTurns_S {St : Type} (n : nat) (t : Z) (body : Z -> St -> St) (s : St) :
  forTurns (S n) t body s = forTurns n (t + 1)%Z body (body t s).
Proof. reflexivity. Qed.

(** Past its guard, [simulateSummarization] is the loop. *)
Lemma simulateSummarization_main (reqs cap out ss : Q) :
  0 < reqs -> 0 < cap -> (0 < computeTokensPerExchange out)%Z ->
  simulateSummarization reqs cap out ss =
    let tpe := computeTokensPerExchange out in
    let s := forTurns (turnCount reqs) 1 (simBody reqs cap tpe ss)
               {| sim_history := 0; sim_total := 0;
                  sim_historyPerTurn := []; sim_summarizationTurns := [] |} in
    {| historyPerTurn := sim_historyPerTurn s;
       summarizationTurns := sim_summarizationTurns s;
       totalHistoryTokensSent := sim_total s;
       avgHistoryPerTurn := sim_total s / reqs;
       numSummarizations := Z.of_nat (length (sim_summarizationTurns s));
       turnsPerCycle := Math_ceil ((cap - ss) / inject_Z tpe) |}.
Proof.
  intros Hreqs Hcap Htpe. unfold simulateSummarization.
  pose proof Hreqs as Hr1. apply Qlt_bool_true in Hr1.
  apply Qle_bool_false in Hreqs. apply Qle_bool_false in Hcap.
  rewrite Hreqs, Hcap, Hr1.
  destruct (Z.leb_spec (computeTokensPerExchange out) 0); [lia|].
  destruct (Z.ltb_spec 0 (computeTokensPerExchange out)); [reflexivity | lia].
Qed.

(** The degenerate result. *)
Lemma simulateSummarization_degenerate (reqs cap out ss : Q) :
  (computeTokensPerExchange out <= 0)%Z \/ reqs <= 0 \/ cap <= 0 ->
  simulateSummarization reqs cap out ss =
    {| historyPerTurn := []; summarizationTurns := [];
       totalHistoryTokensSent := 0; avgHistoryPerTurn := 0;
       numSummarizations := 0; turnsPerCycle := 0 |}.
Proof.
  intros H. unfold simulateSummarization.
  destruct (Z.leb_spec (computeTokensPerExchange out) 0) as [|Ht]; [reflexivity|].
  destruct (Qle_bool reqs 0) eqn:Er; [reflexivity|].
  destruct (Qle_bool cap 0) eqn:Ec; [reflexivity|].
  apply Qle_bool_false in Er, Ec.
  destruct H as [H|[H|H]]; [lia | lra | lra].
Qed.

Section SimLoop.
Variables (reqs cap : Q) (tpe : Z) (ss : Q).

Let body := simBody reqs cap tpe ss.

Lemma simBody_historyPerTurn (t : Z) (s : SimState) :
  sim_historyPerTurn (body t s) = sim_historyPerTurn s ++ [sim_history s].
Proof.
  unfold body, simBody.
  destruct (Qle_bool cap (sim_history s + inject_Z tpe)
            && Qlt_bool (inject_Z t) reqs); reflexivity.
Qed.

Lemma simBody_total (t : Z) (s : SimState) :
  sim_total (body t s) = sim_total s + sim_history s.
Proof.
  unfold body, simBody.
  destruct (Qle_bool cap (sim_history s + inject_Z tpe)
            && Qlt_bool (inject_Z t) reqs); reflexivity.
Qed.

(** The loop only appends to the trace. *)
Lemma simLoop_extends (n : nat) :
  forall (t : Z) (s : SimState),
    exists l, sim_historyPerTurn (forTurns n t body s) = sim_historyPerTurn s ++ l.
Proof.
  induction n as [|n IH]; intros t s.
  - exists []. cbn. now rewrite app_nil_r.
  - rewrite forTurns_S. destruct (IH (t + 1)%Z (body t s)) as [l Hl].
    rewrite Hl, simBody_historyPerTurn, <- app_assoc. eauto.
Qed.

(** One value is recorded per turn. *)
Lemma simLoop_length (n : nat) :
  forall (t : Z) (s : SimState),
    length (sim_historyPerTurn (forTurns n t body s))
    = (length (sim_historyPerTurn s) + n)%nat.
Proof.
  induction n as [|n IH]; intros t s.
  - cbn. lia.
  - rewrite forTurns_S, IH, simBody_historyPerTurn, length_app. cbn. lia.
Qed.

Hypothesis ss_below_cap : ss < cap.

(** While turns remain the running history is below the cap, so every
    recorded value is. *)
Lemma simLoop_below_cap (n : nat) :
  forall (t : Z) (s : SimState),
    (n <> O -> sim_history s < cap) ->
    Forall (fun h => h < cap) (sim_historyPerTurn s) ->
    inject_Z (t + Z.of_nat n - 1) <= reqs ->
    Forall (fun h => h < cap) (sim_historyPerTurn (forTurns n t body s)).
Proof.
  induction n as [|n IH]; intros t s Hh Hall Hlast.
  - exact Hall.
  - rewrite forTurns_S. apply IH.
    + intros Hn. unfold body, simBody.
      assert (Ht : Qlt_bool (inject_Z t) reqs = true).
      { apply Qlt_bool_true. eapply Qlt_le_trans; [|exact Hlast].
        rewrite <- Zlt_Qlt. lia. }
      rewrite Ht, andb_true_r.
      destruct (Qle_bool cap (sim_history s + inject_Z tpe)) eqn:E; cbn.
      * exact ss_below_cap.
      * now apply Qle_bool_false in E.
    + rewrite simBody_historyPerTurn. apply Forall_app. split; [exact Hall|].
      constructor; [|constructor]. apply Hh. discriminate.
    + replace (t + 1 + Z.of_nat n - 1)%Z with (t + Z.of_nat (S n) - 1)%Z by lia.
      exact Hlast.
Qed.
End SimLoop.

(** C5: for [reqsPerStudent >= 1], [historyCap > 0], [tokensPerExchange > 0]
    and [0 <= summarySize < historyCap], the trace starts with 0, every
    recorded history is below [historyCap + tokensPerExchange], and
    [numSummarizations] is the length of [summarizationTurns].  (The lower
    bound on [summarySize] is not needed.) *)
Theorem C5_simulateSummarization_invariants :
  forall (reqs historyCap out summarySz : Q),
    let tpe := computeTokensPerExchange out in
    let sim := simulateSummarization reqs historyCap out summarySz in
    1 <= reqs -> 0 < historyCap -> (0 < tpe)%Z -> summarySz < historyCap ->
    historyPerTurn sim !! 0%nat = Some 0
    /\ Forall (fun h => h < historyCap + inject_Z tpe) (historyPerTurn sim)
    /\ numSummarizations sim = Z.of_nat (length (summarizationTurns sim)).
Proof.
  intros reqs cap out ss tpe sim Hreqs Hcap Htpe Hss.
  subst sim. rewrite simulateSummarization_main by (auto; lra).
  cbv zeta. fold tpe. cbn [historyPerTurn numSummarizations summarizationTurns].
  pose proof (turnCount_pos reqs Hreqs) as Hfl.
  split; [|split].
  - unfold turnCount.
    destruct (Z.to_nat (Qfloor reqs)) as [|n] eqn:En; [lia|].
    rewrite forTurns_S.
    destruct (simLoop_extends reqs cap tpe ss n (1 + 1)%Z
                (simBody reqs cap tpe ss 1
                   {| sim_history := 0; sim_total := 0;
                      sim_historyPerTurn := []; sim_summarizationTurns := [] |}))
      as [l Hl].
    rewrite Hl, simBody_historyPerTurn. reflexivity.
  - eapply Forall_impl.
    + apply simLoop_below_cap.
      * exact Hss.
      * intros _. exact Hcap.
      * constructor.
      * unfold turnCount. rewrite Z2Nat.id by lia.
        replace (1 + Qfloor reqs - 1)%Z with (Qfloor reqs) by lia.
        apply Qfloor_le.
    + intros h Hh. cbn beta in Hh |- *.
      pose proof (inject_Z_pos tpe Htpe). lra.
  - reflexivity.
Qed.

(** C5 at a concrete conversation: 12 turns, cap 2000, 400 output tokens
    (500 per exchange), summaries of 500 tokens. *)
Lemma C5_simulateSummarization_invariants_witness :
  let sim := simulateSummarization 12 2000 400 500 in
  historyPerTurn sim !! 0%nat = Some 0
  /\ Forall (fun h => h < 2000 + inject_Z (computeTokensPerExchange 400))
       (historyPerTurn sim)
  /\ numSummarizations sim = Z.of_nat (length (summarizationTurns sim)).
Proof.
  apply (C5_simulateSummarization_invariants 12 2000 400 500).
  - vm_compute. discriminate.
  - reflexivity.
  - vm_compute. reflexivity.
  - reflexivity.
Defined.

(* ------------------------------------------------------------------ *)
(** ** C7: no negative cost *)

Lemma Qplus_nonneg (a b : Q) : 0 <= a -> 0 <= b -> 0 <= a + b.
Proof. intros. lra. Qed.

Lemma Qdiv_1000_nonneg (a : Q) : 0 <= a -> 0 <= a / 1000.
Proof. intros H. apply Qle_shift_div_l; [reflexivity | lra]. Qed.

Lemma inject_Z_nonneg (z : Z) : (0 <= z)%Z -> 0 <= inject_Z z.
Proof. intros H. change 0 with (inject_Z 0). now rewrite <- Zle_Qle. Qed.

Lemma requests_minus_one (s r : Q) : 1 <= s -> 1 <= r -> 0 <= s * r - 1.
Proof.
  intros Hs Hr.
  assert (H : 0 <= (s - 1) * r) by (apply Qmult_le_0_compat; lra).
  assert (E : s * r - 1 == (s - 1) * r + (r - 1)) by ring.
  rewrite E. lra.
Qed.

Lemma nullish_nonneg (o : option Q) (d : Q) :
  optNonneg o -> 0 <= d -> 0 <= nullish o d.
Proof. intros Ho Hd. destruct o as [v|]; cbn; [now apply Ho | exact Hd]. Qed.

Lemma getCacheWritePrice_nonneg (model : BedrockModel) (cacheTTL : CacheTTL) :
  validPrices model -> 0 <= getCacheWritePrice model cacheTTL.
Proof.
  intros (_ & _ & Hw & Hw1 & _). unfold getCacheWritePrice.
  destruct cacheTTL; [apply nullish_nonneg; [exact Hw | lra]|].
  destruct (cache_write_1hour_1k (pricing model)) as [w|] eqn:E.
  - now apply Hw1.
  - apply nullish_nonneg; [exact Hw | lra].
Qed.

Lemma Math_max_0_nonneg (a : Q) : 0 <= Math_max 0 a.
Proof. destruct (Math_max_cases 0 a) as [[H ->]|[_ ->]]; lra. Qed.

(** Splits a goal [0 <= e] along the sums, products and divisions by 1000
    of [e]. *)
Ltac qnonneg :=
  first
    [ assumption
    | lazymatch goal with
      | |- 0 <= _ * _ - 1 => apply requests_minus_one; assumption
      | |- 0 <= _ * _ => apply Qmult_le_0_compat; qnonneg
      | |- 0 <= _ + _ => apply Qplus_nonneg; qnonneg
      | |- 0 <= _ / 1000 => apply Qdiv_1000_nonneg; qnonneg
      | |- 0 <= Math_max 0 _ => apply Math_max_0_nonneg
      | |- 0 <= nullish _ _ =>
          apply nullish_nonneg; [assumption | first [assumption | lra]]
      | |- 0 <= getCacheWritePrice _ _ => apply getCacheWritePrice_nonneg; assumption
      | |- 0 <= inject_Z _ => apply inject_Z_nonneg; first [assumption | lia]
      | |- _ => lra
      end ].

Section SimNonneg.
Variables (reqs cap : Q) (tpe : Z) (ss : Q).
Hypothesis tpe_pos : (0 < tpe)%Z.
Hypothesis ss_nonneg : 0 <= ss.

(** The running history, the running total and the trace stay
    non-negative. *)
Lemma simLoop_nonneg (n : nat) :
  forall (t : Z) (s : SimState),
    0 <= sim_history s -> 0 <= sim_total s ->
    Forall (Qle 0) (sim_historyPerTurn s) ->
    let s' := forTurns n t (simBody reqs cap tpe ss) s in
    0 <= sim_total s' /\ Forall (Qle 0) (sim_historyPerTurn s').
Proof.
  induction n as [|n IH]; intros t s Hh Ht Hall.
  - cbn. auto.
  - cbv zeta. rewrite forTurns_S. apply IH.
    + pose proof (inject_Z_pos tpe tpe_pos).
      unfold simBody.
      destruct (Qle_bool cap (sim_history s + inject_Z tpe)
                && Qlt_bool (inject_Z t) reqs); cbn; lra.
    + rewrite simBody_total. lra.
    + rewrite simBody_historyPerTurn. apply Forall_app. split; [exact Hall|].
      constructor; [exact Hh | constructor].
Qed.
End SimNonneg.

(** The aggregates of a trace are non-negative for any inputs with
    [summarySize >= 0]. *)
Lemma simulateSummarization_nonneg (reqs cap out ss : Q) :
  0 <= ss ->
  let sim := simulateSummarization reqs cap out ss in
  0 <= totalHistoryTokensSent sim
  /\ (0 <= numSummarizations sim)%Z
  /\ Forall (Qle 0) (historyPerTurn sim).
Proof.
  intros Hss sim. subst sim.
  destruct (Z.ltb_spec 0 (computeTokensPerExchange out)) as [Htpe|Htpe];
    [destruct (Qlt_le_dec 0 reqs) as [Hr|Hr];
     [destruct (Qlt_le_dec 0 cap) as [Hc|Hc]|]|].
  - rewrite simulateSummarization_main by assumption. cbv zeta.
    cbn [totalHistoryTokensSent numSummarizations historyPerTurn].
    assert (H0 : 0 <= 0) by lra.
    destruct (simLoop_nonneg reqs cap (computeTokensPerExchange out) ss Htpe Hss
                (turnCount reqs) 1
                {| sim_history := 0; sim_total := 0;
                   sim_historyPerTurn := []; sim_summarizationTurns := [] |}
                H0 H0 (List.Forall_nil _))
      as [H1 H2].
    split; [exact H1|]. split; [lia | exact H2].
  - rewrite simulateSummarization_degenerate by auto.
    cbn. split; [lra|]. split; [lia | constructor].
  - rewrite simulateSummarization_degenerate by auto.
    cbn. split; [lra|]. split; [lia | constructor].
  - rewrite simulateSummarization_degenerate by auto.
    cbn. split; [lra|]. split; [lia | constructor].
Qed.

Section PassLoop.
Variables (sim : SummarizationSim).
Variables (assessmentPrefix subTok ss pInput pWrite pRead : Q).

Let fullPrefix := assessmentPrefix + ss.
Let body := passBody sim assessmentPrefix fullPrefix subTok ss pInput pWrite pRead.

Hypothesis prefix_nonneg : 0 <= assessmentPrefix.
Hypothesis sub_nonneg : 0 <= subTok.
Hypothesis ss_nonneg : 0 <= ss.
Hypothesis pInput_nonneg : 0 <= pInput.
Hypothesis pWrite_nonneg : 0 <= pWrite.
Hypothesis pRead_nonneg : 0 <= pRead.
Hypothesis trace_nonneg : Forall (Qle 0) (historyPerTurn sim).

Lemma history_lookup_nonneg (i : nat) : 0 <= nullish (historyPerTurn sim !! i) 0.
Proof.
  destruct (historyPerTurn sim !! i) as [h|] eqn:E; cbn; [|lra].
  exact (Forall_lookup_1 _ _ _ _ trace_nonneg E).
Qed.

(** One turn never decreases an accumulator. *)
Lemma passBody_mono (t : Z) (s : PassState) :
  perStudentCacheWrite s <= perStudentCacheWrite (body t s)
  /\ perStudentCacheRead s <= perStudentCacheRead (body t s)
  /\ perStudentFreshInput s <= perStudentFreshInput (body t s).
Proof.
  unfold body, passBody.
  cbn [perStudentCacheWrite perStudentCacheRead perStudentFreshInput].
  pose proof (history_lookup_nonneg (Z.to_nat (t - 1))) as Hh.
  set (hs := if (1 <? t)%Z && Set_has (summarizationTurns sim) (t - 1)
             then true else hasSummary s).
  assert (Hp : 0 <= (if hs then fullPrefix else assessmentPrefix)).
  { destruct hs; subst fullPrefix; lra. }
  assert (Hf : 0 <= (if hs
                     then Math_max 0 (nullish (historyPerTurn sim
                                                 !! Z.to_nat (t - 1)) 0 - ss)
                     else nullish (historyPerTurn sim !! Z.to_nat (t - 1)) 0)).
  { destruct hs; [apply Math_max_0_nonneg | exact Hh]. }
  assert (Hw : 0 <= (if hs then fullPrefix else assessmentPrefix) / 1000 * pWrite)
    by qnonneg.
  assert (Hr : 0 <= (if hs then fullPrefix else assessmentPrefix) / 1000 * pRead)
    by qnonneg.
  assert (Hi : 0 <= (subTok
                     + (if hs
                        then Math_max 0 (nullish (historyPerTurn sim
                                                    !! Z.to_nat (t - 1)) 0 - ss)
                        else nullish (historyPerTurn sim !! Z.to_nat (t - 1)) 0))
                    / 1000 * pInput)
    by qnonneg.
  destruct ((t =? 1)%Z || hs && Set_has (summarizationTurns sim) (t - 1));
    repeat split; lra.
Qed.

Lemma passLoop_mono (n : nat) :
  forall (t : Z) (s : PassState),
    perStudentCacheWrite s <= perStudentCacheWrite (forTurns n t body s)
    /\ perStudentCacheRead s <= perStudentCacheRead (forTurns n t body s)
    /\ perStudentFreshInput s <= perStudentFreshInput (forTurns n t body s).
Proof.
  induction n as [|n IH]; intros t s.
  - cbn. repeat split; lra.
  - rewrite forTurns_S.
    destruct (IH (t + 1)%Z (body t s)) as (H1 & H2 & H3).
    destruct (passBody_mono t s) as (G1 & G2 & G3).
    repeat split; lra.
Qed.

(** The first turn writes the shared prefix once. *)
Lemma passLoop_first_write (n : nat) :
  n <> O ->
  let s := forTurns n 1 body
             {| perStudentCacheWrite := 0; perStudentCacheRead := 0;
                perStudentFreshInput := 0; hasSummary := false |} in
  assessmentPrefix / 1000 * pWrite <= perStudentCacheWrite s.
Proof.
  intros Hn. destruct n as [|n]; [congruence|].
  cbv zeta. rewrite forTurns_S.
  eapply Qle_trans; [|apply passLoop_mono].
  unfold body, passBody. cbn. lra.
Qed.
End PassLoop.

Section ValidInputs.
Variables (model : BedrockModel).
Variables (st rq sys ctx sub inst out ss tier : Q).
Variables (cacheable : bool) (ttl : CacheTTL).

Hypothesis prices_ok : validPrices model.
Hypothesis tier_nonneg : 0 <= tier.
Hypothesis students_ge_1 : 1 <= st.
Hypothesis reqs_ge_1 : 1 <= rq.
Hypothesis sys_nonneg : 0 <= sys.
Hypothesis ctx_nonneg : 0 <= ctx.
Hypothesis sub_nonneg : 0 <= sub.
Hypothesis inst_nonneg : 0 <= inst.
Hypothesis out_nonneg : 0 <= out.
Hypothesis ss_nonneg : 0 <= ss.

(** Brings the facts about the prices into the context. *)
Ltac price_facts :=
  let Hi := fresh "Hi" in let Ho := fresh "Ho" in
  let Hw := fresh "Hw" in let Hw1 := fresh "Hw1" in
  let Hr := fresh "Hr" in let Hbi := fresh "Hbi" in let Hbo := fresh "Hbo" in
  destruct prices_ok as (Hi & Ho & Hw & Hw1 & Hr & Hbi & Hbo);
  pose proof prices_ok as Hprices.

(** Brings the facts about the trace into the context. *)
Ltac trace_facts :=
  destruct (simulateSummarization_nonneg rq inst out ss ss_nonneg)
    as (Htot & Hnum & Htrace).

Lemma computeNoCaching_nonneg :
  nonnegBreakdown (computeNoCaching model st rq sys ctx sub inst out tier).
Proof.
  price_facts. unfold nonnegBreakdown, computeNoCaching.
  cbn [cacheWrite cacheRead freshInput output guardrails total].
  repeat split; qnonneg.
Qed.

Lemma computeBatch_nonneg :
  nonnegBreakdown (computeBatch model st rq sys ctx sub inst out tier).
Proof.
  price_facts. unfold nonnegBreakdown, computeBatch.
  cbn [cacheWrite cacheRead freshInput output guardrails total].
  repeat split; qnonneg.
Qed.

Lemma computeStrategyA_nonneg :
  nonnegBreakdown (computeStrategyA model st rq sys ctx sub inst out tier ttl).
Proof.
  price_facts. unfold nonnegBreakdown, computeStrategyA.
  cbn [cacheWrite cacheRead freshInput output guardrails total].
  repeat split; qnonneg.
Qed.

Lemma computeStrategyB_nonneg :
  nonnegBreakdown
    (computeStrategyB model st rq sys ctx sub inst out tier cacheable ttl).
Proof.
  price_facts. unfold nonnegBreakdown, computeStrategyB.
  cbn [cacheWrite cacheRead freshInput output guardrails total].
  destruct cacheable; repeat split; qnonneg.
Qed.

Lemma computeSumNoCaching_nonneg :
  let r := computeSumNoCaching model st rq sys ctx sub inst out ss tier in
  nonnegBreakdown (breakdown r) /\ 0 <= summarizationCalls r.
Proof.
  price_facts. trace_facts. unfold nonnegBreakdown, computeSumNoCaching.
  cbn [cacheWrite cacheRead freshInput output guardrails total breakdown
         summarizationCalls].
  repeat split; qnonneg.
Qed.

Lemma computeSumCacheAssessment_nonneg :
  let r := computeSumCacheAssessment model st rq sys ctx sub inst out ss tier ttl in
  nonnegBreakdown (breakdown r) /\ 0 <= summarizationCalls r.
Proof.
  price_facts. trace_facts. unfold nonnegBreakdown, computeSumCacheAssessment.
  cbn [cacheWrite cacheRead freshInput output guardrails total breakdown
         summarizationCalls].
  repeat split; qnonneg.
Qed.

(** The write correction never exceeds the summed per-student writes:
    every student's first turn writes the shared prefix. *)
Lemma sumCacheSummary_write_nonneg (W p w : Q) :
  0 <= p * w -> p * w <= W ->
  0 <= st * W - (if Qlt_bool 1 st then (st - 1) * p * w else 0).
Proof.
  intros Ha HW. destruct (Qlt_bool 1 st).
  - assert (E : st * W - (st - 1) * p * w == st * (W - p * w) + p * w) by ring.
    rewrite E. qnonneg.
  - assert (E : st * W - 0 == st * W) by ring.
    rewrite E. qnonneg.
Qed.

Lemma computeSumCacheSummary_nonneg :
  let r := computeSumCacheSummary model st rq sys ctx sub inst out ss tier ttl in
  nonnegBreakdown (breakdown r) /\ 0 <= summarizationCalls r.
Proof.
  price_facts. trace_facts. unfold nonnegBreakdown, computeSumCacheSummary.
  cbn [cacheWrite cacheRead freshInput output guardrails total breakdown
         summarizationCalls].
  set (pInput := input_1k (pricing model) * tier).
  set (pWrite := getCacheWritePrice model ttl * tier).
  set (pRead := nullish (cache_read_1k (pricing model)) 0 * tier).
  set (sim := simulateSummarization rq inst out ss) in *.
  set (s0 := {| perStudentCacheWrite := 0; perStudentCacheRead := 0;
                perStudentFreshInput := 0; hasSummary := false |}).
  set (s := forTurns (turnCount rq) 1
              (passBody sim (sys + ctx) (sys + ctx + ss) sub ss pInput pWrite pRead)
              s0).
  assert (HpI : 0 <= pInput) by (subst pInput; qnonneg).
  assert (HpW : 0 <= pWrite) by (subst pWrite; qnonneg).
  assert (HpR : 0 <= pRead) by (subst pRead; qnonneg).
  assert (Hpre : 0 <= sys + ctx) by lra.
  destruct (passLoop_mono sim (sys + ctx) sub ss pInput pWrite pRead
              Hpre sub_nonneg ss_nonneg HpI HpW HpR Htrace (turnCount rq) 1 s0)
    as (_ & HR & HF).
  fold s in HR, HF. cbn [perStudentCacheRead perStudentFreshInput s0] in HR, HF.
  assert (Hn : turnCount rq <> O).
  { unfold turnCount. pose proof (turnCount_pos rq reqs_ge_1). lia. }
  pose proof (passLoop_first_write sim (sys + ctx) sub ss pInput pWrite pRead
                Hpre sub_nonneg ss_nonneg HpI HpW HpR Htrace (turnCount rq) Hn)
    as HW.
  cbv zeta in HW. fold s0 s in HW.
  assert (Ha : 0 <= (sys + ctx) / 1000 * pWrite) by qnonneg.
  pose proof (sumCacheSummary_write_nonneg _ _ _ Ha HW) as Hcw.
  assert (Hcr : 0 <= st * perStudentCacheRead s
                     + (if Qlt_bool 1 st then (st - 1) * ((sys + ctx) / 1000) * pRead
                        else 0)).
  { destruct (Qlt_bool 1 st); qnonneg. }
  assert (Hfi : 0 <= st * perStudentFreshInput s) by qnonneg.
  assert (Hout : 0 <= st * rq * (out / 1000) * (output_1k (pricing model) * tier))
    by qnonneg.
  assert (Hsc : 0 <= st * inject_Z (numSummarizations sim)
                     * ((sys + inst) / 1000 * pInput
                        + ss / 1000 * (output_1k (pricing model) * tier)))
    by qnonneg.
  repeat split; try assumption; lra.
Qed.
End ValidInputs.

(** C7: with non-negative prices and token counts (the summary size is one
    of them), a tier multiplier [>= 0], and at least one student and one
    request per student, every field of the breakdown of each of the seven
    strategy functions is non-negative; for [computeSumCacheSummary] this
    includes [cacheWrite], from which the shared-prefix write correction of
    the other [students - 1] students is subtracted. *)
Theorem C7_breakdowns_nonneg :
  forall (model : BedrockModel)
         (st rq sys ctx sub inst out ss tier : Q)
         (cacheable : bool) (ttl : CacheTTL),
    validPrices model -> 0 <= tier -> 1 <= st -> 1 <= rq ->
    0 <= sys -> 0 <= ctx -> 0 <= sub -> 0 <= inst -> 0 <= out -> 0 <= ss ->
    nonnegBreakdown (computeNoCaching model st rq sys ctx sub inst out tier)
    /\ nonnegBreakdown (computeStrategyA model st rq sys ctx sub inst out tier ttl)
    /\ nonnegBreakdown
         (computeStrategyB model st rq sys ctx sub inst out tier cacheable ttl)
    /\ nonnegBreakdown (computeBatch model st rq sys ctx sub inst out tier)
    /\ nonnegBreakdown
         (breakdown (computeSumNoCaching model st rq sys ctx sub inst out ss tier))
    /\ nonnegBreakdown
         (breakdown
            (computeSumCacheAssessment model st rq sys ctx sub inst out ss tier ttl))
    /\ nonnegBreakdown
         (breakdown
            (computeSumCacheSummary model st rq sys ctx sub inst out ss tier ttl)).
Proof.
  intros model st rq sys ctx sub inst out ss tier cacheable ttl
         Hp Ht Hs Hr Hsys Hctx Hsub Hinst Hout Hss.
  split; [apply computeNoCaching_nonneg; assumption|].
  split; [apply computeStrategyA_nonneg; assumption|].
  split; [apply computeStrategyB_nonneg; assumption|].
  split; [apply computeBatch_nonneg; assumption|].
  split; [apply computeSumNoCaching_nonneg; assumption|].
  split; [apply computeSumCacheAssessment_nonneg; assumption|].
  apply computeSumCacheSummary_nonneg; assumption.
Qed.

Lemma sonnetLike_valid : validPrices sonnetLike.
Proof.
  unfold validPrices, optNonneg. cbn.
  repeat split; try discriminate;
    intros v [= <-]; discriminate.
Qed.

(** C7 at a concrete conversational workload (30 students, 12 turns, cap
    2000, summaries of 500 tokens). *)
Lemma C7_breakdowns_nonneg_witness :
  nonnegBreakdown
    (breakdown
       (computeSumCacheSummary sonnetLike 30 12 1000 1000 2000 2000 400 500 1
          TTL_5min)).
Proof.
  apply (C7_breakdowns_nonneg sonnetLike 30 12 1000 1000 2000 2000 400 500 1
           true TTL_5min);
    first [exact sonnetLike_valid | vm_compute; discriminate].
Defined.

(* ------------------------------------------------------------------ *)
(** ** C6: cache amortization *)

(** What No-Caching costs more than Strategy A. *)
Lemma noCaching_minus_strategyA (model : BedrockModel)
    (st rq sys ctx sub inst out tier : Q) (ttl : CacheTTL) :
  total (computeNoCaching model st rq sys ctx sub inst out tier)
  - total (computeStrategyA model st rq sys ctx sub inst out tier ttl)
  == (sys + ctx) / 1000 * tier
     * (st * rq * (input_1k (pricing model) - nullish (cache_read_1k (pricing model)) 0)
        - (getCacheWritePrice model ttl - nullish (cache_read_1k (pricing model)) 0)).
Proof.
  unfold computeNoCaching, computeStrategyA. cbn [total]. field.
Qed.

(** Without cached tokens, or at tier multiplier 0, the two strategies
    cost the same for every number of requests. *)
Lemma never_cheaper (model : BedrockModel) (sys ctx sub inst out tier : Q)
    (ttl : CacheTTL) :
  (sys + ctx) * tier == 0 -> ~ eventuallyCheaper model sys ctx sub inst out tier ttl.
Proof.
  intros Hz [T H].
  set (n := Z.to_pos (Z.max 1 (Qfloor T + 1))).
  specialize (H n 1%positive).
  assert (Hn : T < inject_Z (Z.pos n) * inject_Z 1).
  { assert (E : inject_Z (Z.pos n) * inject_Z 1 == inject_Z (Z.pos n)) by ring.
    rewrite E. eapply Qlt_le_trans; [apply Qlt_floor|].
    rewrite <- Zle_Qle. subst n. lia. }
  specialize (H Hn).
  pose proof (noCaching_minus_strategyA model (inject_Z (Z.pos n)) (inject_Z 1)
                sys ctx sub inst out tier ttl) as E.
  set (g := inject_Z (Z.pos n) * inject_Z 1
            * (input_1k (pricing model) - nullish (cache_read_1k (pricing model)) 0)
            - (getCacheWritePrice model ttl
               - nullish (cache_read_1k (pricing model)) 0)) in E.
  assert (E0 : (sys + ctx) / 1000 * tier * g == (sys + ctx) * tier * g / 1000)
    by field.
  rewrite E0, Hz in E.
  assert (E1 : 0 * g / 1000 == 0) by field.
  rewrite E1 in E. lra.
Qed.

(** C6, as stated, fails when nothing is cached, and at tier multiplier 0:
    with [sysTokens = ctxTokens = 0], or with [tierMultiplier = 0], both
    strategies cost the same for every number of requests, although the
    cache-read price is below the input price. *)
Lemma C6_no_cached_tokens_never_cheaper :
  nullish (cache_read_1k (pricing sonnetLike)) 0 < input_1k (pricing sonnetLike)
  /\ ~ eventuallyCheaper sonnetLike 0 0 2000 500 1000 1 TTL_5min
  /\ ~ eventuallyCheaper sonnetLike 1000 15000 2000 500 1000 0 TTL_5min.
Proof.
  split; [reflexivity|]. split; apply never_cheaper; reflexivity.
Qed.

(** C6 (amended): when some tokens are cached ([sysTokens + ctxTokens > 0]),
    the tier multiplier is positive and the cache-read price (0 when
    absent) is below the input price, Strategy A's total is strictly below
    No-Caching's as soon as [students * reqsPerStudent] exceeds
    [(pWrite - pRead) / (pInput - pRead)]. *)
Theorem C6_cache_amortization :
  forall (model : BedrockModel) (sys ctx sub inst out tier : Q) (ttl : CacheTTL),
    0 < sys + ctx -> 0 < tier ->
    nullish (cache_read_1k (pricing model)) 0 < input_1k (pricing model) ->
    exists threshold : Q,
      threshold
      == (getCacheWritePrice model ttl - nullish (cache_read_1k (pricing model)) 0)
         / (input_1k (pricing model) - nullish (cache_read_1k (pricing model)) 0)
      /\ forall st rq : Q,
           threshold < st * rq ->
           total (computeStrategyA model st rq sys ctx sub inst out tier ttl)
           < total (computeNoCaching model st rq sys ctx sub inst out tier).
Proof.
  intros model sys ctx sub inst out tier ttl Hc Ht Hp.
  set (I := input_1k (pricing model)) in *.
  set (R := nullish (cache_read_1k (pricing model)) 0) in *.
  set (W := getCacheWritePrice model ttl).
  exists ((W - R) / (I - R)). split; [reflexivity|].
  intros st rq HN.
  pose proof (noCaching_minus_strategyA model st rq sys ctx sub inst out tier ttl) as E.
  fold I R W in E.
  assert (Hd : 0 < I - R) by lra.
  assert (Hg : 0 < st * rq * (I - R) - (W - R)).
  { assert (Hm : (W - R) / (I - R) * (I - R) < st * rq * (I - R)).
    { apply Qmult_lt_r; assumption. }
    assert (Ed : (W - R) / (I - R) * (I - R) == W - R) by (field; lra).
    rewrite Ed in Hm. lra. }
  assert (Hpos : 0 < (sys + ctx) / 1000 * tier * (st * rq * (I - R) - (W - R))).
  { apply Qmult_lt_0_compat; [apply Qmult_lt_0_compat|]; try assumption.
    apply Qlt_shift_div_l; [reflexivity | lra]. }
  rewrite <- E in Hpos. lra.
Qed.

(** C6 at the scenario prices with 1000 + 15000 cached tokens. *)
Lemma C6_cache_amortization_witness :
  exists threshold : Q,
    threshold
    == (getCacheWritePrice sonnetLike TTL_5min
        - nullish (cache_read_1k (pricing sonnetLike)) 0)
       / (input_1k (pricing sonnetLike)
          - nullish (cache_read_1k (pricing sonnetLike)) 0)
    /\ forall st rq : Q,
         threshold < st * rq ->
         total (computeStrategyA sonnetLike st rq 1000 15000 2000 500 1000 1 TTL_5min)
         < total (computeNoCaching sonnetLike st rq 1000 15000 2000 500 1000 1).
Proof.
  apply (C6_cache_amortization sonnetLike 1000 15000 2000 500 1000 1 TTL_5min);
    reflexivity.
Defined.

(* ------------------------------------------------------------------ *)
(** ** The stabilization pass *)

Local Open Scope nat_scope.

Lemma frame_setWinner (w c : string) (p : Point) : frame (setWinner w c p) = frame p.
Proof. reflexivity. Qed.

(** Leaving the inner loop is the negation of the test of the outer one. *)
Lemma tieEnds_nearTie (allKeys : list string) (p : Point) :
  tieEnds allKeys p = negb (nearTie allKeys p).
Proof.
  unfold tieEnds, nearTie, gapOf.
  destruct (sortedCosts allKeys p) as [|a [|b l]]; cbn; try reflexivity.
  unfold Qlt_bool. now rewrite negb_involutive.
Qed.

Lemma allKeysOf_optionalKeys (stabKeys : list string) (p q : Point) :
  optionalKeys p = optionalKeys q -> allKeysOf stabKeys p = allKeysOf stabKeys q.
Proof.
  unfold optionalKeys, hasKey, allKeysOf. intros [= H1 H2].
  destruct (costs p !! "Per-Submission Cache"), (costs q !! "Per-Submission Cache");
    destruct (costs p !! "Batch Inference"), (costs q !! "Batch Inference");
    congruence.
Qed.

Section AssignLoop.
Variables (w c : string) (res : nat).

Lemma assignWinner_alter (d : list Point) (k : nat) :
  resolvedIs w c res d -> assignWinner res d k = alter (setWinner w c) k d.
Proof.
  intros (r & Hr & <- & <-). unfold assignWinner. now rewrite Hr.
Qed.

(** The element [resolved] refers to keeps its winner while the loop runs. *)
Lemma resolvedIs_alter (d : list Point) (k : nat) :
  resolvedIs w c res d -> resolvedIs w c res (alter (setWinner w c) k d).
Proof.
  intros (r & Hr & Hw & Hc). unfold resolvedIs.
  destruct (decide (k = res)) as [->|Hne].
  - rewrite list_lookup_alter_eq, Hr. cbn. eauto.
  - rewrite list_lookup_alter_ne by exact Hne. eauto.
Qed.

(** [for (k = ri; k < ri + n; k++) rawData[k].winner = resolved.winner]. *)
Lemma assignLoop_lookup (n : nat) :
  forall (ri : nat) (d : list Point),
    resolvedIs w c res d ->
    forall k : nat,
      foldl (assignWinner res) d (seq ri n) !! k
      = if decide (ri <= k < ri + n) then setWinner w c <$> d !! k else d !! k.
Proof.
  induction n as [|n IH]; intros ri d Hres k.
  - cbn. destruct (decide (ri <= k < ri + 0)); [lia | reflexivity].
  - cbn [seq foldl]. rewrite assignWinner_alter by exact Hres.
    rewrite IH by (apply resolvedIs_alter; exact Hres).
    destruct (decide (k = ri)) as [->|Hne].
    + rewrite list_lookup_alter_eq.
      destruct (decide (S ri <= ri < S ri + n)); [lia|].
      destruct (decide (ri <= ri < ri + S n)); [reflexivity | lia].
    + rewrite list_lookup_alter_ne by congruence.
      destruct (decide (S ri <= k < S ri + n)), (decide (ri <= k < ri + S n));
        try reflexivity; lia.
Qed.

Lemma assignLoop_length (n : nat) :
  forall (ri : nat) (d : list Point),
    length (foldl (assignWinner res) d (seq ri n)) = length d.
Proof.
  induction n as [|n IH]; intros ri d; [reflexivity|].
  cbn [seq foldl]. rewrite IH. unfold assignWinner.
  destruct (d !! res); [apply length_alter | reflexivity].
Qed.
End AssignLoop.

Lemma assignWinner_frame (res : nat) (d : list Point) (k : nat) :
  frame <$> assignWinner res d k = frame <$> d.
Proof.
  unfold assignWinner. destruct (d !! res) as [r|]; [|reflexivity].
  apply list_eq. intros i. rewrite !list_lookup_fmap.
  destruct (decide (k = i)) as [->|Hne].
  - rewrite list_lookup_alter_eq. now destruct (d !! i).
  - now rewrite list_lookup_alter_ne.
Qed.

Lemma assignLoop_frame (res : nat) (l : list nat) :
  forall d : list Point, frame <$> foldl (assignWinner res) d l = frame <$> d.
Proof.
  induction l as [|k l IH]; intros d; [reflexivity|].
  cbn [foldl]. now rewrite IH, assignWinner_frame.
Qed.

(** The inner loop stops at the first point, from [start] on, that ends
    the tie, or at the end of the array. *)
Lemma scanTie_spec (allKeys : list string) (rest : list Point) :
  forall start : nat,
    let rj := scanTie allKeys rest start in
    start <= rj <= start + length rest
    /\ (forall i p, start + i < rj -> rest !! i = Some p -> tieEnds allKeys p = false)
    /\ (forall p, rest !! (rj - start) = Some p -> tieEnds allKeys p = true).
Proof.
  induction rest as [|p2 rest IH]; intros start; cbn [scanTie].
  - cbn. split; [lia|]. split; [intros; lia | intros p H; discriminate].
  - destruct (tieEnds allKeys p2) eqn:E.
    + cbn. split; [lia|]. split; [intros; lia|].
      intros p. rewrite Nat.sub_diag. cbn. now intros [= <-].
    + destruct (IH (S start)) as (Hb & Hin & Hend). cbn zeta.
      set (rj := scanTie allKeys rest (S start)) in *.
      split; [cbn [length]; lia|]. split.
      * intros [|i] p Hi Hp; cbn in Hp.
        -- now injection Hp as <-.
        -- apply (Hin i p); [lia | exact Hp].
      * intros p Hp. apply Hend.
        replace (rj - start) with (S (rj - S start)) in Hp by lia. exact Hp.
Qed.

(** The outer loop does not change the array length, nor anything but
    winners. *)
Lemma stabLoop_frame (fuel : nat) (stabKeys : list string) :
  forall (ri : nat) (d : list Point),
    frame <$> stabLoop fuel stabKeys ri d = frame <$> d.
Proof.
  induction fuel as [|fuel IH]; intros ri d; [reflexivity|].
  cbn [stabLoop]. destruct (d !! ri) as [pt|]; [|reflexivity].
  destruct (nearTie (allKeysOf stabKeys pt) pt); [|apply IH].
  cbv zeta. now rewrite IH, assignLoop_frame.
Qed.

Lemma stabLoop_length (fuel : nat) (stabKeys : list string) (ri : nat)
    (d : list Point) :
  length (stabLoop fuel stabKeys ri d) = length d.
Proof.
  rewrite <- (length_fmap frame), stabLoop_frame. apply length_fmap.
Qed.

(** Any fuel of at least [length rawData - ri] gives the same result: the
    loop has ended by then. *)
Lemma stabLoop_fuel (stabKeys : list string) (f1 : nat) :
  forall (f2 ri : nat) (d : list Point),
    length d - ri <= f1 -> length d - ri <= f2 ->
    stabLoop f1 stabKeys ri d = stabLoop f2 stabKeys ri d.
Proof.
  induction f1 as [|f1 IH]; intros f2 ri d H1 H2.
  - destruct f2 as [|f2]; [reflexivity|]. cbn [stabLoop].
    rewrite (lookup_ge_None_2 d ri) by lia. reflexivity.
  - destruct f2 as [|f2]; cbn [stabLoop].
    + rewrite (lookup_ge_None_2 d ri) by lia. reflexivity.
    + destruct (d !! ri) as [pt|] eqn:Ept; [|reflexivity].
      apply lookup_lt_Some in Ept.
      destruct (nearTie (allKeysOf stabKeys pt) pt).
      * cbv zeta.
        destruct (scanTie_spec (allKeysOf stabKeys pt) (drop (S ri) d) (S ri))
          as (Hb & _). cbv zeta in Hb.
        apply IH; rewrite assignLoop_length; lia.
      * apply IH; lia.
Qed.

Section Stabilization.
Variables (stabKeys : list string) (raw : list Point).
Hypothesis uniform : uniformKeys raw.

Lemma nearTie_uniform (pt p : Point) :
  pt ∈ raw -> p ∈ raw -> nearTie (allKeysOf stabKeys pt) p = tiePoint stabKeys p.
Proof.
  intros Hpt Hp. unfold tiePoint.
  now rewrite (allKeysOf_optionalKeys stabKeys pt p (uniform pt p Hpt Hp)).
Qed.

(** One round of the outer loop at a near-tie [ri]: the points from [ri]
    up to where the inner loop stops are near-ties, and the point where it
    stops, if there is one, is not. *)
Lemma scanned_run (ri : nat) (pt : Point) :
  raw !! ri = Some pt ->
  tiePoint stabKeys pt = true ->
  let rj := scanTie (allKeysOf stabKeys pt) (drop (S ri) raw) (S ri) in
  ri < rj <= length raw
  /\ (forall k, ri <= k < rj -> tieAt stabKeys raw k = true)
  /\ (rj < length raw -> tieAt stabKeys raw rj = false).
Proof.
  intros Hpt Htie.
  destruct (scanTie_spec (allKeysOf stabKeys pt) (drop (S ri) raw) (S ri))
    as (Hb & Hin & Hend).
  cbv zeta in *. set (rj := scanTie _ _ _) in *.
  pose proof (lookup_lt_Some _ _ _ Hpt) as Hlt.
  rewrite length_drop in Hb.
  assert (Hmem : pt ∈ raw) by (eapply list_elem_of_lookup_2; exact Hpt).
  split; [lia|]. split.
  - intros k Hk. unfold tieAt.
    destruct (decide (k = ri)) as [->|Hne]; [now rewrite Hpt|].
    destruct (lookup_lt_is_Some_2 raw k) as [p Hp]; [lia|]. rewrite Hp.
    rewrite <- (nearTie_uniform pt p Hmem) by (eapply list_elem_of_lookup_2; exact Hp).
    apply negb_false_iff. rewrite <- tieEnds_nearTie.
    apply (Hin (k - S ri) p); [lia|].
    rewrite lookup_drop. replace (S ri + (k - S ri)) with k by lia. exact Hp.
  - intros Hrj. unfold tieAt.
    destruct (lookup_lt_is_Some_2 raw rj) as [p Hp]; [lia|]. rewrite Hp.
    rewrite <- (nearTie_uniform pt p Hmem) by (eapply list_elem_of_lookup_2; exact Hp).
    apply negb_true_iff. rewrite <- tieEnds_nearTie.
    apply Hend. rewrite lookup_drop.
    replace (S ri + (rj - S ri)) with rj by lia. exact Hp.
Qed.

(** A run that contains [k] ends where the scan from [ri <= k] stops. *)
Lemma tieRun_end_unique (ri rj k j : nat) :
  ri <= k < rj -> rj <= length raw ->
  (forall m, ri <= m < rj -> tieAt stabKeys raw m = true) ->
  (rj < length raw -> tieAt stabKeys raw rj = false) ->
  tieRun stabKeys raw k j -> j = rj.
Proof.
  intros Hk Hlen Hin Hend (Hj & Hrun & Hstop).
  destruct (Nat.lt_trichotomy j rj) as [Hlt|[Heq|Hgt]]; [|exact Heq|].
  - rewrite Hin in Hstop by lia. specialize (Hstop ltac:(lia)). discriminate.
  - rewrite Hrun in Hend by lia. specialize (Hend ltac:(lia)). discriminate.
Qed.

Lemma settledAt_ext (out out' : list Point) (k : nat) :
  out' !! k = out !! k -> settledAt stabKeys raw out k -> settledAt stabKeys raw out' k.
Proof. unfold settledAt. intros ->. tauto. Qed.

Lemma settledAt_beyond (out : list Point) (k : nat) :
  length raw <= k -> out !! k = raw !! k -> settledAt stabKeys raw out k.
Proof.
  intros Hk Heq. split; [intros _; exact Heq|].
  intros j (Hj & _). lia.
Qed.

(** The invariant of the outer loop: the points before [ri] are settled
    and the points from [ri] on are untouched. *)
Lemma stabLoop_settles (fuel : nat) :
  forall (ri : nat) (d : list Point),
    length d - ri <= fuel ->
    length d = length raw ->
    (forall k, ri <= k -> d !! k = raw !! k) ->
    (forall k, k < ri -> settledAt stabKeys raw d k) ->
    forall k, settledAt stabKeys raw (stabLoop fuel stabKeys ri d) k.
Proof.
  induction fuel as [|fuel IH]; intros ri d Hfuel Hlen Hrest Hdone k.
  - cbn [stabLoop]. destruct (Nat.lt_ge_cases k ri) as [Hk|Hk]; [now apply Hdone|].
    apply settledAt_beyond; [lia | now apply Hrest].
  - cbn [stabLoop]. destruct (d !! ri) as [pt|] eqn:Ept.
    2:{ apply lookup_ge_None in Ept.
        destruct (Nat.lt_ge_cases k ri) as [Hk|Hk]; [now apply Hdone|].
        apply settledAt_beyond; [lia | now apply Hrest]. }
    assert (Hpt : raw !! ri = Some pt) by (rewrite <- Hrest by lia; exact Ept).
    pose proof (lookup_lt_Some _ _ _ Hpt) as Hri.
    destruct (nearTie (allKeysOf stabKeys pt) pt) eqn:Etie.
    + (* a run of near-ties starts at [ri] *)
      cbv zeta.
      destruct (scanned_run ri pt Hpt Etie) as (Hb & Hin & Hend).
      cbv zeta in Hb, Hin, Hend.
      assert (Edrop : drop (S ri) d = drop (S ri) raw).
      { apply list_eq. intros i. rewrite !lookup_drop. apply Hrest. lia. }
      rewrite Edrop, Hlen.
      set (rj := scanTie (allKeysOf stabKeys pt) (drop (S ri) raw) (S ri)) in *.
      fold (resolvedIndex raw rj).
      assert (Hres : ri <= resolvedIndex raw rj < length raw).
      { unfold resolvedIndex. destruct (Nat.ltb_spec rj (length raw)); lia. }
      destruct (lookup_lt_is_Some_2 raw (resolvedIndex raw rj)) as [r Hr]; [lia|].
      assert (Halias : resolvedIs (winner r) (winnerColor r) (resolvedIndex raw rj) d).
      { exists r. rewrite Hrest by lia. auto. }
      pose proof (assignLoop_lookup (winner r) (winnerColor r)
                    (resolvedIndex raw rj) (rj - ri) ri d Halias) as Hlook.
      apply IH.
      * rewrite assignLoop_length. lia.
      * now rewrite assignLoop_length.
      * intros m Hm. rewrite Hlook.
        destruct (decide (ri <= m < ri + (rj - ri))); [lia | apply Hrest; lia].
      * intros m Hm. destruct (Nat.lt_ge_cases m ri) as [Hlo|Hlo].
        -- apply (settledAt_ext d); [|now apply Hdone].
           rewrite Hlook.
           destruct (decide (ri <= m < ri + (rj - ri))); [lia | reflexivity].
        -- split.
           ++ rewrite Hin by lia. discriminate.
           ++ intros j Hrun.
              assert (j = rj) as ->.
              { apply (tieRun_end_unique ri rj m j); auto; lia. }
              destruct (lookup_lt_is_Some_2 raw m) as [p Hp]; [lia|].
              exists p, r. split; [exact Hp|]. split; [exact Hr|].
              rewrite Hlook.
              destruct (decide (ri <= m < ri + (rj - ri))); [|lia].
              rewrite Hrest by lia. now rewrite Hp.
    + (* [ri] is not a near-tie *)
      apply IH; [lia | exact Hlen | intros m Hm; apply Hrest; lia |].
      intros m Hm. destruct (Nat.lt_ge_cases m ri) as [Hlo|Hlo]; [now apply Hdone|].
      assert (m = ri) as -> by lia.
      split; [intros _; apply Hrest; lia|].
      intros j (Hj & Hrun & _).
      specialize (Hrun ri ltac:(lia)). unfold tieAt in Hrun. rewrite Hpt in Hrun.
      unfold tiePoint in Hrun. congruence.
Qed.

Lemma stabilize_settles (k : nat) :
  settledAt stabKeys raw (stabilize stabKeys raw) k.
Proof.
  unfold stabilize. apply stabLoop_settles; auto.
  - lia.
  - intros m Hm. lia.
Qed.
End Stabilization.

Lemma tieRun_suffix (stabKeys : list string) (raw : list Point) (i j k : nat) :
  tieRun stabKeys raw i j -> i <= k < j -> tieRun stabKeys raw k j.
Proof.
  intros (Hj & Hrun & Hstop) Hk. split; [lia|]. split; [|exact Hstop].
  intros m Hm. apply Hrun. lia.
Qed.

(** The cost keys of a sweep point depend on the display mode and on the
    batch switch only. *)
Lemma optionalKeys_sweepPoint (c : SimulatorState) (val : Q) :
  optionalKeys (sweepPoint c val)
  = (is_strategy_comparison (displayMode c),
     is_strategy_comparison (displayMode c) && batchIncluded c).
Proof.
  unfold optionalKeys, hasKey, sweepPoint, finishPoint. cbn [costs].
  destruct (summarizationEnabled c && isConversational c);
    destruct (is_strategy_comparison (displayMode c));
    destruct (batchIncluded c); cbn [andb];
    repeat first [ rewrite lookup_insert_eq
                 | rewrite lookup_insert_ne by done
                 | rewrite lookup_empty ];
    reflexivity.
Qed.

Lemma rawDataOf_uniform (c : SimulatorState) : uniformKeys (rawDataOf c).
Proof.
  intros p q Hp Hq. unfold rawDataOf in Hp, Hq.
  apply list_elem_of_In, in_map_iff in Hp as (v1 & <- & _).
  apply list_elem_of_In, in_map_iff in Hq as (v2 & <- & _).
  now rewrite !optionalKeys_sweepPoint.
Qed.

Lemma examplePoints_uniform : uniformKeys examplePoints.
Proof.
  intros p q Hp Hq. unfold examplePoints in Hp, Hq.
  repeat (apply elem_of_cons in Hp as [->|Hp]);
    try (apply elem_of_nil in Hp; contradiction);
    repeat (apply elem_of_cons in Hq as [->|Hq]);
    try (apply elem_of_nil in Hq; contradiction);
    reflexivity.
Qed.

Lemma examplePoints_run : tieRun (costKeys false) examplePoints 0 2.
Proof.
  split; [cbn; lia|]. split.
  - intros m Hm. assert (m = 0 \/ m = 1) as [-> | ->] by lia; reflexivity.
  - intros _. reflexivity.
Qed.

(** C2: in the stabilization pass over a sweep whose points carry the same
    cost keys (as those of [paramSensitivityData] do), every point of a run
    of near-ties (gap between the two cheapest totals below 0.005) that
    ends at [j] gets the winner and the winner color of the point at [j],
    or of the last point when the run reaches the end of the grid, and that
    resolving point keeps its own winner.  For the costs [10.001, 9.999],
    [10, 10], [12, 8] the first two points get the winner computed at the
    third one, whichever of the two strategies the first cost belongs to. *)
Theorem C2_stabilization :
  (forall (stabKeys : list string) (raw : list Point),
      uniformKeys raw ->
      forall i j : nat,
        tieRun stabKeys raw i j ->
        forall k : nat,
          i <= k < j ->
          exists p r r' : Point,
            raw !! k = Some p
            /\ raw !! resolvedIndex raw j = Some r
            /\ stabilize stabKeys raw !! resolvedIndex raw j = Some r'
            /\ winner r' = winner r /\ winnerColor r' = winnerColor r
            /\ stabilize stabKeys raw !! k
               = Some (setWinner (winner r) (winnerColor r) p))
  /\ (forall (c : SimulatorState) (i j k : nat),
         supportsCaching c = true ->
         let stabKeys := costKeys (summarizationEnabled c && isConversational c) in
         let raw := rawDataOf c in
         tieRun stabKeys raw i j ->
         i <= k < j ->
         exists p r r' : Point,
           raw !! k = Some p
           /\ raw !! resolvedIndex raw j = Some r
           /\ paramSensitivityData c !! resolvedIndex raw j = Some r'
           /\ winner r' = winner r /\ winnerColor r' = winnerColor r
           /\ paramSensitivityData c !! k
              = Some (setWinner (winner r) (winnerColor r) p))
  /\ (winner <$> examplePoints
      = ["Per-Assignment Cache"; "Per-Assignment Cache"; "Per-Assignment Cache"]
      /\ winner <$> stabilize (costKeys false) examplePoints
         = ["Per-Assignment Cache"; "Per-Assignment Cache"; "Per-Assignment Cache"]
      /\ winner <$> examplePointsSwapped
         = ["No Caching"; "Per-Assignment Cache"; "No Caching"]
      /\ winner <$> stabilize (costKeys false) examplePointsSwapped
         = ["No Caching"; "No Caching"; "No Caching"]
      /\ winnerColor <$> stabilize (costKeys false) examplePointsSwapped
         = [CHART_COLORS_noCaching; CHART_COLORS_noCaching; CHART_COLORS_noCaching]).
Proof.
  assert (Hgen : forall (stabKeys : list string) (raw : list Point),
             uniformKeys raw ->
             forall i j : nat,
               tieRun stabKeys raw i j ->
               forall k : nat,
                 (i <= k < j)%nat ->
                 exists p r r' : Point,
                   raw !! k = Some p
                   /\ raw !! resolvedIndex raw j = Some r
                   /\ stabilize stabKeys raw !! resolvedIndex raw j = Some r'
                   /\ winner r' = winner r /\ winnerColor r' = winnerColor r
                   /\ stabilize stabKeys raw !! k
                      = Some (setWinner (winner r) (winnerColor r) p)).
  { intros stabKeys raw Hu i j Hrun k Hk.
    pose proof (tieRun_suffix stabKeys raw i j k Hrun Hk) as Hk_run.
    destruct (stabilize_settles stabKeys raw Hu k) as [_ Hset].
    destruct (Hset j Hk_run) as (p & r & Hp & Hr & Hout).
    exists p, r.
    destruct Hrun as (Hj & Htie & Hstop).
    destruct (stabilize_settles stabKeys raw Hu (resolvedIndex raw j))
      as [Hkeep Hset'].
    unfold resolvedIndex in *.
    destruct (Nat.ltb_spec j (length raw)) as [Hlt|Hge].
    - exists r. rewrite (Hkeep (Hstop Hlt)).
      repeat split; first [assumption | reflexivity].
    - assert (Hlast : tieRun stabKeys raw (length raw - 1) j).
      { split; [lia|]. split; [|intros; lia]. intros m Hm. apply Htie. lia. }
      destruct (Hset' j Hlast) as (p' & r0 & Hp' & Hr0 & Hout').
      destruct (Nat.ltb_spec j (length raw)) as [|_]; [lia|].
      rewrite Hr in Hp', Hr0. injection Hp' as <-. injection Hr0 as <-.
      exists (setWinner (winner r) (winnerColor r) r).
      repeat split; first [assumption | reflexivity]. }
  split; [exact Hgen|]. split.
  - intros c i j k Hc stabKeys raw Hrun Hk.
    unfold paramSensitivityData. rewrite Hc. cbn [negb]. fold stabKeys raw.
    exact (Hgen stabKeys raw (rawDataOf_uniform c) i j Hrun k Hk).
  - repeat split; vm_compute; reflexivity.
Qed.

(** C2 on the three example points: the run of the first two points ends
    at index 2, and the first point gets the winner of the third. *)
Lemma C2_stabilization_witness :
  exists p r r' : Point,
    examplePoints !! 0 = Some p
    /\ examplePoints !! resolvedIndex examplePoints 2 = Some r
    /\ stabilize (costKeys false) examplePoints !! resolvedIndex examplePoints 2
       = Some r'
    /\ winner r' = winner r /\ winnerColor r' = winnerColor r
    /\ stabilize (costKeys false) examplePoints !! 0
       = Some (setWinner (winner r) (winnerColor r) p).
Proof.
  destruct C2_stabilization as (Hgen & _).
  apply (Hgen (costKeys false) examplePoints examplePoints_uniform 0 2
           examplePoints_run 0).
  lia.
Defined.

(* ------------------------------------------------------------------ *)
(** ** C8: the grid of a sweep *)

Local Open Scope Q_scope.

Lemma increasingB_sorted (l : list Q) :
  increasingB l = true -> StronglySorted Qlt l.
Proof.
  intros H. apply Sorted_StronglySorted.
  - intros x y z. apply Qlt_trans.
  - induction l as [|a [|b l] IH]; [constructor | repeat constructor |].
    cbn [increasingB] in H. apply andb_true_iff in H as [Hab Hrest].
    constructor; [now apply IH|]. constructor. now apply Qlt_bool_true.
Qed.

Lemma baseSamplePoints_sorted (k : SensitivityParamKey) :
  StronglySorted Qlt (baseSamplePoints k).
Proof.
  apply increasingB_sorted. destruct k; vm_compute; reflexivity.
Qed.

Lemma insertBy_perm {A : Type} (cmp : A -> A -> Q) (x : A) (l : list A) :
  Permutation (insertBy cmp x l) (x :: l).
Proof.
  induction l as [|y l IH]; cbn; [reflexivity|].
  destruct (Qle_bool (cmp x y) 0); [reflexivity|].
  rewrite IH. apply perm_swap.
Qed.

Lemma Array_sort_perm {A : Type} (cmp : A -> A -> Q) (l : list A) :
  Permutation (Array_sort cmp l) l.
Proof.
  induction l as [|x l IH]; cbn; [reflexivity|].
  fold (Array_sort cmp l). rewrite insertBy_perm. now constructor.
Qed.

(** Inserting a new number keeps a strictly increasing array so. *)
Lemma insertBy_num_strict (x : Q) (l : list Q) :
  StronglySorted Qlt l -> Forall (fun y => ~ x == y) l ->
  StronglySorted Qlt (insertBy numCompare x l).
Proof.
  induction l as [|y l IH]; intros Hs Hne; cbn.
  - repeat constructor.
  - apply StronglySorted_inv in Hs as [Hs Hy].
    apply Forall_cons_1 in Hne as [Hxy Hne].
    unfold numCompare at 1.
    destruct (Qle_bool (x - y) 0) eqn:E.
    + apply Qle_bool_true in E.
      assert (Hlt : x < y).
      { destruct (Qle_lt_or_eq x y) as [|Heq]; [lra | assumption | contradiction]. }
      constructor; [constructor; assumption|].
      constructor; [exact Hlt|].
      eapply Forall_impl; [exact Hy|]. intros z Hz. cbn in Hz. lra.
    + apply Qle_bool_false in E.
      constructor; [now apply IH|].
      eapply Permutation_Forall; [symmetry; apply insertBy_perm|].
      constructor; [lra | exact Hy].
Qed.

Lemma Array_sort_num_strict (l : list Q) :
  ForallOrdPairs (fun a b => ~ a == b) l ->
  StronglySorted Qlt (Array_sort numCompare l).
Proof.
  induction 1 as [|x l Hx Hl IH]; cbn; [constructor|].
  fold (Array_sort numCompare l). apply insertBy_num_strict; [exact IH|].
  eapply Permutation_Forall; [symmetry; apply Array_sort_perm | exact Hx].
Qed.

Lemma strict_distinct (l : list Q) :
  StronglySorted Qlt l -> ForallOrdPairs (fun a b => ~ a == b) l.
Proof.
  induction 1 as [|a l Hs IH Ha]; constructor; [|exact IH].
  eapply Forall_impl; [exact Ha|]. intros b Hb. cbn in Hb. intros Heq. lra.
Qed.

Lemma distinct_snoc (l : list Q) (x : Q) :
  ForallOrdPairs (fun a b => ~ a == b) l ->
  Forall (fun y => ~ y == x) l ->
  ForallOrdPairs (fun a b => ~ a == b) (l ++ [x]).
Proof.
  induction 1 as [|a l Ha Hl IH]; intros Hx; cbn.
  - repeat constructor.
  - apply Forall_cons_1 in Hx as [Hax Hx].
    constructor; [|now apply IH].
    apply Forall_app. split; [exact Ha|]. now constructor.
Qed.

(** The grid is strictly increasing and holds the live value. *)
Lemma samplePoints_spec (c : SimulatorState) :
  StronglySorted Qlt (samplePoints c)
  /\ containsValue (samplePoints c) (getParam (sensitivityParam c) (current c)).
Proof.
  unfold samplePoints, containsValue. cbv zeta.
  set (base := baseSamplePoints (sensitivityParam c)).
  set (cur := getParam (sensitivityParam c) (current c)).
  pose proof (baseSamplePoints_sorted (sensitivityParam c)) as Hbase. fold base in Hbase.
  destruct (existsb (Qeq_bool cur) base) eqn:E; cbn [negb].
  - split; [exact Hbase|].
    apply existsb_exists in E as (v & Hv & Heq).
    exists v. split; [exact Hv|]. apply Qeq_bool_iff in Heq. now symmetry.
  - split.
    + apply Array_sort_num_strict, distinct_snoc; [now apply strict_distinct|].
      apply List.Forall_forall. intros y Hy Heq.
      assert (Ht : existsb (Qeq_bool cur) base = true).
      { apply existsb_exists. exists y. split; [exact Hy|].
        apply Qeq_bool_iff. now symmetry. }
      congruence.
    + exists cur. split; [|reflexivity].
      eapply Permutation_in; [symmetry; apply Array_sort_perm|].
      apply in_or_app. right. now left.
Qed.

Lemma stabilize_values (stabKeys : list string) (raw : list Point) :
  map value (stabilize stabKeys raw) = map value raw.
Proof.
  unfold stabilize.
  pose proof (stabLoop_frame (length raw) stabKeys 0%nat raw) as H.
  apply (f_equal (map (fun f : Q * bool * gmap string Q => f.1.1))) in H.
  rewrite !map_map in H. exact H.
Qed.

Lemma rawDataOf_values (c : SimulatorState) :
  map value (rawDataOf c) = samplePoints c.
Proof.
  unfold rawDataOf. rewrite map_map. cbn [sweepPoint finishPoint value].
  apply map_id.
Qed.

(** C8, as stated, fails for a model that does not support caching: the
    sweep is then empty and does not contain the live value. *)
Lemma C8_sweep_empty_without_caching :
  ~ (StronglySorted Qlt (map value (paramSensitivityData uncachedState))
     /\ containsValue (map value (paramSensitivityData uncachedState))
          (getParam (sensitivityParam uncachedState) (current uncachedState))).
Proof.
  intros [_ (v & Hv & _)]. exact Hv.
Qed.

(** C8 (amended): when the selected model supports caching, the parameter
    values of [paramSensitivityData] are strictly increasing and contain
    the live value of the swept parameter; when it does not, the sweep is
    empty. *)
Theorem C8_sweep_values :
  forall c : SimulatorState,
    (supportsCaching c = true ->
     StronglySorted Qlt (map value (paramSensitivityData c))
     /\ containsValue (map value (paramSensitivityData c))
          (getParam (sensitivityParam c) (current c)))
    /\ (supportsCaching c = false -> paramSensitivityData c = []).
Proof.
  intros c. split; intros Hc; unfold paramSensitivityData; rewrite Hc; cbn [negb].
  - rewrite stabilize_values, rawDataOf_values. apply samplePoints_spec.
  - reflexivity.
Qed.

(** C8 at the scenario workload, sweeping the context size (live value
    15000, which is not one of the 40 base points). *)
Lemma C8_sweep_values_witness :
  StronglySorted Qlt (map value (paramSensitivityData guardedState))
  /\ containsValue (map value (paramSensitivityData guardedState)) 15000.
Proof.
  apply (C8_sweep_values guardedState). reflexivity.
Defined.

(* ================================================================== *)
(** * Further properties *)

(** ** The graduated history model *)

Lemma Math_round_nonneg (x : Q) : 0 <= x -> (0 <= Math_round x)%Z.
Proof.
  intros H. unfold Math_round.
  change 0%Z with (Qfloor 0). apply Qfloor_resp_le. lra.
Qed.

Lemma tokensPerExchange_nonneg (out : Q) :
  0 <= out -> (0 <= computeTokensPerExchange out)%Z.
Proof.
  intros H. unfold computeTokensPerExchange. apply Math_round_nonneg.
  apply Qmult_le_0_compat; [exact H | discriminate].
Qed.

(** The ramp stays below the cap for the first [ceil(cap / tpe)] turns. *)
Lemma ramp_below_cap (cap : Q) (tpe : Z) (x : Q) :
  (0 < tpe)%Z -> x <= inject_Z (Math_ceil (cap / inject_Z tpe)) ->
  (x - 1) * inject_Z tpe < cap.
Proof.
  intros Htpe Hx. pose proof (inject_Z_pos tpe Htpe) as Hp.
  pose proof (Qceiling_lt (cap / inject_Z tpe)) as Hc.
  unfold Math_ceil in Hx.
  assert (Hz : inject_Z (Qceiling (cap / inject_Z tpe) - 1)
               == inject_Z (Qceiling (cap / inject_Z tpe)) - 1).
  { unfold Z.sub. rewrite inject_Z_plus. reflexivity. }
  assert (Hx1 : x - 1 < cap / inject_Z tpe) by (rewrite Hz in Hc; lra).
  assert (Hm : (x - 1) * inject_Z tpe < cap / inject_Z tpe * inject_Z tpe)
    by (apply Qmult_lt_r; assumption).
  assert (E : cap / inject_Z tpe * inject_Z tpe == cap) by (field; lra).
  rewrite E in Hm. exact Hm.
Qed.

(** From turn [ceil(cap / tpe) + 1] on the ramp has reached the cap. *)
Lemma ramp_reaches_cap (cap : Q) (tpe : Z) (x : Q) :
  (0 < tpe)%Z -> inject_Z (Math_ceil (cap / inject_Z tpe)) <= x - 1 ->
  cap <= (x - 1) * inject_Z tpe.
Proof.
  intros Htpe Hx. pose proof (inject_Z_pos tpe Htpe) as Hp.
  pose proof (Qle_ceiling (cap / inject_Z tpe)) as Hc. unfold Math_ceil in Hx.
  assert (Hm : cap / inject_Z tpe * inject_Z tpe <= (x - 1) * inject_Z tpe).
  { apply Qmult_le_compat_r; lra. }
  assert (E : cap / inject_Z tpe * inject_Z tpe == cap) by (field; lra).
  rewrite E in Hm. exact Hm.
Qed.

Lemma ceil_ge_1 (cap : Q) (tpe : Z) :
  0 < cap -> (0 < tpe)%Z -> 1 <= inject_Z (Math_ceil (cap / inject_Z tpe)).
Proof.
  intros Hcap Htpe. change 1 with (inject_Z 1). rewrite <- Zle_Qle.
  assert (H0 : 0 < inject_Z (Math_ceil (cap / inject_Z tpe))).
  { eapply Qlt_le_trans; [|apply Qle_ceiling].
    apply Qlt_shift_div_l; [now apply inject_Z_pos|]. lra. }
  change 0 with (inject_Z 0) in H0. rewrite <- Zlt_Qlt in H0. lia.
Qed.

(** The graduated average of a conversation of at least one turn lies
    between 0 and the cap. *)
Lemma computeAvgHistoryTokens_bounds (cap turns out : Q) :
  0 <= cap -> 1 <= turns ->
  0 <= computeAvgHistoryTokens cap turns out
  /\ computeAvgHistoryTokens cap turns out <= cap.
Proof.
  intros Hcap Hturns.
  destruct (Qlt_le_dec 0 cap) as [Hpos|Hzero].
  2:{ unfold computeAvgHistoryTokens.
      assert (E : Qle_bool cap 0 = true) by now apply Qle_bool_true.
      rewrite E, orb_true_r. lra. }
  destruct (Z.ltb_spec 0 (computeTokensPerExchange out)) as [Htpe|Htpe].
  2:{ unfold computeAvgHistoryTokens.
      assert (E1 : Qle_bool turns 0 = false) by (apply Qle_bool_false; lra).
      assert (E2 : Qle_bool cap 0 = false) by now apply Qle_bool_false.
      rewrite E1, E2. cbn [orb].
      destruct (Z.leb_spec (computeTokensPerExchange out) 0); [lra | lia]. }
  rewrite computeAvgHistoryTokens_main by (auto; lra). cbv zeta.
  set (tpe := computeTokensPerExchange out) in *.
  pose proof (inject_Z_pos tpe Htpe) as Hp.
  pose proof (ceil_ge_1 cap tpe Hpos Htpe) as Hc1.
  set (c := inject_Z (Math_ceil (cap / inject_Z tpe))) in *.
  assert (Hrc : exists rc, Math_min c turns = rc /\ 1 <= rc /\ rc <= turns /\ rc <= c).
  { destruct (Math_min_cases c turns) as [[H ->]|[H ->]]; eexists;
      (split; [reflexivity|]); lra. }
  destruct Hrc as (rc & -> & Hrc1 & Hrct & Hrcc).
  pose proof (ramp_below_cap cap tpe rc Htpe Hrcc) as Hramp.
  assert (Hm : Math_max 0 (turns - rc) = turns - rc).
  { destruct (Math_max_cases 0 (turns - rc)) as [[_ ->]|[H _]]; [reflexivity | lra]. }
  rewrite Hm.
  assert (HA : 0 <= (rc - 1) * inject_Z tpe) by (apply Qmult_le_0_compat; lra).
  assert (H1 : 0 <= rc * ((rc - 1) * inject_Z tpe)) by (apply Qmult_le_0_compat; lra).
  assert (H2 : 0 <= cap * (turns - rc)) by (apply Qmult_le_0_compat; lra).
  assert (H3 : 0 <= rc * (cap - (1 # 2) * ((rc - 1) * inject_Z tpe)))
    by (apply Qmult_le_0_compat; lra).
  split.
  - apply Qle_shift_div_l; [lra|].
    assert (E1 : inject_Z tpe * rc * (rc - 1) / 2 + cap * (turns - rc)
                 == (1 # 2) * (rc * ((rc - 1) * inject_Z tpe)) + cap * (turns - rc))
      by field.
    rewrite E1. lra.
  - apply Qle_shift_div_r; [lra|].
    assert (E1 : inject_Z tpe * rc * (rc - 1) / 2 + cap * (turns - rc)
                 == cap * turns - rc * (cap - (1 # 2) * ((rc - 1) * inject_Z tpe)))
      by field.
    rewrite E1. lra.
Qed.

(** X1: for a history cap [instTokens >= 0] and at least one request per
    student, the effective instruction tokens lie between 0 and the cap,
    conversational or not, for every output size. *)
Theorem X1_effective_inst_bounds :
  forall (inst reqs out : Q) (conversational : bool),
    0 <= inst -> 1 <= reqs ->
    0 <= getEffectiveInstTokens inst reqs out conversational
    /\ getEffectiveInstTokens inst reqs out conversational <= inst.
Proof.
  intros inst reqs out conv Hinst Hreqs. unfold getEffectiveInstTokens.
  destruct conv; cbn [negb].
  - now apply computeAvgHistoryTokens_bounds.
  - lra.
Qed.

Lemma X1_effective_inst_bounds_witness :
  0 <= getEffectiveInstTokens 2000 12 400 true
  /\ getEffectiveInstTokens 2000 12 400 true <= 2000.
Proof.
  apply (X1_effective_inst_bounds 2000 12 400 true); vm_compute; discriminate.
Defined.

(** X2: with a non-negative cap and output size, the history of a turn
    lies between 0 and the cap and never decreases from one turn to a
    later one. *)
Theorem X2_history_at_turn_monotone :
  forall (cap out turn turn' : Q),
    0 <= cap -> 0 <= out -> turn <= turn' ->
    0 <= computeHistoryAtTurn turn cap out
    /\ computeHistoryAtTurn turn cap out <= computeHistoryAtTurn turn' cap out
    /\ computeHistoryAtTurn turn' cap out <= cap.
Proof.
  intros cap out t t' Hcap Hout Ht.
  pose proof (tokensPerExchange_nonneg out Hout) as Htpe.
  apply inject_Z_nonneg in Htpe.
  unfold computeHistoryAtTurn.
  set (tpe := inject_Z (computeTokensPerExchange out)) in *.
  destruct (Qle_bool t 1) eqn:E1; destruct (Qle_bool t' 1) eqn:E2;
    try apply Qle_bool_true in E1; try apply Qle_bool_false in E1;
    try apply Qle_bool_true in E2; try apply Qle_bool_false in E2.
  - lra.
  - assert (H : 0 <= (t' - 1) * tpe) by (apply Qmult_le_0_compat; lra).
    destruct (Math_min_cases ((t' - 1) * tpe) cap) as [[? ->]|[? ->]]; lra.
  - lra.
  - assert (H : 0 <= (t - 1) * tpe) by (apply Qmult_le_0_compat; lra).
    assert (H' : (t - 1) * tpe <= (t' - 1) * tpe)
      by (apply Qmult_le_compat_r; lra).
    destruct (Math_min_cases ((t - 1) * tpe) cap) as [[? ->]|[? ->]];
      destruct (Math_min_cases ((t' - 1) * tpe) cap) as [[? ->]|[? ->]]; lra.
Qed.

Lemma X2_history_at_turn_monotone_witness :
  0 <= computeHistoryAtTurn 3 2000 400
  /\ computeHistoryAtTurn 3 2000 400 <= computeHistoryAtTurn 7 2000 400
  /\ computeHistoryAtTurn 7 2000 400 <= 2000.
Proof.
  apply (X2_history_at_turn_monotone 2000 400 3 7); vm_compute; discriminate.
Defined.

Section RampSum.
Variables (cap out : Q).
Let tpe := computeTokensPerExchange out.
Let c := Math_ceil (cap / inject_Z tpe).
Hypothesis cap_pos : 0 < cap.
Hypothesis tpe_pos : (0 < tpe)%Z.

Lemma inject_Z_succ (k : nat) :
  inject_Z (Z.of_nat (S k)) == inject_Z (Z.of_nat k) + 1.
Proof. rewrite Nat2Z.inj_succ. unfold Z.succ. now rewrite inject_Z_plus. Qed.

Lemma historyAtTurn_ramp (t : Q) :
  1 <= t -> t <= inject_Z c ->
  computeHistoryAtTurn t cap out == (t - 1) * inject_Z tpe.
Proof.
  intros H1 Hc. unfold computeHistoryAtTurn. fold tpe.
  destruct (Qle_bool t 1) eqn:E.
  - apply Qle_bool_true in E. assert (Et : t == 1) by lra. rewrite Et. ring.
  - pose proof (ramp_below_cap cap tpe t tpe_pos Hc) as Hr.
    destruct (Math_min_cases ((t - 1) * inject_Z tpe) cap) as [[_ ->]|[H _]];
      [reflexivity | lra].
Qed.

Lemma historyAtTurn_capped (t : Q) :
  inject_Z c <= t - 1 -> computeHistoryAtTurn t cap out == cap.
Proof.
  intros Hc. unfold computeHistoryAtTurn. fold tpe.
  pose proof (ceil_ge_1 cap tpe cap_pos tpe_pos) as Hc1. fold c in Hc1.
  assert (E : Qle_bool t 1 = false) by (apply Qle_bool_false; lra).
  rewrite E.
  pose proof (ramp_reaches_cap cap tpe t tpe_pos Hc) as Hr.
  destruct (Math_min_cases ((t - 1) * inject_Z tpe) cap) as [[H ->]|[_ ->]];
    [lra | reflexivity].
Qed.

Lemma sumHistory_ramp (n : nat) :
  (Z.of_nat n <= c)%Z ->
  sumHistoryUpTo n cap out
  == (1 # 2) * (inject_Z tpe * inject_Z (Z.of_nat n) * (inject_Z (Z.of_nat n) - 1)).
Proof.
  induction n as [|k IH]; intros Hn.
  - cbn. ring.
  - cbn [sumHistoryUpTo]. rewrite IH by lia.
    rewrite historyAtTurn_ramp.
    + rewrite inject_Z_succ. ring.
    + change 1 with (inject_Z 1). rewrite <- Zle_Qle. lia.
    + now rewrite <- Zle_Qle.
Qed.

Lemma sumHistory_capped (n : nat) :
  (c <= Z.of_nat n)%Z ->
  sumHistoryUpTo n cap out
  == (1 # 2) * (inject_Z tpe * inject_Z c * (inject_Z c - 1))
     + cap * (inject_Z (Z.of_nat n) - inject_Z c).
Proof.
  induction n as [|k IH]; intros Hn.
  - exfalso. pose proof (ceil_ge_1 cap tpe cap_pos tpe_pos) as H. fold c in H.
    change 1 with (inject_Z 1) in H. rewrite <- Zle_Qle in H. cbn in Hn. lia.
  - destruct (Z.eq_dec (Z.of_nat (S k)) c) as [Heq|Hne].
    + rewrite sumHistory_ramp by lia. rewrite Heq. ring.
    + cbn [sumHistoryUpTo]. rewrite IH by lia.
      rewrite historyAtTurn_capped.
      * rewrite inject_Z_succ. ring.
      * rewrite inject_Z_succ.
        assert (H : inject_Z c <= inject_Z (Z.of_nat k)) by (rewrite <- Zle_Qle; lia).
        lra.
Qed.
End RampSum.

(** The graduated average times the number of turns is the history sent
    over all turns. *)
Lemma avg_times_turns (cap out : Q) (n : nat) :
  0 < cap -> (0 < computeTokensPerExchange out)%Z -> (1 <= n)%nat ->
  inject_Z (Z.of_nat n) * computeAvgHistoryTokens cap (inject_Z (Z.of_nat n)) out
  == sumHistoryUpTo n cap out.
Proof.
  intros Hcap Htpe Hn.
  assert (Hnq : 0 < inject_Z (Z.of_nat n)).
  { change 0 with (inject_Z 0). rewrite <- Zlt_Qlt. lia. }
  rewrite computeAvgHistoryTokens_main by assumption. cbv zeta.
  set (tpe := computeTokensPerExchange out) in *.
  set (c := Math_ceil (cap / inject_Z tpe)).
  set (m := inject_Z (Z.of_nat n)) in *.
  destruct (Math_min_cases (inject_Z c) m) as [[Hle ->]|[Hlt ->]].
  - assert (Hz : (c <= Z.of_nat n)%Z) by (subst m; now rewrite Zle_Qle).
    rewrite (sumHistory_capped cap out Hcap Htpe n Hz). fold tpe c m.
    destruct (Math_max_cases 0 (m - inject_Z c)) as [[_ ->]|[H _]]; [|lra].
    field. lra.
  - assert (Hz : (Z.of_nat n <= c)%Z).
    { subst m. rewrite <- Zlt_Qlt in Hlt. lia. }
    rewrite (sumHistory_ramp cap out Htpe n Hz). fold tpe m.
    destruct (Math_max_cases 0 (m - m)) as [[_ ->]|[H _]]; [|lra].
    field. lra.
Qed.

(** X3: for a positive cap and exchange size, the graduated average over
    [n >= 1] turns is the mean of the per-turn histories of
    [computeHistoryAtTurn] over the turns [1 .. n]. *)
Theorem X3_avg_is_mean_of_turns :
  forall (cap out : Q) (n : nat),
    0 < cap -> (0 < computeTokensPerExchange out)%Z -> (1 <= n)%nat ->
    computeAvgHistoryTokens cap (inject_Z (Z.of_nat n)) out
    == sumHistoryUpTo n cap out / inject_Z (Z.of_nat n).
Proof.
  intros cap out n Hcap Htpe Hn.
  assert (Hnq : 0 < inject_Z (Z.of_nat n)) by (apply inject_Z_pos; lia).
  rewrite <- (avg_times_turns cap out n Hcap Htpe Hn).
  field. lra.
Qed.

Lemma X3_avg_is_mean_of_turns_witness :
  computeAvgHistoryTokens 2000 (inject_Z (Z.of_nat 12)) 400
  == sumHistoryUpTo 12 2000 400 / inject_Z (Z.of_nat 12).
Proof.
  apply (X3_avg_is_mean_of_turns 2000 400 12);
    first [reflexivity | lia | vm_compute; reflexivity].
Defined.

(** ** The progressive submission model *)

(** X4: for a progressive submission over more than one request the draft
    is empty at the first turn, has its full rounded size at the last
    turn, and between two turns [1 <= turn <= turn' <= reqsPerStudent] it
    never shrinks and never exceeds that size; otherwise every turn sends
    the whole submission. *)
Theorem X4_sub_tokens_at_turn :
  forall (turn turn' reqs sub : Q) (progressive : bool),
    (progressive = false \/ reqs <= 1 ->
     computeSubTokensAtTurn turn reqs sub progressive = sub)
    /\ (progressive = true -> 1 < reqs ->
        computeSubTokensAtTurn 1 reqs sub progressive = 0
        /\ computeSubTokensAtTurn reqs reqs sub progressive
           = inject_Z (Math_round sub)
        /\ (0 <= sub -> 1 <= turn -> turn <= turn' -> turn' <= reqs ->
            0 <= computeSubTokensAtTurn turn reqs sub progressive
            /\ computeSubTokensAtTurn turn reqs sub progressive
               <= computeSubTokensAtTurn turn' reqs sub progressive
            /\ computeSubTokensAtTurn turn' reqs sub progressive
               <= inject_Z (Math_round sub))).
Proof.
  intros t t' reqs sub prog. unfold computeSubTokensAtTurn. split.
  - intros [-> | Hr]; [reflexivity|].
    apply Qle_bool_true in Hr. rewrite Hr. now rewrite orb_true_r.
  - intros -> Hr. cbn [negb orb].
    assert (E : Qle_bool reqs 1 = false) by now apply Qle_bool_false.
    rewrite E.
    split; [reflexivity|]. split.
    + f_equal. unfold Math_round. apply Qfloor_comp. field. lra.
    + intros Hsub Ht Htt Htr.
      assert (Hfrac : forall x y, 1 <= x -> x <= y -> y <= reqs ->
                0 <= (x - 1) / (reqs - 1) * sub
                /\ (x - 1) / (reqs - 1) * sub <= (y - 1) / (reqs - 1) * sub
                /\ (y - 1) / (reqs - 1) * sub <= sub).
      { intros x y Hx Hxy Hy.
        assert (Hx0 : 0 <= (x - 1) / (reqs - 1)) by (apply Qle_shift_div_l; lra).
        assert (Hxy' : (x - 1) / (reqs - 1) <= (y - 1) / (reqs - 1)).
        { apply Qle_shift_div_l; [lra|].
          assert (Ey : (x - 1) / (reqs - 1) * (reqs - 1) == x - 1) by (field; lra).
          rewrite Ey. lra. }
        assert (Hy1 : (y - 1) / (reqs - 1) <= 1) by (apply Qle_shift_div_r; lra).
        split; [apply Qmult_le_0_compat; lra|]. split.
        - apply Qmult_le_compat_r; lra.
        - assert (H1 : (y - 1) / (reqs - 1) * sub <= 1 * sub)
            by (apply Qmult_le_compat_r; lra).
          lra. }
      assert (Hround : forall a b, a <= b ->
                inject_Z (Math_round a) <= inject_Z (Math_round b)).
      { intros a b Hab. rewrite <- Zle_Qle. unfold Math_round.
        apply Qfloor_resp_le. lra. }
      assert (Hround0 : forall a, 0 <= a -> 0 <= inject_Z (Math_round a)).
      { intros a Ha. apply inject_Z_nonneg. now apply Math_round_nonneg. }
      destruct (Hfrac t t' Ht Htt Htr) as (F1 & F2 & F3).
      destruct (Hfrac t' t' ltac:(lra) ltac:(lra) Htr) as (G1 & _ & G3).
      destruct (Qle_bool t 1) eqn:E1; destruct (Qle_bool t' 1) eqn:E2.
      * split; [lra|]. split; [lra|]. now apply Hround0.
      * split; [lra|]. split; [now apply Hround0 | now apply Hround].
      * apply Qle_bool_false in E1. apply Qle_bool_true in E2. lra.
      * split; [now apply Hround0|]. split; now apply Hround.
Qed.

Lemma X4_sub_tokens_at_turn_witness :
  computeSubTokensAtTurn 1 12 2000 true = 0
  /\ computeSubTokensAtTurn 12 12 2000 true = inject_Z (Math_round 2000)
  /\ computeSubTokensAtTurn 4 12 2000 true <= computeSubTokensAtTurn 9 12 2000 true.
Proof.
  destruct (X4_sub_tokens_at_turn 4 9 12 2000 true) as [_ H].
  destruct H as (H1 & H2 & H3); [reflexivity | reflexivity |].
  split; [exact H1|]. split; [exact H2|].
  apply H3; vm_compute; discriminate.
Defined.

(** ** The flat strategies *)

Lemma Qmult_le_l_nonneg (x y z : Q) : 0 <= z -> x <= y -> z * x <= z * y.
Proof.
  intros Hz Hxy. rewrite (Qmult_comm z x), (Qmult_comm z y).
  now apply Qmult_le_compat_r.
Qed.

Lemma scale_le (n n' t t' p : Q) :
  0 <= n <= n' -> 0 <= t <= t' -> 0 <= p ->
  n * (t / 1000) * p <= n' * (t' / 1000) * p.
Proof.
  intros Hn Ht Hp. apply Qmult_le_compat_r; [|exact Hp].
  apply Qmult_le_compat_nonneg; [exact Hn|].
  split; [apply Qdiv_1000_nonneg; lra|].
  apply Qle_shift_div_l; [reflexivity|].
  assert (E : t / 1000 * 1000 == t) by field. rewrite E. lra.
Qed.

(** X5: with non-negative input and output prices and a non-negative tier
    multiplier, No-Caching never gets cheaper when the students, the
    requests per student or any token count grow: every field of the
    breakdown is monotone. *)
Theorem X5_noCaching_monotone :
  forall (model : BedrockModel) (a b : TemplatePreset) (tier : Q),
    0 <= input_1k (pricing model) -> 0 <= output_1k (pricing model) ->
    0 <= tier -> presetLe a b ->
    freshInput (noCachingOf model a tier) <= freshInput (noCachingOf model b tier)
    /\ output (noCachingOf model a tier) <= output (noCachingOf model b tier)
    /\ total (noCachingOf model a tier) <= total (noCachingOf model b tier).
Proof.
  intros model a b tier Hi Ho Ht (Hs & Hr & Hsys & Hctx & Hsub & Hinst & Hout).
  unfold noCachingOf, computeNoCaching. cbn [freshInput output total].
  assert (Hn : 0 <= students a * reqsPerStudent a
               <= students b * reqsPerStudent b).
  { split; [apply Qmult_le_0_compat; lra|].
    apply Qmult_le_compat_nonneg; assumption. }
  assert (Hpi : 0 <= input_1k (pricing model) * tier)
    by (apply Qmult_le_0_compat; assumption).
  assert (Hpo : 0 <= output_1k (pricing model) * tier)
    by (apply Qmult_le_0_compat; assumption).
  assert (F : students a * reqsPerStudent a
              * ((sysTokens a + ctxTokens a + subTokens a + instTokens a) / 1000)
              * (input_1k (pricing model) * tier)
              <= students b * reqsPerStudent b
                 * ((sysTokens b + ctxTokens b + subTokens b + instTokens b) / 1000)
                 * (input_1k (pricing model) * tier)).
  { apply scale_le; [exact Hn | lra | exact Hpi]. }
  assert (G : students a * reqsPerStudent a * (outputTokens a / 1000)
              * (output_1k (pricing model) * tier)
              <= students b * reqsPerStudent b * (outputTokens b / 1000)
                 * (output_1k (pricing model) * tier)).
  { apply scale_le; [exact Hn | lra | exact Hpo]. }
  repeat split; lra.
Qed.

Lemma X5_noCaching_monotone_witness :
  total (noCachingOf sonnetLike scenario 1)
  <= total (noCachingOf sonnetLike (setParam K_ctxTokens 60000 scenario) 1).
Proof.
  apply (X5_noCaching_monotone sonnetLike scenario
           (setParam K_ctxTokens 60000 scenario) 1);
    try (vm_compute; discriminate).
  unfold presetLe. cbn. repeat split; vm_compute; discriminate.
Defined.

(** X6: without batch prices [computeBatch] is [computeNoCaching]; with
    batch prices that do not exceed the standard ones (and non-negative
    workload and multiplier) the batch total does not exceed the
    No-Caching total. *)
Theorem X6_batch_fallback :
  forall (model : BedrockModel) (st rq sys ctx sub inst out tier : Q),
    (batch_input_1k (pricing model) = None ->
     batch_output_1k (pricing model) = None ->
     computeBatch model st rq sys ctx sub inst out tier
     = computeNoCaching model st rq sys ctx sub inst out tier)
    /\ (nullish (batch_input_1k (pricing model)) (input_1k (pricing model))
        <= input_1k (pricing model) ->
        nullish (batch_output_1k (pricing model)) (output_1k (pricing model))
        <= output_1k (pricing model) ->
        0 <= tier -> 0 <= st * rq -> 0 <= sys + ctx + sub + inst -> 0 <= out ->
        total (computeBatch model st rq sys ctx sub inst out tier)
        <= total (computeNoCaching model st rq sys ctx sub inst out tier)).
Proof.
  intros model st rq sys ctx sub inst out tier. split.
  - intros Hi Ho. unfold computeBatch, computeNoCaching. now rewrite Hi, Ho.
  - intros Hi Ho Ht Hn Htok Hout.
    unfold computeBatch, computeNoCaching. cbn [total].
    assert (F : st * rq * ((sys + ctx + sub + inst) / 1000)
                * (nullish (batch_input_1k (pricing model)) (input_1k (pricing model))
                   * tier)
                <= st * rq * ((sys + ctx + sub + inst) / 1000)
                   * (input_1k (pricing model) * tier)).
    { apply Qmult_le_l_nonneg; [qnonneg|]. apply Qmult_le_compat_r; assumption. }
    assert (G : st * rq * (out / 1000)
                * (nullish (batch_output_1k (pricing model)) (output_1k (pricing model))
                   * tier)
                <= st * rq * (out / 1000) * (output_1k (pricing model) * tier)).
    { apply Qmult_le_l_nonneg; [qnonneg|]. apply Qmult_le_compat_r; assumption. }
    lra.
Qed.

Lemma X6_batch_fallback_witness :
  total (computeBatch novaLike 30 5 1000 15000 2000 500 1000 1)
  <= total (computeNoCaching novaLike 30 5 1000 15000 2000 500 1000 1).
Proof.
  apply (X6_batch_fallback novaLike 30 5 1000 15000 2000 500 1000 1);
    vm_compute; discriminate.
Defined.



Lemma getCacheWritePrice_no_1hour (model : BedrockModel) :
  cache_write_1hour_1k (pricing model) = None ->
  getCacheWritePrice model TTL_1hour = getCacheWritePrice model TTL_5min.
Proof. intros H. unfold getCacheWritePrice. now rewrite H. Qed.

(** X8: for a model without a 1-hour cache-write price, asking for the
    1-hour TTL gives exactly the results of the 5-minute TTL in every
    function that takes the TTL. *)
Theorem X8_one_hour_falls_back :
  forall (model : BedrockModel)
         (st rq sys ctx sub inst out ss tier window : Q) (cacheable : bool),
    cache_write_1hour_1k (pricing model) = None ->
    computeStrategyA model st rq sys ctx sub inst out tier TTL_1hour
    = computeStrategyA model st rq sys ctx sub inst out tier TTL_5min
    /\ computeStrategyB model st rq sys ctx sub inst out tier cacheable TTL_1hour
       = computeStrategyB model st rq sys ctx sub inst out tier cacheable TTL_5min
    /\ computeSumCacheAssessment model st rq sys ctx sub inst out ss tier TTL_1hour
       = computeSumCacheAssessment model st rq sys ctx sub inst out ss tier TTL_5min
    /\ computeSumCacheSummary model st rq sys ctx sub inst out ss tier TTL_1hour
       = computeSumCacheSummary model st rq sys ctx sub inst out ss tier TTL_5min
    /\ computeSummarizationCost model st rq sys ctx sub inst out ss tier TTL_1hour
         window
       = computeSummarizationCost model st rq sys ctx sub inst out ss tier TTL_5min
           window.
Proof.
  intros model st rq sys ctx sub inst out ss tier window cacheable H.
  pose proof (getCacheWritePrice_no_1hour model H) as E.
  unfold computeStrategyA, computeStrategyB, computeSumCacheAssessment,
    computeSumCacheSummary, computeSummarizationCost.
  rewrite E. repeat split; reflexivity.
Qed.

Lemma X8_one_hour_falls_back_witness :
  computeStrategyA novaLike 30 5 1000 15000 2000 500 1000 1 TTL_1hour
  = computeStrategyA novaLike 30 5 1000 15000 2000 500 1000 1 TTL_5min.
Proof.
  apply (X8_one_hour_falls_back novaLike 30 5 1000 15000 2000 500 1000 500 1 0 true).
  reflexivity.
Defined.

(** ** The summarization analysis *)

(** X9: the total of [computeSummarizationCost] is the total of the
    strategy [computeSumCacheAssessment] on the same inputs, its
    summarization-call cost is that strategy's [summarizationCalls], the
    savings are the window cost minus that total, and the savings percentage
    is 0 (no division) when the window cost is not positive. *)
Theorem X9_summarization_cost_agrees :
  forall (model : BedrockModel)
         (st rq sys ctx sub inst out ss tier : Q) (ttl : CacheTTL) (window : Q),
    let r := computeSummarizationCost model st rq sys ctx sub inst out ss tier ttl
               window in
    let s := computeSumCacheAssessment model st rq sys ctx sub inst out ss tier ttl in
    totalCost r == total (breakdown s)
    /\ summarizationCallCost r = summarizationCalls s
    /\ mainCallCost r == componentSum (breakdown s)
    /\ vsWindowSavings r == window - total (breakdown s)
    /\ (window <= 0 -> vsWindowSavingsPct r = 0)
    /\ (0 < window ->
        vsWindowSavingsPct r == (window - total (breakdown s)) / window * 100).
Proof.
  intros model st rq sys ctx sub inst out ss tier ttl window r s. subst r s.
  unfold computeSummarizationCost, computeSumCacheAssessment, componentSum.
  cbn [totalCost summarizationCallCost mainCallCost vsWindowSavings
         vsWindowSavingsPct total breakdown summarizationCalls cacheWrite
         cacheRead freshInput output guardrails].
  split; [reflexivity|]. split; [reflexivity|]. split; [ring|].
  split; [reflexivity|]. split.
  - intros Hw. apply Qlt_bool_false in Hw. now rewrite Hw.
  - intros Hw. pose proof Hw as Hb. apply Qlt_bool_true in Hb. rewrite Hb.
    reflexivity.
Qed.

Lemma X9_summarization_cost_agrees_witness :
  vsWindowSavingsPct
    (computeSummarizationCost sonnetLike 30 40 1000 2000 2000 6500 400 500 1
       TTL_5min 0) = 0.
Proof.
  apply (X9_summarization_cost_agrees sonnetLike 30 40 1000 2000 2000 6500 400 500 1
           TTL_5min 0).
  vm_compute. discriminate.
Defined.



(** ** The summarization trace *)

Lemma sumQ_snoc (l : list Q) (x : Q) : sumQ (l ++ [x]) == sumQ l + x.
Proof.
  induction l as [|y l IH]; cbn; [ring|].
  fold (sumQ (l ++ [x])). fold (sumQ l). rewrite IH. ring.
Qed.

Lemma StronglySorted_snoc (l : list Z) (x : Z) :
  StronglySorted Z.lt l -> Forall (fun y => (y < x)%Z) l ->
  StronglySorted Z.lt (l ++ [x]).
Proof.
  induction 1 as [|a l Hs IH Ha]; intros Hx; cbn.
  - repeat constructor.
  - apply Forall_cons_1 in Hx as [Hax Hx].
    constructor; [now apply IH|].
    apply Forall_app. split; [exact Ha|]. now constructor.
Qed.

Section TraceLoop.
Variables (reqs cap : Q) (tpe : Z) (ss : Q).

Let inv (t : Z) (s : SimState) : Prop :=
  traceInv reqs cap tpe ss t (sim_historyPerTurn s) (sim_summarizationTurns s)
    (sim_total s).

(** The running history is the successor of the last recorded one. *)
Let linked (s : SimState) : Prop :=
  forall h : Q,
    last (sim_historyPerTurn s) = Some h ->
    sim_history s = nextHistory cap tpe ss h.

Lemma simBody_events (t : Z) (s : SimState) :
  sim_summarizationTurns (simBody reqs cap tpe ss t s)
  = if Qle_bool cap (sim_history s + inject_Z tpe) && Qlt_bool (inject_Z t) reqs
    then sim_summarizationTurns s ++ [t]
    else sim_summarizationTurns s.
Proof.
  unfold simBody.
  destruct (Qle_bool cap (sim_history s + inject_Z tpe)
            && Qlt_bool (inject_Z t) reqs); reflexivity.
Qed.

Lemma simBody_history (t : Z) (s : SimState) :
  inject_Z t < reqs ->
  sim_history (simBody reqs cap tpe ss t s)
  = nextHistory cap tpe ss (sim_history s).
Proof.
  intros Ht. apply Qlt_bool_true in Ht. unfold simBody, nextHistory.
  rewrite Ht, andb_true_r.
  destruct (Qle_bool cap (sim_history s + inject_Z tpe)); reflexivity.
Qed.

Lemma simBody_inv (t : Z) (s : SimState) :
  (1 <= t)%Z -> inject_Z (t - 1) < reqs ->
  inv t s -> linked s -> inv (t + 1) (simBody reqs cap tpe ss t s).
Proof.
  intros Ht Hprev (Hlen & Hadj & Hev & Hsort & Htot) Hlink.
  unfold inv, traceInv.
  rewrite simBody_historyPerTurn, simBody_total, simBody_events.
  set (hpt := sim_historyPerTurn s) in *.
  set (h0 := sim_history s) in *.
  assert (Hidx : Z.to_nat (t - 1) = length hpt) by lia.
  split; [rewrite length_app; cbn; lia|]. split; [|split; [|split]].
  - intros i h h' Hi HSi.
    destruct (Nat.lt_ge_cases (S i) (length hpt)) as [Hlt|Hge].
    + rewrite lookup_app_l in Hi by lia. rewrite lookup_app_l in HSi by lia.
      now apply (Hadj i).
    + rewrite lookup_app_r in HSi by lia.
      apply list_lookup_singleton_Some in HSi as [Hz <-].
      assert (Hi' : i = pred (length hpt)) by lia.
      rewrite lookup_app_l in Hi by lia.
      apply Hlink. change (last hpt = Some h).
      rewrite last_lookup, <- Hi'. exact Hi.
  - intros x.
    assert (Hold : forall y, (1 <= y < t)%Z ->
              (hpt ++ [h0]) !! Z.to_nat (y - 1) = hpt !! Z.to_nat (y - 1)).
    { intros y Hy. apply lookup_app_l. lia. }
    assert (Hnew : (hpt ++ [h0]) !! Z.to_nat (t - 1) = Some h0).
    { rewrite Hidx, lookup_app_r by lia. now rewrite Nat.sub_diag. }
    destruct (Qle_bool cap (h0 + inject_Z tpe)) eqn:Ecap;
      destruct (Qlt_bool (inject_Z t) reqs) eqn:Et; cbn [andb];
      rewrite ?elem_of_app, ?list_elem_of_singleton, (Hev x).
    + split.
      * intros [(Hx & Hr & h & Hh & Hc) | ->].
        -- split; [lia|]. split; [exact Hr|]. exists h. now rewrite Hold.
        -- split; [lia|]. split; [now apply Qlt_bool_true|].
           exists h0. split; [exact Hnew | now apply Qle_bool_true].
      * intros (Hx & Hr & h & Hh & Hc).
        destruct (Z.eq_dec x t) as [->|Hne]; [now right|]. left.
        split; [lia|]. split; [exact Hr|]. exists h.
        now rewrite <- Hold by lia.
    + apply Qlt_bool_false in Et. split.
      * intros (Hx & Hr & h & Hh & Hc).
        split; [lia|]. split; [exact Hr|]. exists h. now rewrite Hold.
      * intros (Hx & Hr & h & Hh & Hc).
        assert (x <> t) by (intros ->; lra).
        split; [lia|]. split; [exact Hr|]. exists h. now rewrite <- Hold by lia.
    + apply Qle_bool_false in Ecap. split.
      * intros (Hx & Hr & h & Hh & Hc).
        split; [lia|]. split; [exact Hr|]. exists h. now rewrite Hold.
      * intros (Hx & Hr & h & Hh & Hc).
        assert (x <> t).
        { intros ->. rewrite Hnew in Hh. injection Hh as <-. lra. }
        split; [lia|]. split; [exact Hr|]. exists h. now rewrite <- Hold by lia.
    + apply Qle_bool_false in Ecap. split.
      * intros (Hx & Hr & h & Hh & Hc).
        split; [lia|]. split; [exact Hr|]. exists h. now rewrite Hold.
      * intros (Hx & Hr & h & Hh & Hc).
        assert (x <> t).
        { intros ->. rewrite Hnew in Hh. injection Hh as <-. lra. }
        split; [lia|]. split; [exact Hr|]. exists h. now rewrite <- Hold by lia.
  - destruct (Qle_bool cap (h0 + inject_Z tpe) && Qlt_bool (inject_Z t) reqs);
      [|exact Hsort].
    apply StronglySorted_snoc; [exact Hsort|].
    apply List.Forall_forall. intros y Hy.
    apply list_elem_of_In, Hev in Hy. lia.
  - rewrite sumQ_snoc, Htot. reflexivity.
Qed.

Lemma simBody_linked (t : Z) (s : SimState) :
  inject_Z t < reqs -> linked (simBody reqs cap tpe ss t s).
Proof.
  intros Ht h Hh. rewrite simBody_historyPerTurn, last_snoc in Hh.
  injection Hh as <-. now apply simBody_history.
Qed.

Lemma simLoop_inv (n : nat) :
  forall (t : Z) (s : SimState),
    (1 <= t)%Z -> inject_Z (t + Z.of_nat n - 1) <= reqs ->
    inv t s -> (n <> O -> linked s) ->
    inv (t + Z.of_nat n) (forTurns n t (simBody reqs cap tpe ss) s).
Proof.
  induction n as [|n IH]; intros t s Ht Hlast Hinv Hlink.
  - cbn [forTurns]. now replace (t + Z.of_nat 0)%Z with t by lia.
  - rewrite forTurns_S.
    replace (t + Z.of_nat (S n))%Z with (t + 1 + Z.of_nat n)%Z by lia.
    assert (Hprev : inject_Z (t - 1) < reqs).
    { eapply Qlt_le_trans; [|exact Hlast]. rewrite <- Zlt_Qlt. lia. }
    apply IH.
    + lia.
    + now replace (t + 1 + Z.of_nat n - 1)%Z with (t + Z.of_nat (S n) - 1)%Z by lia.
    + apply simBody_inv; auto.
    + intros Hn. apply simBody_linked.
      eapply Qlt_le_trans; [|exact Hlast]. rewrite <- Zlt_Qlt. lia.
Qed.
End TraceLoop.

(** The trace of a non-degenerate simulation satisfies the invariant after
    the last turn. *)
Lemma simulateSummarization_inv (reqs cap out ss : Q) :
  0 < reqs -> 0 < cap -> (0 < computeTokensPerExchange out)%Z ->
  let sim := simulateSummarization reqs cap out ss in
  traceInv reqs cap (computeTokensPerExchange out) ss
    (1 + Z.of_nat (turnCount reqs))
    (historyPerTurn sim) (summarizationTurns sim) (totalHistoryTokensSent sim).
Proof.
  intros Hreqs Hcap Htpe sim. subst sim.
  rewrite simulateSummarization_main by assumption. cbv zeta.
  cbn [historyPerTurn summarizationTurns totalHistoryTokensSent].
  apply (simLoop_inv reqs cap (computeTokensPerExchange out) ss (turnCount reqs) 1).
  - lia.
  - unfold turnCount.
    assert (H0 : (0 <= Qfloor reqs)%Z).
    { change 0%Z with (Qfloor 0). apply Qfloor_resp_le. lra. }
    rewrite Z2Nat.id by lia.
    replace (1 + Qfloor reqs - 1)%Z with (Qfloor reqs) by lia. apply Qfloor_le.
  - unfold traceInv. cbn. split; [reflexivity|]. split; [intros i h h' H; discriminate|].
    split; [|split; [constructor | reflexivity]].
    intros x. rewrite elem_of_nil. split; [tauto|]. intros (Hx & _). lia.
  - intros _ h Hh. discriminate.
Qed.

Lemma sorted_range_length (l : list Z) :
  forall lo hi : Z,
    StronglySorted Z.lt l -> Forall (fun x => (lo <= x <= hi)%Z) l ->
    (Z.of_nat (length l) <= Z.max 0 (hi - lo + 1))%Z.
Proof.
  induction l as [|a l IH]; intros lo hi Hs Hr; [cbn; lia|].
  apply StronglySorted_inv in Hs as [Hs Ha].
  apply Forall_cons_1 in Hr as [Har Hr].
  assert (Hr' : Forall (fun x => (a + 1 <= x <= hi)%Z) l).
  { apply List.Forall_forall. intros x Hx.
    rewrite List.Forall_forall in Ha, Hr. specialize (Ha x Hx). specialize (Hr x Hx).
    lia. }
  specialize (IH (a + 1)%Z hi Hs Hr'). cbn [length]. lia.
Qed.

(** X11: the total of a trace is the sum of its recorded histories; for a
    non-degenerate simulation one history is recorded per turn, the average
    is that sum over [reqsPerStudent], and there are at most as many
    summarizations as turns; if [tokensPerExchange], [reqsPerStudent] or the
    cap is not positive the result is empty. *)
Theorem X11_trace_aggregates :
  forall (reqs cap out ss : Q),
    let tpe := computeTokensPerExchange out in
    let sim := simulateSummarization reqs cap out ss in
    totalHistoryTokensSent sim == sumQ (historyPerTurn sim)
    /\ (0 < reqs -> 0 < cap -> (0 < tpe)%Z ->
        length (historyPerTurn sim) = turnCount reqs
        /\ avgHistoryPerTurn sim == sumQ (historyPerTurn sim) / reqs
        /\ (0 <= numSummarizations sim <= Z.of_nat (turnCount reqs))%Z
        /\ turnsPerCycle sim = Math_ceil ((cap - ss) / inject_Z tpe))
    /\ ((tpe <= 0)%Z \/ reqs <= 0 \/ cap <= 0 ->
        historyPerTurn sim = [] /\ summarizationTurns sim = []
        /\ numSummarizations sim = 0%Z /\ avgHistoryPerTurn sim = 0
        /\ turnsPerCycle sim = 0%Z).
Proof.
  intros reqs cap out ss tpe sim.
  assert (Hnd : 0 < reqs -> 0 < cap -> (0 < tpe)%Z ->
                totalHistoryTokensSent sim == sumQ (historyPerTurn sim)
                /\ length (historyPerTurn sim) = turnCount reqs
                /\ avgHistoryPerTurn sim == sumQ (historyPerTurn sim) / reqs
                /\ (0 <= numSummarizations sim <= Z.of_nat (turnCount reqs))%Z
                /\ turnsPerCycle sim = Math_ceil ((cap - ss) / inject_Z tpe)).
  { intros Hr Hc Ht.
    destruct (simulateSummarization_inv reqs cap out ss Hr Hc Ht)
      as (Hlen & _ & Hev & Hsort & Htot).
    fold sim tpe in Hlen, Hev, Hsort, Htot.
    split; [exact Htot|]. split; [rewrite Hlen; lia|].
    subst sim. rewrite simulateSummarization_main in * by assumption.
    cbv zeta in *.
    cbn [historyPerTurn summarizationTurns totalHistoryTokensSent
           avgHistoryPerTurn numSummarizations turnsPerCycle] in *.
    split; [now rewrite Htot|]. split; [|reflexivity].
    split; [lia|].
    match goal with
    | |- (Z.of_nat (length ?l) <= _)%Z =>
        pose proof (sorted_range_length l 1 (Z.of_nat (turnCount reqs)) Hsort) as Hb
    end.
    rewrite Hb; [lia|].
    apply List.Forall_forall. intros x Hx. apply list_elem_of_In, Hev in Hx. lia. }
  assert (Hdg : (tpe <= 0)%Z \/ reqs <= 0 \/ cap <= 0 ->
                sim = {| historyPerTurn := []; summarizationTurns := [];
                         totalHistoryTokensSent := 0; avgHistoryPerTurn := 0;
                         numSummarizations := 0; turnsPerCycle := 0 |}).
  { intros H. now apply simulateSummarization_degenerate. }
  split; [|split].
  - destruct (Z.ltb_spec 0 tpe) as [Ht|Ht];
      [destruct (Qlt_le_dec 0 reqs) as [Hr|Hr];
       [destruct (Qlt_le_dec 0 cap) as [Hc|Hc]|]|].
    + now apply Hnd.
    + rewrite Hdg by auto. reflexivity.
    + rewrite Hdg by auto. reflexivity.
    + rewrite Hdg by auto. reflexivity.
  - intros Hr Hc Ht. now apply Hnd.
  - intros H. rewrite (Hdg H). repeat split; reflexivity.
Qed.

Lemma X11_trace_aggregates_witness :
  length (historyPerTurn (simulateSummarization 12 2000 400 500)) = turnCount 12
  /\ historyPerTurn (simulateSummarization 12 0 400 500) = [].
Proof.
  destruct (X11_trace_aggregates 12 2000 400 500) as (_ & H & _).
  destruct (X11_trace_aggregates 12 0 400 500) as (_ & _ & H0).
  split.
  - apply H; [reflexivity | reflexivity | vm_compute; reflexivity].
  - apply H0. right. right. vm_compute. discriminate.
Defined.

(** X12: in a non-degenerate simulation each recorded history follows from
    the one before: it is the summary size if that one plus an exchange
    reached the cap, and that sum otherwise.  A turn [t] is a summarization
    turn exactly when it is not the last turn of the conversation
    ([t < reqsPerStudent]) and its history plus an exchange reached the
    cap; the summarization turns are recorded in increasing order. *)
Theorem X12_trace_recurrence :
  forall (reqs cap out ss : Q),
    let tpe := computeTokensPerExchange out in
    let sim := simulateSummarization reqs cap out ss in
    0 < reqs -> 0 < cap -> (0 < tpe)%Z ->
    (forall (i : nat) (h h' : Q),
        historyPerTurn sim !! i = Some h ->
        historyPerTurn sim !! S i = Some h' ->
        h' = if Qle_bool cap (h + inject_Z tpe) then ss else h + inject_Z tpe)
    /\ (forall t : Z,
           t ∈ summarizationTurns sim
           <-> (1 <= t)%Z /\ inject_Z t < reqs
               /\ exists h : Q,
                    historyPerTurn sim !! Z.to_nat (t - 1) = Some h
                    /\ cap <= h + inject_Z tpe)
    /\ StronglySorted Z.lt (summarizationTurns sim).
Proof.
  intros reqs cap out ss tpe sim Hr Hc Ht.
  destruct (simulateSummarization_inv reqs cap out ss Hr Hc Ht)
    as (Hlen & Hadj & Hev & Hsort & _).
  fold sim tpe in Hlen, Hadj, Hev, Hsort.
  split; [exact Hadj|]. split; [|exact Hsort].
  intros t. rewrite (Hev t). split.
  - intros (Hx & Hlt & Hh). split; [lia|]. split; assumption.
  - intros (Hx & Hlt & h & Hh & Hcap). split; [|split; [assumption | eauto]].
    apply lookup_lt_Some in Hh. lia.
Qed.

Lemma X12_trace_recurrence_witness :
  StronglySorted Z.lt (summarizationTurns (simulateSummarization 12 2000 400 500)).
Proof.
  apply (X12_trace_recurrence 12 2000 400 500);
    first [reflexivity | vm_compute; reflexivity].
Defined.

(** The first recorded history is 0. *)
Lemma trace_head (reqs cap out ss : Q) :
  1 <= reqs -> 0 < cap -> (0 < computeTokensPerExchange out)%Z ->
  historyPerTurn (simulateSummarization reqs cap out ss) !! 0%nat = Some 0.
Proof.
  intros Hreqs Hcap Htpe.
  rewrite simulateSummarization_main by (auto; lra). cbv zeta.
  cbn [historyPerTurn]. pose proof (turnCount_pos reqs Hreqs) as Hfl.
  unfold turnCount. destruct (Z.to_nat (Qfloor reqs)) as [|n] eqn:En; [lia|].
  rewrite forTurns_S.
  match goal with
  | |- sim_historyPerTurn (forTurns n ?t ?body ?s) !! _ = _ =>
      destruct (simLoop_extends reqs cap (computeTokensPerExchange out) ss n t s)
        as [l Hl]
  end.
  rewrite Hl, simBody_historyPerTurn. reflexivity.
Qed.

(** X13: when even after the last turn the ramp stays below the cap
    ([floor(reqsPerStudent) * tokensPerExchange < historyCap]), no
    summarization fires and the recorded history of turn [i + 1] is
    [i * tokensPerExchange], the value [computeHistoryAtTurn] gives for that
    turn. *)
Theorem X13_no_summarization_below_cap :
  forall (reqs cap out ss : Q),
    let tpe := computeTokensPerExchange out in
    let sim := simulateSummarization reqs cap out ss in
    1 <= reqs -> (0 < tpe)%Z ->
    inject_Z (Z.of_nat (turnCount reqs)) * inject_Z tpe < cap ->
    summarizationTurns sim = []
    /\ numSummarizations sim = 0%Z
    /\ forall (i : nat) (h : Q),
         historyPerTurn sim !! i = Some h ->
         h == inject_Z (Z.of_nat i) * inject_Z tpe
         /\ h == computeHistoryAtTurn (inject_Z (Z.of_nat (S i))) cap out.
Proof.
  intros reqs cap out ss tpe sim Hreqs Htpe Hbelow.
  pose proof (inject_Z_pos tpe Htpe) as Hp.
  pose proof (turnCount_pos reqs Hreqs) as Hfl.
  assert (Hn : 1 <= inject_Z (Z.of_nat (turnCount reqs))).
  { change 1 with (inject_Z 1). rewrite <- Zle_Qle. unfold turnCount. lia. }
  assert (Hcap : 0 < cap).
  { assert (0 <= (inject_Z (Z.of_nat (turnCount reqs)) - 1) * inject_Z tpe)
      by (apply Qmult_le_0_compat; lra). lra. }
  assert (Hr : 0 < reqs) by lra.
  destruct (simulateSummarization_inv reqs cap out ss Hr Hcap Htpe)
    as (Hlen & Hadj & Hev & _ & _).
  fold sim tpe in Hlen, Hadj, Hev.
  assert (Hlen' : length (historyPerTurn sim) = turnCount reqs) by lia.
  assert (Hidx : forall i : nat, (i < turnCount reqs)%nat ->
            (inject_Z (Z.of_nat i) + 1) * inject_Z tpe < cap).
  { intros i Hi.
    assert (Hle : inject_Z (Z.of_nat i) + 1 <= inject_Z (Z.of_nat (turnCount reqs))).
    { rewrite <- inject_Z_succ. rewrite <- Zle_Qle. lia. }
    assert ((inject_Z (Z.of_nat i) + 1) * inject_Z tpe
            <= inject_Z (Z.of_nat (turnCount reqs)) * inject_Z tpe)
      by (apply Qmult_le_compat_r; lra).
    lra. }
  assert (Hramp : forall (i : nat) (h : Q),
            historyPerTurn sim !! i = Some h ->
            h == inject_Z (Z.of_nat i) * inject_Z tpe).
  { induction i as [|i IH]; intros h Hh.
    - unfold sim in Hh. rewrite trace_head in Hh by assumption.
      injection Hh as <-. cbn. ring.
    - destruct (lookup_lt_is_Some_2 (historyPerTurn sim) i) as [h0 Hh0].
      { apply lookup_lt_Some in Hh. lia. }
      specialize (IH h0 Hh0). rewrite (Hadj i h0 h Hh0 Hh).
      assert (Hi : (S i < turnCount reqs)%nat \/ S i = turnCount reqs \/ False).
      { apply lookup_lt_Some in Hh. lia. }
      assert (Hlt : h0 + inject_Z tpe < cap).
      { apply lookup_lt_Some in Hh.
        pose proof (Hidx i ltac:(lia)) as Hb. rewrite IH.
        assert (E : inject_Z (Z.of_nat i) * inject_Z tpe + inject_Z tpe
                    == (inject_Z (Z.of_nat i) + 1) * inject_Z tpe) by ring.
        rewrite E. exact Hb. }
      apply Qle_bool_false in Hlt. unfold nextHistory. rewrite Hlt.
      rewrite IH, inject_Z_succ. ring. }
  assert (Hnone : summarizationTurns sim = []).
  { apply elem_of_nil_inv. intros x Hx. apply Hev in Hx as (Hx & _ & h & Hh & Hc).
    pose proof (Hramp _ _ Hh) as Eh.
    pose proof (lookup_lt_Some _ _ _ Hh) as Hi.
    pose proof (Hidx (Z.to_nat (x - 1)) ltac:(lia)) as Hb.
    rewrite Eh in Hc.
    assert (E : inject_Z (Z.of_nat (Z.to_nat (x - 1))) * inject_Z tpe + inject_Z tpe
                == (inject_Z (Z.of_nat (Z.to_nat (x - 1))) + 1) * inject_Z tpe) by ring.
    rewrite E in Hc. lra. }
  split; [exact Hnone|]. split.
  - unfold sim in *. rewrite simulateSummarization_main in * by assumption.
    cbv zeta in *. cbn [numSummarizations summarizationTurns] in *.
    now rewrite Hnone.
  - intros i h Hh. pose proof (Hramp i h Hh) as Eh. split; [exact Eh|].
    rewrite Eh. unfold computeHistoryAtTurn. fold tpe.
    pose proof (lookup_lt_Some _ _ _ Hh) as Hi.
    pose proof (Hidx i ltac:(lia)) as Hb.
    assert (Hi0 : 0 <= inject_Z (Z.of_nat i)).
    { apply inject_Z_nonneg. lia. }
    destruct (Qle_bool (inject_Z (Z.of_nat (S i))) 1) eqn:E1.
    + apply Qle_bool_true in E1. rewrite inject_Z_succ in E1.
      assert (E0 : inject_Z (Z.of_nat i) == 0) by lra. rewrite E0. ring.
    + assert (Hlt : (inject_Z (Z.of_nat (S i)) - 1) * inject_Z tpe < cap).
      { rewrite inject_Z_succ.
        assert (0 <= 1 * inject_Z tpe) by lra.
        assert (E : (inject_Z (Z.of_nat i) + 1 - 1) * inject_Z tpe
                    == (inject_Z (Z.of_nat i) + 1) * inject_Z tpe - 1 * inject_Z tpe)
          by ring.
        rewrite E. lra. }
      destruct (Math_min_cases ((inject_Z (Z.of_nat (S i)) - 1) * inject_Z tpe) cap)
        as [[_ ->]|[H _]]; [|lra].
      rewrite inject_Z_succ. ring.
Qed.

Lemma X13_no_summarization_below_cap_witness :
  summarizationTurns (simulateSummarization 5 20000 400 500) = [].
Proof.
  apply (X13_no_summarization_below_cap 5 20000 400 500);
    first [reflexivity | vm_compute; reflexivity | vm_compute; discriminate].
Defined.

(** ** The cache-prefix-plus-summary strategy without summaries *)


Section PassWithoutEvents.
Variables (sim : SummarizationSim).
Variables (prefix subTok ss pInput pWrite pRead : Q).
Hypothesis no_events : summarizationTurns sim = [].

Let body := passBody sim prefix (prefix + ss) subTok ss pInput pWrite pRead.





End PassWithoutEvents.




(* ------------------------------------------------------------------ *)
(** ** Sorting with a comparator *)

Section SortBy.
Context {A : Type} (cmp : A -> A -> Q).
Hypothesis cmp_total : forall a b : A, cmp a b <= 0 \/ cmp b a <= 0.
Hypothesis cmp_trans :
  forall a b c : A, cmp a b <= 0 -> cmp b c <= 0 -> cmp a c <= 0.

Lemma insertBy_sorted (x : A) (l : list A) :
  StronglySorted (fun a b => cmp a b <= 0) l ->
  StronglySorted (fun a b => cmp a b <= 0) (insertBy cmp x l).
Proof.
  induction l as [|y l IH]; intros Hs; cbn.
  - repeat constructor.
  - apply StronglySorted_inv in Hs as [Hs Hy].
    destruct (Qle_bool (cmp x y) 0) eqn:E.
    + apply Qle_bool_true in E.
      constructor; [constructor; assumption|].
      constructor; [exact E|].
      eapply Forall_impl; [exact Hy|]. intros z Hz. cbn in Hz |- *. eauto.
    + apply Qle_bool_false in E.
      constructor; [now apply IH|].
      eapply Permutation_Forall; [symmetry; apply insertBy_perm|].
      constructor; [|exact Hy].
      destruct (cmp_total y x) as [H|H]; [exact H | lra].
Qed.

Lemma Array_sort_sorted (l : list A) :
  StronglySorted (fun a b => cmp a b <= 0) (Array_sort cmp l).
Proof.
  induction l as [|x l IH]; cbn; [constructor|].
  fold (Array_sort cmp l). now apply insertBy_sorted.
Qed.

(** The first element of the sorted array is a least element. *)
Lemma Array_sort_head (l : list A) (h : A) (t : list A) :
  Array_sort cmp l = h :: t ->
  In h l /\ forall x : A, In x l -> cmp h x <= 0.
Proof.
  intros E. pose proof (Array_sort_sorted l) as Hs.
  pose proof (Array_sort_perm cmp l) as Hp. rewrite E in Hs, Hp.
  split; [eapply Permutation_in; [exact Hp | now left]|].
  intros x Hx. apply (Permutation_in _ (Permutation_sym Hp)) in Hx.
  apply StronglySorted_inv in Hs as [_ Hh].
  destruct Hx as [<-|Hx].
  - destruct (cmp_total h h); assumption.
  - rewrite List.Forall_forall in Hh. now apply Hh.
Qed.

(** An element that is not above any other and comes first stays first:
    the sort is stable. *)
Lemma Array_sort_first_wins (x : A) (l : list A) :
  (forall y : A, In y l -> cmp x y <= 0) ->
  Array_sort cmp (x :: l) = x :: Array_sort cmp l.
Proof.
  intros Hx. cbn. fold (Array_sort cmp l).
  destruct (Array_sort cmp l) as [|h t] eqn:E; [reflexivity|]. cbn.
  assert (Hh : In h l).
  { eapply Permutation_in; [apply Array_sort_perm|]. rewrite E. now left. }
  apply Hx, Qle_bool_true in Hh. now rewrite Hh.
Qed.
End SortBy.

(** ** The cheapest strategy of a sweep point *)

Lemma costCompare_le (a b : string * Q) :
  costCompare a b <= 0
  <-> a.2 < b.2 \/ (a.2 == b.2 /\ (tiebreakOf a.1 <= tiebreakOf b.1)%Z).
Proof.
  unfold costCompare, tiebreakOf.
  destruct (Qeq_bool (a.2 - b.2) 0) eqn:E.
  - apply Qeq_bool_iff in E. split.
    + intros H. right. split; [lra|].
      change 0 with (inject_Z 0) in H. rewrite <- Zle_Qle in H. lia.
    + intros [H|[_ H]]; [lra|].
      change 0 with (inject_Z 0). rewrite <- Zle_Qle. lia.
  - apply Qeq_bool_neq in E. split.
    + intros H. left. destruct (Qle_lt_or_eq _ _ H) as [Hlt|Heq]; [lra | contradiction].
    + intros [H|[H _]]; [lra|]. exfalso. apply E. lra.
Qed.

Lemma costCompare_total (a b : string * Q) :
  costCompare a b <= 0 \/ costCompare b a <= 0.
Proof.
  rewrite !costCompare_le.
  destruct (Q_dec a.2 b.2) as [[H|H]|H]; [left; now left | right; now left|].
  destruct (Z.le_ge_cases (tiebreakOf a.1) (tiebreakOf b.1)).
  - left. right. split; assumption.
  - right. right. split; [now symmetry | assumption].
Qed.

Lemma costCompare_trans (a b c : string * Q) :
  costCompare a b <= 0 -> costCompare b c <= 0 -> costCompare a c <= 0.
Proof.
  rewrite !costCompare_le.
  intros [H1|[H1 T1]] [H2|[H2 T2]].
  - left. lra.
  - left. lra.
  - left. lra.
  - right. split; [lra | lia].
Qed.

Lemma entriesOf_In (keys : list string) (point : gmap string Q) (k : string) (v : Q) :
  In (k, v) (entriesOf keys point) <-> In k keys /\ point !! k = Some v.
Proof.
  unfold entriesOf. rewrite <- list_elem_of_In, list_elem_of_omap. split.
  - intros (k' & Hk & Hv). destruct (point !! k') as [v'|] eqn:E; [|discriminate].
    cbn in Hv. injection Hv as <- <-. split; [now apply list_elem_of_In | exact E].
  - intros [Hk Hv]. exists k. split; [now apply list_elem_of_In|]. now rewrite Hv.
Qed.

Lemma finishPoint_entries (val : Q) (cur isSumMode : bool) (point : gmap string Q) :
  (entriesOf (costKeys isSumMode) point
   ++ entriesOf ["Per-Submission Cache"] point) ++ entriesOf ["Batch Inference"] point
  = entriesOf (comparedKeys isSumMode) point.
Proof.
  unfold entriesOf, comparedKeys.
  change ["Per-Submission Cache"; "Batch Inference"]
    with (["Per-Submission Cache"] ++ ["Batch Inference"]).
  now rewrite !omap_app, app_assoc.
Qed.

(** The winner of a point is a cheapest of the compared strategies, and
    among equally cheap ones it has the lowest tie-break rank. *)
Lemma finishPoint_winner (val : Q) (cur isSumMode : bool) (point : gmap string Q)
    (k : string) (v : Q) :
  In k (comparedKeys isSumMode) -> point !! k = Some v ->
  let p := finishPoint val cur isSumMode point in
  exists vw : Q,
    point !! winner p = Some vw
    /\ In (winner p) (comparedKeys isSumMode)
    /\ vw <= v
    /\ (v == vw -> (tiebreakOf (winner p) <= tiebreakOf k)%Z).
Proof.
  intros Hk Hv p. subst p. unfold finishPoint. cbn [winner].
  rewrite (finishPoint_entries val cur).
  assert (Hin : In (k, v) (entriesOf (comparedKeys isSumMode) point))
    by now apply entriesOf_In.
  destruct (Array_sort costCompare (entriesOf (comparedKeys isSumMode) point))
    as [|[kw vw] t] eqn:E.
  - apply (Permutation_in _ (Permutation_sym (Array_sort_perm costCompare _))) in Hin.
    rewrite E in Hin. contradiction.
  - destruct (Array_sort_head costCompare costCompare_total costCompare_trans _ _ _ E)
      as [Hw Hmin].
    apply entriesOf_In in Hw as [Hwk Hwv].
    specialize (Hmin (k, v) Hin). apply costCompare_le in Hmin. cbn in Hmin |- *.
    exists vw. split; [exact Hwv|]. split; [exact Hwk|].
    destruct Hmin as [H|[H T]]; (split; [lra|]); intros Heq;
      [exfalso; lra | exact T].
Qed.

Lemma sweepPoint_keys (c : SimulatorState) (val : Q) (k : string) (v : Q) :
  costs (sweepPoint c val) !! k = Some v ->
  In k (comparedKeys (summarizationEnabled c && isConversational c)).
Proof.
  unfold sweepPoint, finishPoint. cbn [costs].
  destruct (summarizationEnabled c && isConversational c);
    destruct (is_strategy_comparison (displayMode c));
    try destruct (batchIncluded c);
    intros H;
    repeat (apply lookup_insert_Some in H; destruct H as [[<- _]|[_ H]];
            [cbn; tauto|]);
    rewrite lookup_empty in H; discriminate.
Qed.

(** X15: the winner of a sweep point is a cheapest strategy of the point:
    its cost is recorded and is at most every recorded cost, and against
    an equally cheap strategy it has the lower or equal tie-break rank
    (Per-Assignment and summary-in-prefix 0, Per-Submission and
    summary-cache-prefix 1, Batch 2, No Caching 3). *)
Theorem X15_sweep_winner_is_cheapest :
  forall (c : SimulatorState) (val : Q) (k : string) (v : Q),
    let p := sweepPoint c val in
    costs p !! k = Some v ->
    exists vw : Q,
      costs p !! winner p = Some vw
      /\ vw <= v
      /\ (v == vw -> (tiebreakOf (winner p) <= tiebreakOf k)%Z)
      /\ winnerColor p = default "#999" (colorMap !! winner p).
Proof.
  intros c val k v p Hv. pose proof (sweepPoint_keys c val k v Hv) as Hk.
  subst p. unfold sweepPoint in *. cbv zeta in *.
  match goal with
  | H : costs (finishPoint ?a ?b ?m ?pt) !! k = Some v |- _ =>
      change (pt !! k = Some v) in H;
      destruct (finishPoint_winner a b m pt k v Hk H) as (vw & H1 & _ & H3 & H4)
  end.
  exists vw. repeat split; first [assumption | reflexivity].
Qed.

Lemma X15_sweep_winner_is_cheapest_witness :
  exists vw : Q,
    costs (sweepPoint guardedState 15000) !! winner (sweepPoint guardedState 15000)
    = Some vw
    /\ vw <= total (computeNoCaching sonnetLike 30 5 1000 15000 2000 500 1000 1)
             + sweepGr guardedState 15000
    /\ (total (computeNoCaching sonnetLike 30 5 1000 15000 2000 500 1000 1)
        + sweepGr guardedState 15000 == vw ->
        (tiebreakOf (winner (sweepPoint guardedState 15000))
         <= tiebreakOf "No Caching")%Z)
    /\ winnerColor (sweepPoint guardedState 15000)
       = default "#999" (colorMap !! winner (sweepPoint guardedState 15000)).
Proof.
  apply (X15_sweep_winner_is_cheapest guardedState 15000 "No Caching"). reflexivity.
Defined.

(* ------------------------------------------------------------------ *)
(** ** What the stabilization pass leaves alone *)

Lemma tiePoint_costs (stabKeys : list string) (p q : Point) :
  costs p = costs q -> tiePoint stabKeys p = tiePoint stabKeys q.
Proof.
  intros H. unfold tiePoint, nearTie, allKeysOf, sortedCosts. now rewrite H.
Qed.

Lemma lookup_frame (d1 d2 : list Point) (k : nat) :
  frame <$> d1 = frame <$> d2 -> frame <$> d1 !! k = frame <$> d2 !! k.
Proof.
  intros H. apply (f_equal (fun l => l !! k)) in H.
  now rewrite !list_lookup_fmap in H.
Qed.

Lemma tieAt_frame (stabKeys : list string) (d1 d2 : list Point) (k : nat) :
  frame <$> d1 = frame <$> d2 -> tieAt stabKeys d1 k = tieAt stabKeys d2 k.
Proof.
  intros H. apply (lookup_frame _ _ k) in H. unfold tieAt.
  destruct (d1 !! k) as [p|], (d2 !! k) as [q|]; cbn in H; try discriminate;
    [|reflexivity].
  apply tiePoint_costs. unfold frame in H. congruence.
Qed.

Lemma uniformKeys_frame (d1 d2 : list Point) :
  frame <$> d1 = frame <$> d2 -> uniformKeys d2 -> uniformKeys d1.
Proof.
  intros H U.
  assert (Hin : forall p, p ∈ d1 ->
            exists p', p' ∈ d2 /\ optionalKeys p = optionalKeys p').
  { intros p Hp. apply list_elem_of_lookup in Hp as [i Hi].
    pose proof (lookup_frame _ _ i H) as Hf. rewrite Hi in Hf.
    destruct (d2 !! i) as [p'|] eqn:E; [|discriminate]. cbn in Hf.
    exists p'. split; [now apply list_elem_of_lookup_2 in E|].
    unfold optionalKeys, hasKey. unfold frame in Hf.
    assert (costs p = costs p') as -> by congruence. reflexivity. }
  intros p q Hp Hq.
  destruct (Hin p Hp) as (p' & Hp' & ->), (Hin q Hq) as (q' & Hq' & ->).
  now apply U.
Qed.

Lemma tieRun_frame (stabKeys : list string) (d1 d2 : list Point) (k j : nat) :
  frame <$> d1 = frame <$> d2 ->
  tieRun stabKeys d2 k j -> tieRun stabKeys d1 k j.
Proof.
  intros H (Hj & Hrun & Hstop).
  assert (Hl : length d1 = length d2).
  { rewrite <- (length_fmap frame d1), H. apply length_fmap. }
  unfold tieRun. rewrite Hl. split; [exact Hj|]. split.
  - intros m Hm. rewrite (tieAt_frame stabKeys d1 d2 m H). now apply Hrun.
  - intros Hlt. rewrite (tieAt_frame stabKeys d1 d2 j H). now apply Hstop.
Qed.

(** Every near-tie starts a run. *)
Lemma tieRun_exists (stabKeys : list string) (raw : list Point) :
  forall (n k : nat),
    (k + n = length raw)%nat ->
    tieAt stabKeys raw k = true ->
    exists j : nat, tieRun stabKeys raw k j.
Proof.
  induction n as [|n IH]; intros k Hn Hk.
  - unfold tieAt in Hk. rewrite lookup_ge_None_2 in Hk by lia. discriminate.
  - destruct (tieAt stabKeys raw (S k)) eqn:E.
    + destruct (IH (S k) ltac:(lia) E) as (j & Hj & Hrun & Hstop).
      exists j. split; [lia|]. split; [|exact Hstop].
      intros m Hm. destruct (Nat.eq_dec m k) as [->|Hne]; [exact Hk|].
      apply Hrun. lia.
    + exists (S k). split; [lia|]. split; [|intros _; exact E].
      intros m Hm. now replace m with k by lia.
Qed.

(** X16: the stabilization pass changes nothing but winners and winner
    colors: the result has the length of the raw data and the same value,
    current-flag and costs at every index; and when all points carry the
    same optional cost keys, a point that is not a near-tie keeps its
    winner as well. *)
Theorem X16_stabilization_keeps_frame :
  forall (stabKeys : list string) (raw : list Point),
    length (stabilize stabKeys raw) = length raw
    /\ frame <$> stabilize stabKeys raw = frame <$> raw
    /\ (uniformKeys raw ->
        forall k : nat,
          tieAt stabKeys raw k = false ->
          stabilize stabKeys raw !! k = raw !! k).
Proof.
  intros stabKeys raw. split; [apply stabLoop_length|].
  split; [apply stabLoop_frame|].
  intros U k Hk. now apply (stabilize_settles stabKeys raw U k).
Qed.

Lemma X16_stabilization_keeps_frame_witness :
  stabilize (costKeys false) examplePoints !! 2%nat = examplePoints !! 2%nat.
Proof.
  apply (proj2 (proj2 (X16_stabilization_keeps_frame (costKeys false) examplePoints)));
    [apply examplePoints_uniform | reflexivity].
Defined.

(** X17: the stabilization pass is idempotent on data whose points carry
    the same optional cost keys: running it on its own result changes
    nothing. *)
Theorem X17_stabilization_idempotent :
  forall (stabKeys : list string) (raw : list Point),
    uniformKeys raw ->
    stabilize stabKeys (stabilize stabKeys raw) = stabilize stabKeys raw.
Proof.
  intros stabKeys raw U.
  pose proof (stabLoop_frame (length raw) stabKeys 0%nat raw) as Hf.
  fold (stabilize stabKeys raw) in Hf.
  set (out1 := stabilize stabKeys raw) in *.
  assert (Hl : length out1 = length raw).
  { rewrite <- (length_fmap frame out1), Hf. apply length_fmap. }
  pose proof (uniformKeys_frame _ _ Hf U) as U1.
  apply list_eq. intros k.
  destruct (stabilize_settles stabKeys out1 U1 k) as [N1 R1].
  destruct (stabilize_settles stabKeys raw U k) as [N0 R0]. fold out1 in N0, R0.
  destruct (tieAt stabKeys raw k) eqn:E.
  - destruct (tieRun_exists stabKeys raw (length raw - k) k) as [j Hj].
    { assert (k < length raw)%nat; [|lia].
      unfold tieAt in E. destruct (raw !! k) eqn:El; [|discriminate].
      now apply lookup_lt_Some in El. }
    { exact E. }
    pose proof (tieRun_frame stabKeys out1 raw k j Hf Hj) as Hj1.
    destruct (R0 j Hj) as (p & r & Hp & Hr & Ho).
    destruct (R1 j Hj1) as (p1 & r1 & Hp1 & Hr1 & Ho1).
    rewrite Ho1, Ho. f_equal.
    rewrite Ho in Hp1. injection Hp1 as <-.
    assert (Hres : resolvedIndex out1 j = resolvedIndex raw j)
      by (unfold resolvedIndex; now rewrite Hl).
    rewrite Hres in Hr1.
    assert (Hw : winner r1 = winner r /\ winnerColor r1 = winnerColor r).
    { destruct Hj as (Hjb & Hrun & Hstop). unfold resolvedIndex in Hr, Hr1.
      destruct (j <? length raw)%nat eqn:Ej.
      - apply Nat.ltb_lt in Ej.
        destruct (stabilize_settles stabKeys raw U j) as [Nj _]. fold out1 in Nj.
        rewrite (Nj (Hstop Ej)), Hr in Hr1. injection Hr1 as <-. now split.
      - apply Nat.ltb_ge in Ej.
        destruct (stabilize_settles stabKeys raw U (length raw - 1)) as [_ Rl].
        fold out1 in Rl.
        destruct (Rl j) as (p' & r' & Hp' & Hr' & Ho').
        { split; [lia|]. split; [|exact Hstop]. intros m Hm. apply Hrun. lia. }
        unfold resolvedIndex in Hr'. apply Nat.ltb_ge in Ej. rewrite Ej in Hr'.
        rewrite Hr in Hr'. injection Hr' as <-.
        rewrite Ho' in Hr1. injection Hr1 as <-. now split. }
    destruct Hw as [-> ->]. reflexivity.
  - rewrite N1; [reflexivity|]. now rewrite (tieAt_frame stabKeys out1 raw k Hf).
Qed.

Lemma X17_stabilization_idempotent_witness :
  stabilize (costKeys false) (stabilize (costKeys false) examplePoints)
  = stabilize (costKeys false) examplePoints.
Proof.
  apply (X17_stabilization_idempotent (costKeys false) examplePoints).
  apply examplePoints_uniform.
Defined.

(* ------------------------------------------------------------------ *)
(** ** Crossover labels *)

Lemma crossover_loop (data : list Point) (v : Q) :
  forall (n : nat) (acc : list Q),
    In v (foldl (fun crossovers i =>
                   match data !! i, data !! S i with
                   | Some p, Some q =>
                       if negb (String.eqb (winner p) (winner q))
                       then crossovers ++ [value q] else crossovers
                   | _, _ => crossovers
                   end) acc (seq 0 n))
    <-> In v acc
        \/ exists (i : nat) (p q : Point),
             (i < n)%nat /\ data !! i = Some p /\ data !! S i = Some q
             /\ winner p <> winner q /\ v = value q.
Proof.
  induction n as [|n IH]; intros acc.
  - cbn. split; [now left|]. intros [H|(i & _ & _ & Hi & _)]; [exact H | lia].
  - rewrite seq_S, foldl_app. cbn [foldl Nat.add]. split.
    + intros H.
      destruct (data !! n) as [p|] eqn:Ep;
        [destruct (data !! S n) as [q|] eqn:Eq;
         [destruct (String.eqb (winner p) (winner q)) eqn:Ew; cbn [negb] in H|]|].
      2:{ apply in_app_iff in H as [H|[<-|[]]].
          - apply IH in H as [H|(i & p' & q' & Hi & H)]; [now left|].
            right. exists i, p', q'. split; [lia | exact H].
          - right. exists n, p, q. apply String.eqb_neq in Ew.
            repeat split; [lia | assumption..]. }
      all: apply IH in H as [H|(i & p' & q' & Hi & H)]; [now left|];
        right; exists i, p', q'; (split; [lia | exact H]).
    + intros H.
      assert (Hold : (In v acc
                \/ exists (i : nat) (p q : Point),
                     (i < n)%nat /\ data !! i = Some p /\ data !! S i = Some q
                     /\ winner p <> winner q /\ v = value q)
               \/ exists p q : Point,
                    data !! n = Some p /\ data !! S n = Some q
                    /\ winner p <> winner q /\ v = value q).
      { destruct H as [H|(i & p & q & Hi & Hp & Hq & Hw & Hv)]; [left; now left|].
        destruct (Nat.eq_dec i n) as [->|Hne].
        - right. now exists p, q.
        - left. right. exists i, p, q. repeat split; [lia | assumption..]. }
      destruct Hold as [Hold|(p & q & Hp & Hq & Hw & Hv)].
      * apply IH in Hold.
        destruct (data !! n) as [p|]; [|exact Hold].
        destruct (data !! S n) as [q|]; [|exact Hold].
        destruct (negb (String.eqb (winner p) (winner q))); [|exact Hold].
        apply in_app_iff. now left.
      * rewrite Hp, Hq. apply String.eqb_neq in Hw. rewrite Hw. cbn [negb].
        apply in_app_iff. right. left. now symmetry.
Qed.

(** X18: a value is a crossover label exactly when it is the value of a
    point whose winner differs from the winner of the point before it;
    in particular there is no label for data of fewer than two points or
    with one winner throughout. *)
Theorem X18_crossover_labels :
  forall (data : list Point) (v : Q),
    In v (paramCrossoverLabels data)
    <-> exists (i : nat) (p q : Point),
          data !! i = Some p /\ data !! S i = Some q
          /\ winner p <> winner q /\ v = value q.
Proof.
  intros data v. unfold paramCrossoverLabels. rewrite crossover_loop. split.
  - intros [[]|(i & p & q & _ & H)]. now exists i, p, q.
  - intros (i & p & q & Hp & Hq & H). right. exists i, p, q.
    split; [|repeat split; tauto].
    apply lookup_lt_Some in Hq. lia.
Qed.

Lemma sorted_lookup_lt (l : list Q) :
  StronglySorted Qlt l ->
  forall (a b : nat) (x y : Q),
    (a < b)%nat -> l !! a = Some x -> l !! b = Some y -> x < y.
Proof.
  induction 1 as [|h l Hs IH Hh]; intros a b x y Hab Ha Hb.
  - rewrite lookup_nil in Ha. discriminate.
  - destruct b as [|b]; [lia|]. cbn in Hb. destruct a as [|a].
    + cbn in Ha. injection Ha as <-.
      rewrite List.Forall_forall in Hh. apply Hh.
      apply list_elem_of_In. now apply list_elem_of_lookup_2 in Hb.
    + cbn in Ha. apply (IH a b); [lia | assumption..].
Qed.

Lemma sorted_lookup_inj (l : list Q) (a b : nat) (x y : Q) :
  StronglySorted Qlt l -> l !! a = Some x -> l !! b = Some y -> x == y -> a = b.
Proof.
  intros Hs Ha Hb Heq.
  destruct (Nat.lt_trichotomy a b) as [Hlt|[Heq'|Hgt]]; [|exact Heq'|].
  - pose proof (sorted_lookup_lt l Hs a b x y Hlt Ha Hb). lra.
  - pose proof (sorted_lookup_lt l Hs b a y x Hgt Hb Ha). lra.
Qed.

Lemma lookup_value (d : list Point) (k : nat) (p : Point) :
  d !! k = Some p -> map value d !! k = Some (value p).
Proof.
  intros H. change (map value d) with (value <$> d).
  now rewrite list_lookup_fmap, H.
Qed.

(** X19: after the stabilization of a sweep with strictly increasing
    values whose points carry the same optional cost keys, no crossover
    label falls strictly inside a run of near-ties: the value of a point
    of the run other than its first is not a label. *)
Theorem X19_no_crossover_inside_run :
  forall (stabKeys : list string) (raw : list Point) (i j k : nat) (q : Point),
    uniformKeys raw ->
    StronglySorted Qlt (map value raw) ->
    tieRun stabKeys raw i j ->
    (i < k < j)%nat ->
    stabilize stabKeys raw !! k = Some q ->
    ~ In (value q) (paramCrossoverLabels (stabilize stabKeys raw)).
Proof.
  intros stabKeys raw i j k q U Hs Hrun Hk Hq Hin.
  unfold paramCrossoverLabels in Hin.
  apply crossover_loop in Hin as [[]|(i' & p' & q' & _ & Hp' & Hq' & Hw & Hv)].
  rewrite <- (stabilize_values stabKeys raw) in Hs.
  assert (k = S i') as ->.
  { apply (sorted_lookup_inj _ _ _ (value q) (value q') Hs);
      [now apply lookup_value | now apply lookup_value | now rewrite Hv]. }
  apply Hw.
  destruct (stabilize_settles stabKeys raw U i') as [_ R1].
  destruct (stabilize_settles stabKeys raw U (S i')) as [_ R2].
  destruct (R1 j) as (p1 & r1 & _ & Hr1 & Ho1);
    [apply (tieRun_suffix stabKeys raw i j i' Hrun); lia|].
  destruct (R2 j) as (p2 & r2 & _ & Hr2 & Ho2);
    [apply (tieRun_suffix stabKeys raw i j (S i') Hrun); lia|].
  rewrite Hr1 in Hr2. injection Hr2 as <-.
  rewrite Ho1 in Hp'. injection Hp' as <-.
  rewrite Ho2 in Hq'. injection Hq' as <-.
  reflexivity.
Qed.

Lemma X19_no_crossover_inside_run_witness :
  ~ In (value (setWinner "Per-Assignment Cache" "#3b82f6" (twoCosts 2 10 10)))
       (paramCrossoverLabels (stabilize (costKeys false) examplePoints)).
Proof.
  apply (X19_no_crossover_inside_run (costKeys false) examplePoints 0 2 1).
  - apply examplePoints_uniform.
  - repeat constructor.
  - split; [cbn; lia|]. split.
    + intros m Hm. assert (m = 0 \/ m = 1)%nat as [-> | ->] by lia; reflexivity.
    + intros _. reflexivity.
  - lia.
  - vm_compute. reflexivity.
Defined.

(* ------------------------------------------------------------------ *)
(** ** The zoomed slice *)

Lemma findStart_found (zMin : Q) :
  forall (rest : list Point) (i k : nat) (p : Point),
    rest !! k = Some p -> zMin <= value p ->
    exists m : nat, findStart zMin rest i = Some m /\ (i <= m <= i + k)%nat.
Proof.
  induction rest as [|h rest IH]; intros i k p Hk Hp.
  - rewrite lookup_nil in Hk. discriminate.
  - cbn [findStart]. destruct (Qle_bool zMin (value h)) eqn:E.
    + exists i. split; [reflexivity | lia].
    + destruct k as [|k].
      * cbn in Hk. injection Hk as ->. apply Qle_bool_false in E. lra.
      * cbn in Hk. destruct (IH (S i) k p Hk Hp) as (m & Hm & Hb).
        exists m. split; [exact Hm | lia].
Qed.

Lemma findStart_spec (zMin : Q) :
  forall (rest : list Point) (i m : nat),
    findStart zMin rest i = Some m ->
    (i <= m)%nat /\ exists p : Point, rest !! (m - i)%nat = Some p /\ zMin <= value p.
Proof.
  induction rest as [|h rest IH]; intros i m H; [discriminate|].
  cbn [findStart] in H. destruct (Qle_bool zMin (value h)) eqn:E.
  - injection H as <-. split; [lia|]. exists h. rewrite Nat.sub_diag.
    split; [reflexivity | now apply Qle_bool_true].
  - destruct (IH (S i) m H) as (Hb & p & Hp & Hv). split; [lia|].
    exists p. split; [|exact Hv].
    replace (m - i)%nat with (S (m - S i)) by lia. exact Hp.
Qed.

Lemma findEnd_found (zMax : Q) (data : list Point) (k : nat) (p : Point) :
  data !! k = Some p -> value p <= zMax ->
  forall n : nat,
    (k < n)%nat ->
    exists m : nat, findEnd zMax data n = Some m /\ (k <= m < n)%nat.
Proof.
  intros Hk Hp. induction n as [|n IH]; intros Hn; [lia|].
  cbn [findEnd]. destruct (Nat.eq_dec k n) as [->|Hne].
  - rewrite Hk. apply Qle_bool_true in Hp. rewrite Hp.
    exists n. split; [reflexivity | lia].
  - destruct IH as (m & Hm & Hb); [lia|].
    destruct (data !! n) as [q|];
      [destruct (Qle_bool (value q) zMax)|].
    + exists n. split; [reflexivity | lia].
    + exists m. split; [exact Hm | lia].
    + exists m. split; [exact Hm | lia].
Qed.

Lemma findEnd_spec (zMax : Q) (data : list Point) :
  forall (n m : nat),
    findEnd zMax data n = Some m ->
    (m < n)%nat /\ exists p : Point, data !! m = Some p /\ value p <= zMax.
Proof.
  induction n as [|n IH]; intros m H; [discriminate|].
  cbn [findEnd] in H. destruct (data !! n) as [q|] eqn:Eq.
  - destruct (Qle_bool (value q) zMax) eqn:E.
    + injection H as <-. split; [lia|]. exists q.
      split; [exact Eq | now apply Qle_bool_true].
    + destruct (IH m H) as (Hb & Hp). split; [lia | exact Hp].
  - destruct (IH m H) as (Hb & Hp). split; [lia | exact Hp].
Qed.

Lemma Array_slice_lookup {A : Type} (a b : nat) (l : list A) (m : nat) (x : A) :
  Array_slice a b l !! m = Some x <-> l !! (a + m)%nat = Some x /\ (m < b - a)%nat.
Proof. unfold Array_slice. now rewrite lookup_take_Some, lookup_drop. Qed.

(** X20: zooming never hides a point of the window: a point whose value
    lies between zMin and zMax is in the visible slice, at its index less
    the start index. *)
Theorem X20_zoom_keeps_window :
  forall (zMin zMax : Q) (data : list Point) (k : nat) (p : Point),
    data !! k = Some p ->
    zMin <= value p -> value p <= zMax ->
    (startIdx zMin data <= k <= endIdx zMax data)%nat
    /\ visibleParamData (Some (zMin, zMax)) data !! (k - startIdx zMin data)%nat
       = Some p.
Proof.
  intros zMin zMax data k p Hk Hlo Hhi.
  pose proof (lookup_lt_Some _ _ _ Hk) as Hlen.
  assert (Hs : (startIdx zMin data <= k)%nat).
  { unfold startIdx.
    destruct (findStart_found zMin data 0 k p Hk Hlo) as (m & -> & Hm). lia. }
  assert (He : (k <= endIdx zMax data)%nat).
  { unfold endIdx.
    destruct (findEnd_found zMax data k p Hk Hhi (length data) Hlen) as (m & -> & Hm).
    lia. }
  split; [lia|]. unfold visibleParamData.
  destruct (length data <? 2)%nat eqn:E.
  - apply Nat.ltb_lt in E. assert (k = 0)%nat as -> by lia. exact Hk.
  - apply Array_slice_lookup. split; [|lia].
    now replace (startIdx zMin data + (k - startIdx zMin data))%nat with k by lia.
Qed.

Lemma X20_zoom_keeps_window_witness :
  (startIdx 2 examplePoints <= 1 <= endIdx (5 # 2) examplePoints)%nat
  /\ visibleParamData (Some (2, 5 # 2)) examplePoints
       !! (1 - startIdx 2 examplePoints)%nat
     = Some (twoCosts 2 10 10).
Proof.
  apply (X20_zoom_keeps_window 2 (5 # 2) examplePoints 1 (twoCosts 2 10 10));
    [reflexivity | vm_compute; discriminate | vm_compute; discriminate].
Defined.

(** X21: on data with strictly increasing values, with a point at or
    above zMin and a point at or below zMax, the visible slice reaches at
    most one point beyond the window on each side: every visible point but
    the first has a value of at least zMin, and every one but the last a
    value of at most zMax. *)
Theorem X21_zoom_margin :
  forall (zMin zMax : Q) (data : list Point) (lo hi : Point),
    StronglySorted Qlt (map value data) ->
    In lo data -> zMin <= value lo ->
    In hi data -> value hi <= zMax ->
    forall (m : nat) (q : Point),
      visibleParamData (Some (zMin, zMax)) data !! m = Some q ->
      ((0 < m)%nat -> zMin <= value q)
      /\ ((S m < length (visibleParamData (Some (zMin, zMax)) data))%nat ->
          value q <= zMax).
Proof.
  intros zMin zMax data lo hi Hs Hlo Hlov Hhi Hhiv m q Hq.
  apply list_elem_of_In, list_elem_of_lookup in Hlo as [klo Hklo].
  apply list_elem_of_In, list_elem_of_lookup in Hhi as [khi Hkhi].
  pose proof (lookup_lt_Some _ _ _ Hkhi) as Hlen.
  destruct (findStart_found zMin data 0 klo lo Hklo Hlov) as (i0 & Hi0 & _).
  destruct (findStart_spec zMin data 0 i0 Hi0) as (_ & p0 & Hp0 & Hv0).
  rewrite Nat.sub_0_r in Hp0.
  destruct (findEnd_found zMax data khi hi Hkhi Hhiv (length data) Hlen)
    as (i1 & Hi1 & _).
  destruct (findEnd_spec zMax data _ i1 Hi1) as (Hb1 & p1 & Hp1 & Hv1).
  unfold visibleParamData in *.
  destruct (length data <? 2)%nat eqn:E.
  - apply Nat.ltb_lt in E. pose proof (lookup_lt_Some _ _ _ Hq). split; intros; lia.
  - apply Nat.ltb_ge in E.
    assert (Hst : startIdx zMin data = (i0 - 1)%nat)
      by (unfold startIdx; rewrite Hi0; lia).
    assert (Hen : endIdx zMax data = Nat.min (length data - 1) (i1 + 1))
      by (unfold endIdx; now rewrite Hi1).
    apply Array_slice_lookup in Hq as [Hq Hm].
    split.
    + intros Hpos.
      destruct (Nat.eq_dec (startIdx zMin data + m)%nat i0) as [Heq|Hne].
      * rewrite Heq, Hp0 in Hq. now injection Hq as <-.
      * assert (value p0 < value q); [|lra].
        apply (sorted_lookup_lt (map value data) Hs i0 (startIdx zMin data + m)%nat);
          [lia | now apply lookup_value | now apply lookup_value].
    + unfold Array_slice. rewrite length_take, length_drop. intros Hlt.
      destruct (Nat.eq_dec (startIdx zMin data + m)%nat i1) as [Heq|Hne].
      * rewrite Heq, Hp1 in Hq. now injection Hq as <-.
      * assert (value q < value p1); [|lra].
        apply (sorted_lookup_lt (map value data) Hs (startIdx zMin data + m)%nat i1);
          [lia | now apply lookup_value | now apply lookup_value].
Qed.

Lemma X21_zoom_margin_witness :
  ((0 < 1)%nat -> 2 <= value (twoCosts 2 10 10))
  /\ ((2 < length (visibleParamData (Some (2%Q, (5 # 2)%Q)) examplePoints))%nat ->
      value (twoCosts 2 10 10) <= 5 # 2).
Proof.
  apply (X21_zoom_margin 2 (5 # 2) examplePoints
           (twoCosts 2 10 10) (twoCosts 2 10 10)).
  - repeat constructor.
  - right. left. reflexivity.
  - vm_compute. discriminate.
  - right. left. reflexivity.
  - vm_compute. discriminate.
  - reflexivity.
Defined.

(* ------------------------------------------------------------------ *)
(** ** Words and tokens *)

Lemma Qfloor_unique (x : Q) (z : Z) :
  inject_Z z <= x -> x < inject_Z (z + 1) -> Qfloor x = z.
Proof.
  intros Hlo Hhi.
  pose proof (Qfloor_le x) as H1. pose proof (Qlt_floor x) as H2.
  assert (inject_Z z < inject_Z (Qfloor x + 1)) as H3 by lra.
  assert (inject_Z (Qfloor x) < inject_Z (z + 1)) as H4 by lra.
  rewrite <- Zlt_Qlt in H3, H4. lia.
Qed.

(** Words to tokens and back is the identity on whole numbers. *)
Lemma words_round_trip (w : Z) :
  Math_round (inject_Z (Math_round (inject_Z w * TOKENS_PER_WORD)) * WORDS_PER_TOKEN) = w.
Proof.
  unfold Math_round, TOKENS_PER_WORD, WORDS_PER_TOKEN.
  change (4 / 3) with (4 # 3). change (3 / 4) with (3 # 4).
  set (x := inject_Z w * (4 # 3) + (1 # 2)).
  pose proof (Qfloor_le x) as H1. pose proof (Qlt_floor x) as H2.
  rewrite inject_Z_plus in H2. change (inject_Z 1) with 1 in H2.
  apply Qfloor_unique.
  - subst x. lra.
  - rewrite inject_Z_plus. change (inject_Z 1) with 1. subst x. lra.
Qed.

Lemma tokens_of_words_mono (w w' : Z) :
  (w <= w')%Z ->
  (Math_round (inject_Z w * TOKENS_PER_WORD)
   <= Math_round (inject_Z w' * TOKENS_PER_WORD))%Z.
Proof.
  intros H. unfold Math_round, TOKENS_PER_WORD. change (4 / 3) with (4 # 3).
  apply Qfloor_resp_le. rewrite Zle_Qle in H. lra.
Qed.

Lemma handler_round_trip (floorTokens : Z) (floorWords w : Z) :
  (floorTokens <= Math_round (inject_Z floorWords * TOKENS_PER_WORD))%Z ->
  (Math_round (inject_Z (floorWords - 1) * TOKENS_PER_WORD) < floorTokens)%Z ->
  Math_round (inject_Z floorTokens * WORDS_PER_TOKEN) = floorWords ->
  Math_round
    (Math_max (inject_Z floorTokens) (inject_Z (Math_round (inject_Z w * TOKENS_PER_WORD)))
     * WORDS_PER_TOKEN)
  = Z.max floorWords w.
Proof.
  intros Hat Hbelow Hback.
  destruct (Math_max_cases (inject_Z floorTokens)
              (inject_Z (Math_round (inject_Z w * TOKENS_PER_WORD))))
    as [[Hle ->]|[Hgt ->]].
  - rewrite words_round_trip. rewrite <- Zle_Qle in Hle.
    destruct (Z.le_gt_cases floorWords w) as [H|H]; [lia|].
    pose proof (tokens_of_words_mono w (floorWords - 1) ltac:(lia)). lia.
  - rewrite Hback. rewrite <- Zlt_Qlt in Hgt.
    destruct (Z.le_gt_cases floorWords w) as [H|H]; [|lia].
    pose proof (tokens_of_words_mono floorWords w H). lia.
Qed.

(** X22: the word inputs round-trip: for a whole number of words the
    handler stores at least its floor of tokens (100 for the AI response,
    50 for the chat history, 5 for the student text), and the word count
    shown for the stored tokens is the number entered, or 75, 38 and 4
    words when fewer were entered. *)
Theorem X22_words_round_trip :
  forall w : Z,
    (100 <= handleAiResponseWordsChange (inject_Z w)
     /\ aiResponseWords (handleAiResponseWordsChange (inject_Z w)) = Z.max 75 w)
    /\ (50 <= handleChatHistoryWordsChange (inject_Z w)
        /\ chatHistoryWords (handleChatHistoryWordsChange (inject_Z w)) = Z.max 38 w)
    /\ (5 <= handleStudentTextWordsOnlyChange (inject_Z w)
        /\ studentTextWordsOnly (handleStudentTextWordsOnlyChange (inject_Z w))
           = Z.max 4 w).
Proof.
  intros w.
  unfold handleAiResponseWordsChange, handleChatHistoryWordsChange,
    handleStudentTextWordsOnlyChange, aiResponseWords, chatHistoryWords,
    studentTextWordsOnly.
  repeat split.
  - destruct (Math_max_cases 100 (inject_Z (Math_round (inject_Z w * TOKENS_PER_WORD))))
      as [[H ->]|[H ->]]; lra.
  - apply (handler_round_trip 100 75 w); vm_compute; congruence.
  - destruct (Math_max_cases 50 (inject_Z (Math_round (inject_Z w * TOKENS_PER_WORD))))
      as [[H ->]|[H ->]]; lra.
  - apply (handler_round_trip 50 38 w); vm_compute; congruence.
  - destruct (Math_max_cases 5 (inject_Z (Math_round (inject_Z w * TOKENS_PER_WORD))))
      as [[H ->]|[H ->]]; lra.
  - apply (handler_round_trip 5 4 w); vm_compute; congruence.
Qed.

(* ------------------------------------------------------------------ *)
(** ** The sweep and the headline results *)

Lemma setParam_getParam (k : SensitivityParamKey) (a : TemplatePreset) :
  setParam k (getParam k a) a = a.
Proof. destruct a, k; reflexivity. Qed.

(** X23: outside summarization mode, the sweep point computed at the live
    value of the swept parameter is flagged current and carries exactly
    the totals of the headline results: No Caching always, Per-Assignment
    Cache when the model supports caching, and in strategy-comparison mode
    Per-Submission Cache (with caching) and Batch Inference (present in
    both or absent in both). *)
Theorem X23_sweep_matches_results :
  forall c : SimulatorState,
    summarizationEnabled c && isConversational c = false ->
    let p := sweepPoint c (getParam (sensitivityParam c) (current c)) in
    let r := results c in
    isCurrent p = true
    /\ costs p !! "No Caching" = Some (total (res_noCaching r))
    /\ (supportsCaching c = true ->
        costs p !! "Per-Assignment Cache" = total <$> res_strategyA r)
    /\ (supportsCaching c = true ->
        is_strategy_comparison (displayMode c) = true ->
        costs p !! "Per-Submission Cache" = total <$> res_strategyB r)
    /\ (is_strategy_comparison (displayMode c) = true ->
        costs p !! "Batch Inference" = total <$> res_batch r).
Proof.
  intros c Hmode p r. subst p r.
  unfold sweepPoint, results, sweepGr, sweepEffInst, sweepEffSub, sweepArgs,
    resultsGuardrailsCost. cbv zeta.
  rewrite setParam_getParam, Hmode. cbn [finishPoint isCurrent costs].
  split; [apply Qeq_bool_iff; reflexivity|].
  destruct (is_strategy_comparison (displayMode c)) eqn:Ed;
    destruct (batchIncluded c) eqn:Eb;
    destruct (supportsCaching c) eqn:Es; cbn [negb];
    repeat split; intros; try discriminate; reflexivity.
Qed.

Lemma X23_sweep_matches_results_witness :
  isCurrent (sweepPoint guardedState 15000) = true
  /\ costs (sweepPoint guardedState 15000) !! "No Caching"
     = Some (total (res_noCaching (results guardedState)))
  /\ (supportsCaching guardedState = true ->
      costs (sweepPoint guardedState 15000) !! "Per-Assignment Cache"
      = total <$> res_strategyA (results guardedState))
  /\ (supportsCaching guardedState = true ->
      is_strategy_comparison (displayMode guardedState) = true ->
      costs (sweepPoint guardedState 15000) !! "Per-Submission Cache"
      = total <$> res_strategyB (results guardedState))
  /\ (is_strategy_comparison (displayMode guardedState) = true ->
      costs (sweepPoint guardedState 15000) !! "Batch Inference"
      = total <$> res_batch (results guardedState)).
Proof.
  apply (X23_sweep_matches_results guardedState). reflexivity.
Defined.

(* ------------------------------------------------------------------ *)
(** ** The headline winner *)

Lemma totalCompare_total (a b : WinnerKey * Q) :
  totalCompare a b <= 0 \/ totalCompare b a <= 0.
Proof. unfold totalCompare. lra. Qed.

Lemma totalCompare_trans (a b c : WinnerKey * Q) :
  totalCompare a b <= 0 -> totalCompare b c <= 0 -> totalCompare a c <= 0.
Proof. unfold totalCompare. lra. Qed.

Lemma sorted_last {A : Type} (R : A -> A -> Prop) (l : list A) (w : A) :
  StronglySorted R l -> last l = Some w ->
  forall x : A, In x l -> x = w \/ R x w.
Proof.
  induction 1 as [|h l Hs IH Hh]; intros Hl x Hx; [contradiction|].
  destruct l as [|h' l'].
  - cbn in Hl. injection Hl as <-. destruct Hx as [<-|[]]. now left.
  - change (last (h' :: l') = Some w) in Hl.
    destruct Hx as [<-|Hx]; [|now apply IH].
    right. rewrite List.Forall_forall in Hh. apply Hh.
    apply list_elem_of_In. now apply last_Some_elem_of.
Qed.

(** X24: the headline winner.  With no candidate besides No Caching there
    is no winner.  Otherwise the winner is a candidate of least total, the
    savings are measured against a candidate of greatest total, and amount
    and percentage are non-negative; and when No Caching is at least as
    cheap as every candidate it is the winner, also on an exact tie. *)
Theorem X24_headline_winner :
  forall r : Results,
    let cands := winnerCandidates r in
    ((length cands <= 1)%nat -> winnerAndSavings r = (None, None))
    /\ ((1 < length cands)%nat ->
        exists (best worst : WinnerKey * Q) (s : WinnerSavings),
          winnerAndSavings r = (Some best.1, Some s)
          /\ In best cands /\ In worst cands
          /\ (forall c : WinnerKey * Q, In c cands -> best.2 <= c.2 <= worst.2)
          /\ amount s = worst.2 - best.2
          /\ vsLabel s = winnerLabels worst.1
          /\ 0 <= amount s /\ 0 <= percentage s
          /\ ((forall c : WinnerKey * Q, In c cands -> total (res_noCaching r) <= c.2) ->
              best.1 = WK_noCaching)).
Proof.
  intros r cands. unfold winnerAndSavings. fold cands. split.
  - intros H. apply Nat.leb_le in H. now rewrite H.
  - intros H. apply Nat.leb_gt in H. rewrite H.
    pose proof (Array_sort_sorted totalCompare totalCompare_total totalCompare_trans cands)
      as Hs.
    pose proof (Array_sort_perm totalCompare cands) as Hp.
    destruct (Array_sort totalCompare cands) as [|best t] eqn:E.
    { apply Permutation_length in Hp. apply Nat.leb_gt in H. cbn in Hp. lia. }
    destruct (last (best :: t)) as [worst|] eqn:El.
    2:{ apply last_None in El. discriminate. }
    cbn [head].
    destruct (Array_sort_head totalCompare totalCompare_total totalCompare_trans
                cands best t E) as [Hb Hmin].
    assert (Hw : In worst cands).
    { eapply Permutation_in; [exact Hp|].
      apply list_elem_of_In. now apply last_Some_elem_of. }
    assert (Hmax : forall c, In c cands -> c.2 <= worst.2).
    { intros c Hc. apply (Permutation_in _ (Permutation_sym Hp)) in Hc.
      destruct (sorted_last _ _ _ Hs El c Hc) as [->|Hc'];
        [lra | unfold totalCompare in Hc'; lra]. }
    assert (Hmin' : forall c, In c cands -> best.2 <= c.2).
    { intros c Hc. specialize (Hmin c Hc). unfold totalCompare in Hmin. lra. }
    eexists best, worst, _. split; [reflexivity|]. cbn [amount percentage vsLabel].
    pose proof (Hmin' worst Hw) as Hbw.
    repeat split; try assumption; try reflexivity.
    + now apply Hmin'.
    + now apply Hmax.
    + lra.
    + destruct (Qlt_bool 0 worst.2) eqn:Ep; [|lra].
      apply Qlt_bool_true in Ep.
      apply Qmult_le_0_compat; [|lra].
      apply Qle_shift_div_l; [exact Ep | lra].
    + intros Hnc. subst cands. unfold winnerCandidates in E.
      cbn [app] in E.
      rewrite (Array_sort_first_wins totalCompare) in E.
      * now injection E as <- _.
      * intros y Hy. unfold totalCompare. cbn [snd].
        specialize (Hnc y). unfold winnerCandidates in Hnc. cbn [app] in Hnc.
        specialize (Hnc (or_intror Hy)). lra.
Qed.

Lemma X24_headline_winner_witness :
  exists (best worst : WinnerKey * Q) (s : WinnerSavings),
    winnerAndSavings (results guardedState) = (Some best.1, Some s)
    /\ In best (winnerCandidates (results guardedState))
    /\ In worst (winnerCandidates (results guardedState))
    /\ (forall c : WinnerKey * Q,
           In c (winnerCandidates (results guardedState)) -> best.2 <= c.2 <= worst.2)
    /\ amount s = worst.2 - best.2
    /\ vsLabel s = winnerLabels worst.1
    /\ 0 <= amount s /\ 0 <= percentage s
    /\ ((forall c : WinnerKey * Q,
            In c (winnerCandidates (results guardedState)) ->
            total (res_noCaching (results guardedState)) <= c.2) ->
        best.1 = WK_noCaching).
Proof.
  apply (proj2 (X24_headline_winner (results guardedState))).
  vm_compute. lia.
Defined.

(* ------------------------------------------------------------------ *)
(** ** The search for the optimal chat history size *)

Lemma candidateAt_eq (k : nat) :
  forall minCandidate : Q,
    candidateAt minCandidate k == minCandidate + 50 * inject_Z (Z.of_nat k).
Proof.
  induction k as [|k IH]; intros minCandidate.
  - cbn. ring.
  - cbn [candidateAt]. rewrite IH, Nat2Z.inj_succ. unfold Z.succ.
    rewrite inject_Z_plus. change (inject_Z 1) with 1. ring.
Qed.

Lemma candidateAt_ge (k : nat) (minCandidate : Q) :
  minCandidate <= candidateAt minCandidate k.
Proof.
  rewrite candidateAt_eq.
  pose proof (inject_Z_nonneg (Z.of_nat k) ltac:(lia)). lra.
Qed.

Lemma lt_xnum_Fin (q : Q) (x : xnum) :
  lt_xnum q x = false -> xnum_le x q.
Proof.
  destruct x as [b|]; cbn; [|discriminate].
  unfold Qlt_bool. intros H. apply negb_false_iff in H. now apply Qle_bool_true.
Qed.

Lemma lt_xnum_trans (a b : Q) (x : xnum) :
  a < b -> lt_xnum b x = true -> lt_xnum a x = true.
Proof.
  destruct x as [q|]; cbn; [|reflexivity].
  intros Hab H. apply Qlt_bool_true in H.
  unfold Qlt_bool. apply negb_true_iff.
  destruct (Qle_bool q a) eqn:E; [|reflexivity].
  apply Qle_bool_true in E. lra.
Qed.

Lemma lt_xnum_le (a b : Q) (x : xnum) :
  lt_xnum a x = true -> xnum_le x b -> a < b.
Proof.
  destruct x as [q|]; cbn; [|contradiction].
  intros H Hle. apply Qlt_bool_true in H. lra.
Qed.

(** The loop either keeps its state, and then no candidate was below the
    best total so far, or ends with the first candidate of least cost. *)
Lemma searchLoop_spec (cost : Q -> Q) :
  forall (fuel : nat) (candidate bestTokens : Q) (bestTotal : xnum),
    let r := searchLoop fuel cost candidate bestTokens bestTotal in
    (r = (bestTokens, bestTotal)
     /\ forall j : nat,
          (j < fuel)%nat -> candidateAt candidate j <= 10000 ->
          xnum_le bestTotal (cost (candidateAt candidate j)))
    \/ (exists k : nat,
          (k < fuel)%nat /\ candidateAt candidate k <= 10000
          /\ r = (candidateAt candidate k, Fin (cost (candidateAt candidate k)))
          /\ lt_xnum (cost (candidateAt candidate k)) bestTotal = true
          /\ (forall j : nat,
                 (j < fuel)%nat -> candidateAt candidate j <= 10000 ->
                 cost (candidateAt candidate k) <= cost (candidateAt candidate j))
          /\ (forall j : nat,
                 (j < k)%nat ->
                 cost (candidateAt candidate k) < cost (candidateAt candidate j))).
Proof.
  induction fuel as [|fuel IH]; intros candidate bestTokens bestTotal r; subst r.
  - left. split; [reflexivity|]. intros j Hj. lia.
  - cbn [searchLoop]. destruct (Qle_bool candidate 10000) eqn:Ec.
    2:{ apply Qle_bool_false in Ec. left. split; [reflexivity|].
        intros j _ Hj. pose proof (candidateAt_ge j candidate). lra. }
    apply Qle_bool_true in Ec. cbv zeta.
    destruct (lt_xnum (cost candidate) bestTotal) eqn:El.
    + right.
      destruct (IH (candidate + 50) candidate (Fin (cost candidate)))
        as [[Hr Hall]|(k & Hk & Hc & Hr & Hlt & Hmin & Hfirst)].
      * exists 0%nat. cbn [candidateAt].
        split; [lia|]. split; [exact Ec|]. split; [exact Hr|]. split; [exact El|].
        split; [|intros j Hj; lia].
        intros [|j] Hj Hcj; cbn [candidateAt]; [lra|].
        apply (Hall j); [lia | exact Hcj].
      * exists (S k). cbn [candidateAt].
        cbn in Hlt. apply Qlt_bool_true in Hlt.
        split; [lia|]. split; [exact Hc|]. split; [exact Hr|].
        split; [now apply (lt_xnum_trans _ (cost candidate))|].
        split.
        -- intros [|j] Hj Hcj; cbn [candidateAt]; [lra|].
           apply Hmin; [lia | exact Hcj].
        -- intros [|j] Hj; cbn [candidateAt]; [lra|]. apply Hfirst. lia.
    + apply lt_xnum_Fin in El.
      destruct (IH (candidate + 50) bestTokens bestTotal)
        as [[Hr Hall]|(k & Hk & Hc & Hr & Hlt & Hmin & Hfirst)].
      * left. split; [exact Hr|].
        intros [|j] Hj Hcj; cbn [candidateAt]; [exact El|].
        apply Hall; [lia | exact Hcj].
      * right. exists (S k). cbn [candidateAt].
        pose proof (lt_xnum_le _ _ _ Hlt El) as Hlt0.
        split; [lia|]. split; [exact Hc|]. split; [exact Hr|].
        split; [exact Hlt|]. split.
        -- intros [|j] Hj Hcj; cbn [candidateAt]; [lra|].
           apply Hmin; [lia | exact Hcj].
        -- intros [|j] Hj; cbn [candidateAt]; [lra|]. apply Hfirst. lia.
Qed.

(** The fuel covers every candidate of the grid. *)
Lemma searchFuel_enough (minCandidate : Q) (j : nat) :
  candidateAt minCandidate j <= 10000 -> (j < searchFuel minCandidate)%nat.
Proof.
  intros H. rewrite candidateAt_eq in H. unfold searchFuel.
  assert (Hj : inject_Z (Z.of_nat j) <= (10000 - minCandidate) / 50).
  { apply Qle_shift_div_l; lra. }
  apply Qfloor_resp_le in Hj. rewrite Qfloor_Z in Hj. lia.
Qed.

(** X25: the search for the optimal chat history size.  When the memo
    returns a result and the first candidate, summarySize + 100, is at
    most 10000, the optimal total is finite, it is the cost of the optimal
    size, which is a candidate of the grid (steps of 50 up to 10000), no
    candidate of the grid costs less, every earlier candidate costs
    strictly more, and the savings are the current total less the optimal
    one, so they are non-negative when the current size is on the grid.
    When the first candidate is above 10000 the loop body never runs: the
    optimal size is the current one, the optimal total is Infinity and
    the savings are -Infinity. *)
Theorem X25_optimal_chat_history :
  forall (c : SimulatorState) (o : OptimalChatHistory),
    optimalChatHistory c = Some o ->
    let minCandidate := summarySize c + 100 in
    (minCandidate <= 10000 ->
     exists k : nat,
       optimalTokens o = candidateAt minCandidate k
       /\ optimalTokens o == minCandidate + 50 * inject_Z (Z.of_nat k)
       /\ optimalTokens o <= 10000
       /\ optimalTotal o = Fin (optimalCost c (optimalTokens o))
       /\ (forall j : nat,
              candidateAt minCandidate j <= 10000 ->
              optimalCost c (optimalTokens o) <= optimalCost c (candidateAt minCandidate j))
       /\ (forall j : nat,
              (j < k)%nat ->
              optimalCost c (optimalTokens o) < optimalCost c (candidateAt minCandidate j))
       /\ savings o = LFin (currentTotal o - optimalCost c (optimalTokens o))
       /\ (forall j : nat,
              candidateAt minCandidate j <= 10000 ->
              instTokens (current c) = candidateAt minCandidate j ->
              0 <= currentTotal o - optimalCost c (optimalTokens o)))
    /\ (10000 < minCandidate ->
        optimalTokens o = instTokens (current c)
        /\ optimalTotal o = Infinity
        /\ savings o = NegInfinity).
Proof.
  intros c o Ho minCandidate. unfold optimalChatHistory in Ho.
  destruct (negb (isConversational c) || negb (summarizationEnabled c)
            || negb (supportsCaching c)); [discriminate|].
  cbv zeta in Ho. fold minCandidate in Ho.
  pose proof (searchLoop_spec (optimalCost c) (searchFuel minCandidate) minCandidate
                (instTokens (current c)) Infinity) as Hspec.
  cbv zeta in Hspec.
  destruct (searchLoop (searchFuel minCandidate) (optimalCost c) minCandidate
              (instTokens (current c)) Infinity) as [bt btot] eqn:Eloop.
  injection Ho as <-. cbn [optimalTokens optimalTotal savings currentTotal fst snd].
  split.
  - intros Hmin.
    destruct Hspec as [[_ Hall]|(k & Hk & Hc & Hr & _ & Hleast & Hfirst)].
    { exfalso. apply (Hall 0%nat); [|exact Hmin].
      apply searchFuel_enough. exact Hmin. }
    injection Hr as -> ->. exists k.
    split; [reflexivity|]. split; [apply candidateAt_eq|]. split; [exact Hc|].
    split; [reflexivity|].
    split; [intros j Hj; apply Hleast; [now apply searchFuel_enough | exact Hj]|].
    split; [exact Hfirst|]. split; [reflexivity|].
    intros j Hj Hcur. rewrite Hcur.
    specialize (Hleast j (searchFuel_enough _ _ Hj) Hj). lra.
  - intros Hmin.
    destruct Hspec as [[Hr _]|(k & _ & Hc & _)].
    + injection Hr as -> ->. repeat split.
    + pose proof (candidateAt_ge k minCandidate). lra.
Qed.

Lemma X25_optimal_chat_history_witness :
  exists (o : OptimalChatHistory) (k : nat),
    optimalChatHistory chatState = Some o
    /\ optimalTokens o = candidateAt (summarySize chatState + 100) k
    /\ optimalTotal o = Fin (optimalCost chatState (optimalTokens o)).
Proof.
  assert (E : exists o, optimalChatHistory chatState = Some o)
    by (eexists; reflexivity).
  destruct E as [o E].
  destruct (X25_optimal_chat_history chatState o E) as [H _].
  destruct H as (k & Hk & _ & _ & Ht & _); [vm_compute; discriminate|].
  exists o, k. repeat split; assumption.
Defined.

(** X26: in summarization mode (conversational template with chat
    summarization on) the sweep point at the live value carries the totals
    of the three summarization variants of the headline, guardrails
    included: the no-cache variant always, the two caching variants when
    the model supports caching; it has no No Caching and no Per-Assignment
    Cache entry. *)
Theorem X26_sweep_matches_sum_strategies :
  forall (c : SimulatorState) (s : SumStrategies),
    sumStrategies c = Some s ->
    let p := sweepPoint c (getParam (sensitivityParam c) (current c)) in
    costs p !! "Chat Sum. — No Cache" = Some (total (breakdown (sum_noCaching s)))
    /\ (supportsCaching c = true ->
        costs p !! "Chat Sum. — Cache Prefix"
        = (fun r => total (breakdown r)) <$> sum_cacheAssessment s
        /\ costs p !! "Chat Sum. — Cache in Prefix"
           = (fun r => total (breakdown r)) <$> sum_cacheSummary s)
    /\ costs p !! "No Caching" = None
    /\ costs p !! "Per-Assignment Cache" = None.
Proof.
  intros c s Hs p. subst p. unfold sumStrategies in Hs.
  destruct (isConversational c) eqn:Ec; [|discriminate].
  destruct (summarizationEnabled c) eqn:Ee; [|discriminate].
  cbn [negb orb] in Hs. injection Hs as <-.
  unfold sweepPoint, sweepGr, sweepEffInst, sweepEffSub, sweepArgs,
    resultsGuardrailsCost. cbv zeta.
  rewrite setParam_getParam, Ec, Ee.
  cbn [andb finishPoint costs sum_noCaching sum_cacheAssessment sum_cacheSummary
       withGuardrailsSum withGuardrails breakdown total].
  destruct (is_strategy_comparison (displayMode c));
    destruct (batchIncluded c); destruct (supportsCaching c);
    repeat split; intros; try discriminate; reflexivity.
Qed.

Lemma X26_sweep_matches_sum_strategies_witness :
  exists s : SumStrategies,
    sumStrategies chatState = Some s
    /\ costs (sweepPoint chatState 2000) !! "Chat Sum. — No Cache"
       = Some (total (breakdown (sum_noCaching s))).
Proof.
  assert (E : exists s, sumStrategies chatState = Some s) by (eexists; reflexivity).
  destruct E as [s E]. exists s. split; [exact E|].
  apply (X26_sweep_matches_sum_strategies chatState s E).
Defined.

(* ------------------------------------------------------------------ *)
(** ** The per-turn chart *)

Lemma perTurnLoop_S (c : SimulatorState) (sumSim : option SummarizationSim) (n : nat) :
  perTurnLoop c sumSim (S n)
  = ((perTurnLoop c sumSim n).1
       ++ [(perTurnPoint c sumSim n (perTurnLoop c sumSim n).2).1],
     (perTurnPoint c sumSim n (perTurnLoop c sumSim n).2).2).
Proof. unfold perTurnLoop. now rewrite seq_S, foldl_app. Qed.

Lemma perTurnLoop_length (c : SimulatorState) (sumSim : option SummarizationSim)
    (n : nat) :
  length (perTurnLoop c sumSim n).1 = n.
Proof.
  induction n as [|n IH]; [reflexivity|].
  rewrite perTurnLoop_S. cbn [fst]. rewrite length_app, IH. cbn. lia.
Qed.


Section PerTurnSums.
Variable c : SimulatorState.
Variable sumSim : option SummarizationSim.
Hypothesis whole : isProgressiveSubmission c = false.

Let a := current c.
Let pInput := input_1k (pricing (selectedModel c)) * tierMultiplier c.
Let pOutput := output_1k (pricing (selectedModel c)) * tierMultiplier c.


End PerTurnSums.






(* ------------------------------------------------------------------ *)
(** ** The summarization overlay *)

Lemma Array_includes_In (l : list Z) (x : Z) :
  Array_includes l x = true <-> In x l.
Proof.
  unfold Array_includes. rewrite existsb_exists. split.
  - intros (y & Hy & Heq). apply Z.eqb_eq in Heq. now subst.
  - intros H. exists x. split; [exact H | apply Z.eqb_refl].
Qed.

Lemma sorted_NoDup (l : list Z) : StronglySorted Z.lt l -> NoDup l.
Proof.
  induction 1 as [|a l Hs IH Ha]; constructor; [|exact IH].
  intros Hin. apply list_elem_of_In in Hin.
  rewrite List.Forall_forall in Ha. specialize (Ha a Hin). lia.
Qed.

(** Marks at the indices [0 .. n - 1] for events within [1 .. n]: as many
    marks as events. *)
Lemma count_marks (events : list Z) (n : nat) :
  NoDup events ->
  (forall x : Z, In x events -> (1 <= x <= Z.of_nat n)%Z) ->
  length (List.filter (fun i => Array_includes events (Z.of_nat i + 1)) (seq 0 n))
  = length events.
Proof.
  intros Hnd Hrange.
  set (marked := List.filter (fun i => Array_includes events (Z.of_nat i + 1)) (seq 0 n)).
  rewrite <- (length_map (fun i => (Z.of_nat i + 1)%Z) marked).
  apply Permutation_length, NoDup_Permutation; [| exact Hnd |].
  - assert (Hinj : Inj eq eq (fun i : nat => (Z.of_nat i + 1)%Z))
      by (intros i j Hij; lia).
    apply (NoDup_fmap_2 _), NoDup_ListNoDup, List.NoDup_filter, seq_NoDup.
  - intros x. rewrite !list_elem_of_In, in_map_iff. split.
    + intros (i & <- & Hi). apply filter_In in Hi as [_ Hi].
      now apply Array_includes_In.
    + intros Hx. exists (Z.to_nat (x - 1)).
      pose proof (Hrange x Hx) as Hr.
      assert (Hback : (Z.of_nat (Z.to_nat (x - 1)) + 1 = x)%Z) by lia.
      split; [exact Hback|]. apply filter_In. split.
      * apply in_seq. lia.
      * rewrite Hback. now apply Array_includes_In.
Qed.

Lemma filter_imap_marks {A : Type} (P : nat -> bool) (l : list A) :
  forall (mk : nat -> A -> SumTurnPoint) (k : nat),
    (forall (i : nat) (x : A), sp_isSummarizationTurn (mk i x) = P (k + i)%nat) ->
    length (List.filter sp_isSummarizationTurn (imap mk l))
    = length (List.filter P (seq k (length l))).
Proof.
  induction l as [|x l IH]; intros mk k Hmk; [reflexivity|].
  cbn [imap length seq List.filter].
  rewrite (Hmk 0%nat x), Nat.add_0_r.
  assert (Hrest : length (List.filter sp_isSummarizationTurn (imap (mk ∘ S) l))
                  = length (List.filter P (seq (S k) (length l)))).
  { apply IH. intros i y. cbn. rewrite Hmk. f_equal. lia. }
  destruct (P k); cbn [length]; now rewrite Hrest.
Qed.

(** X29: the summarization overlay of a conversational template with chat
    summarization and at least two turns has one point per simulated turn,
    which carries the number and the history of that turn, and it marks as
    many turns as the simulation counts summarizations. *)
Theorem X29_overlay_marks_summarizations :
  forall c : SimulatorState,
    isConversational c = true ->
    summarizationEnabled c = true ->
    2 <= reqsPerStudent (current c) ->
    let sim := simulateSummarization (reqsPerStudent (current c))
                 (instTokens (current c)) (outputTokens (current c))
                 (summarySize c) in
    let data := summarizationPerTurnData c in
    length data = length (historyPerTurn sim)
    /\ (forall (i : nat) (pt : SumTurnPoint),
           data !! i = Some pt ->
           sp_turn pt = (Z.of_nat i + 1)%Z
           /\ historyPerTurn sim !! i = Some (sp_historyTokens pt))
    /\ length (List.filter sp_isSummarizationTurn data)
       = Z.to_nat (numSummarizations sim)
    /\ (0 < instTokens (current c) ->
        (0 < computeTokensPerExchange (outputTokens (current c)))%Z ->
        length data = turnCount (reqsPerStudent (current c))).
Proof.
  intros c Hconv Hsum Hreqs sim data. subst data.
  unfold summarizationPerTurnData. cbv zeta. rewrite Hconv, Hsum. cbn [negb orb].
  assert (E : Qlt_bool (reqsPerStudent (current c)) 2 = false).
  { unfold Qlt_bool. now apply negb_false_iff, Qle_bool_true. }
  rewrite E. fold sim. rewrite length_imap.
  split; [reflexivity|]. split.
  { intros i pt Hpt. rewrite list_lookup_imap in Hpt.
    destruct (historyPerTurn sim !! i) as [h|]; [|discriminate].
    cbn in Hpt. injection Hpt as <-. now split. }
  assert (Hr : 0 < reqsPerStudent (current c)) by lra.
  destruct (Z.ltb_spec 0 (computeTokensPerExchange (outputTokens (current c))))
    as [Ht|Ht]; [destruct (Qlt_le_dec 0 (instTokens (current c))) as [Hc|Hc]|].
  - destruct (simulateSummarization_inv _ _ _ (summarySize c) Hr Hc Ht)
      as (Hlen & _ & Hev & Hsorted & _).
    fold sim in Hlen, Hev, Hsorted.
    assert (Hlen' : length (historyPerTurn sim) = turnCount (reqsPerStudent (current c)))
      by (rewrite Hlen; lia).
    split; [|intros _ _; exact Hlen'].
    rewrite (filter_imap_marks
               (fun i => Array_includes (summarizationTurns sim) (Z.of_nat i + 1))
               (historyPerTurn sim) _ 0%nat).
    2:{ intros i x. reflexivity. }
    rewrite count_marks.
    + subst sim. rewrite simulateSummarization_main by assumption.
      cbv zeta. cbn [numSummarizations summarizationTurns]. now rewrite Nat2Z.id.
    + now apply sorted_NoDup.
    + intros x Hx. apply list_elem_of_In, Hev in Hx as ((Hx1 & Hx2) & _).
      rewrite Hlen'. lia.
  - assert (Hd : sim = {| historyPerTurn := []; summarizationTurns := [];
                          totalHistoryTokensSent := 0; avgHistoryPerTurn := 0;
                          numSummarizations := 0; turnsPerCycle := 0 |})
      by (apply simulateSummarization_degenerate; auto).
    rewrite Hd. split; [reflexivity | intros; lra].
  - assert (Hd : sim = {| historyPerTurn := []; summarizationTurns := [];
                          totalHistoryTokensSent := 0; avgHistoryPerTurn := 0;
                          numSummarizations := 0; turnsPerCycle := 0 |})
      by (apply simulateSummarization_degenerate; auto).
    rewrite Hd. split; [reflexivity | intros; lia].
Qed.

Lemma X29_overlay_marks_summarizations_witness :
  length (List.filter sp_isSummarizationTurn (summarizationPerTurnData chatState))
  = Z.to_nat
      (numSummarizations
         (simulateSummarization (reqsPerStudent (current chatState))
            (instTokens (current chatState)) (outputTokens (current chatState))
            (summarySize chatState))).
Proof.
  apply (X29_overlay_marks_summarizations chatState);
    first [reflexivity | vm_compute; discriminate].
Defined.

Lemma perTurnLoop_lookup (c : SimulatorState) (sumSim : option SummarizationSim) :
  forall (n i : nat),
    (i < n)%nat ->
    exists flag : bool,
      (perTurnLoop c sumSim n).1 !! i = Some (perTurnPoint c sumSim i flag).1.
Proof.
  induction n as [|n IH]; intros i Hi; [lia|].
  rewrite perTurnLoop_S. cbn [fst].
  destruct (Nat.eq_dec i n) as [->|Hne].
  - exists (perTurnLoop c sumSim n).2.
    rewrite lookup_app_r by (rewrite perTurnLoop_length; lia).
    now rewrite perTurnLoop_length, Nat.sub_diag.
  - destruct (IH i ltac:(lia)) as [flag Hflag]. exists flag.
    rewrite lookup_app_l by (rewrite perTurnLoop_length; lia). exact Hflag.
Qed.

(** X30: the summarization overlay and the per-turn chart agree.  Where
    both have a point for a turn, the point carries the same turn number
    and summarized history; without prompt caching the overlay cost is the
    chart's Chat Summary - No Cache cost; with caching it is the chart's
    Chat Summary - Cache Prefix cost from the second turn on, and at the
    first turn the chart's cost exceeds it by the cached prefix priced at
    the difference of the cache write and read prices. *)
Theorem X30_overlay_agrees_with_chart :
  forall (c : SimulatorState) (i : nat) (pt : SumTurnPoint) (q : TurnPoint),
    summarizationPerTurnData c !! i = Some pt ->
    perTurnData c !! i = Some q ->
    let a := current c in
    let tier := tierMultiplier c in
    let pRead := nullish (cache_read_1k (pricing (selectedModel c))) 0 * tier in
    let pWrite := getCacheWritePrice (selectedModel c) (effectiveCacheTTL c) * tier in
    pt_turn q = sp_turn pt
    /\ pt_sumHistoryTokens q = Some (sp_historyTokens pt)
    /\ (supportsCaching c = false -> pt_sumNoCache q = Some (sp_cost pt))
    /\ (supportsCaching c = true -> (1 <= i)%nat ->
        pt_sumCachePrefix q = Some (sp_cost pt))
    /\ (supportsCaching c = true -> i = 0%nat ->
        exists v : Q,
          pt_sumCachePrefix q = Some v
          /\ v - sp_cost pt == ((sysTokens a + ctxTokens a) / 1000) * (pWrite - pRead)).
Proof.
  intros c i pt q Hpt Hq a tier pRead pWrite. subst a tier pRead pWrite.
  unfold summarizationPerTurnData in Hpt. unfold perTurnData in Hq. cbv zeta in Hpt, Hq.
  destruct (isConversational c);
    [|cbn [negb orb] in Hpt; rewrite lookup_nil in Hpt; discriminate].
  destruct (summarizationEnabled c);
    [|cbn [negb orb] in Hpt; rewrite lookup_nil in Hpt; discriminate].
  cbn [negb orb] in Hpt, Hq.
  destruct (Qlt_bool (reqsPerStudent (current c)) 2);
    [rewrite lookup_nil in Hpt; discriminate|].
  set (sim := simulateSummarization (reqsPerStudent (current c))
                (instTokens (current c)) (outputTokens (current c))
                (summarySize c)) in *.
  rewrite list_lookup_imap in Hpt.
  destruct (historyPerTurn sim !! i) as [h|] eqn:Eh; [|discriminate].
  cbn [fmap option_fmap option_map] in Hpt. injection Hpt as <-.
  pose proof (lookup_lt_Some _ _ _ Hq) as Hi. rewrite perTurnLoop_length in Hi.
  destruct (perTurnLoop_lookup c (Some sim) _ i Hi) as [flag Hflag].
  rewrite Hflag in Hq. injection Hq as <-.
  unfold perTurnPoint. cbv zeta.
  cbn [fst pt_turn pt_sumHistoryTokens pt_sumNoCache pt_sumCachePrefix
       sp_turn sp_historyTokens sp_cost].
  rewrite Eh. cbn [nullish].
  split; [reflexivity|]. split; [reflexivity|]. split; [|split].
  - intros ->. reflexivity.
  - intros -> Hi1.
    assert (E1 : (Z.of_nat i + 1 =? 1)%Z = false) by (apply Z.eqb_neq; lia).
    rewrite E1. reflexivity.
  - intros -> ->. change (Z.of_nat 0 + 1 =? 1)%Z with true. cbv iota.
    eexists. split; [reflexivity|]. unfold Qdiv. ring.
Qed.

Lemma X30_overlay_agrees_with_chart_witness :
  exists (pt : SumTurnPoint) (q : TurnPoint),
    summarizationPerTurnData chatState !! 1%nat = Some pt
    /\ perTurnData chatState !! 1%nat = Some q
    /\ pt_sumCachePrefix q = Some (sp_cost pt).
Proof.
  assert (E1 : exists pt, summarizationPerTurnData chatState !! 1%nat = Some pt)
    by (eexists; vm_compute; reflexivity).
  assert (E2 : exists q, perTurnData chatState !! 1%nat = Some q)
    by (eexists; vm_compute; reflexivity).
  destruct E1 as [pt E1], E2 as [q E2]. exists pt, q.
  split; [exact E1|]. split; [exact E2|].
  apply (X30_overlay_agrees_with_chart chatState 1 pt q E1 E2); [reflexivity | lia].
Defined.
